(** * plex-renamer: a shallow embedding of [movie_tmdb.py]

    The development follows the layout of the Python module:

    - Python strings are lists of Unicode code points ([str]);
    - the fragment of the [re] module the program uses is a small
      backtracking matcher ([Re]), with [fullmatch] and [sub];
    - [make_filename], [RE_GOOD_FN] and the query heuristics
      ([_strip_year], [_strip_leading_info], ...) are pure functions;
    - [pathlib.PurePosixPath] is a record of a root and its components;
    - [ask_user], [move_to_folder] and [loop_path] run in a small state and
      exception monad over the prompt input and a log of filesystem
      operations. *)

From Stdlib Require Import String Ascii.
From Stdlib Require Import List Bool Arith ZArith NArith Lia.
From Stdlib Require Decimal DecimalPos DecimalFacts DecimalZ.
Import ListNotations.

Set Implicit Arguments.

(* ================================================================= *)
(** ** Python strings *)

(** A character is a Unicode code point, a [str] a sequence of them. *)
Definition char := N.
Definition str := list char.

(** ASCII literals: every byte of the Rocq string is one code point. *)
Fixpoint str_of (s : string) : str :=
  match s with
  | EmptyString => []
  | String a s' => N_of_ascii a :: str_of s'
  end.

Definition ch (a : ascii) : char := N_of_ascii a.

Definition NEWLINE : char := 10%N.

Fixpoint str_eqb (a b : str) : bool :=
  match a, b with
  | [], [] => true
  | x :: a', y :: b' => N.eqb x y && str_eqb a' b'
  | _, _ => false
  end.

Definition char_in (c : char) (cs : str) : bool := existsb (N.eqb c) cs.

(** First code point of every block of ten consecutive decimal digits
    (general category Nd, Unicode 14.0 as shipped with CPython 3.11); the
    mathematical digits U+1D7CE..U+1D7FF form five consecutive blocks. *)
Definition Nd_blocks : list N :=
  [48; 1632; 1776; 1984; 2406; 2534; 2662; 2790; 2918; 3046; 3174; 3302;
   3430; 3558; 3664; 3792; 3872; 4160; 4240; 6112; 6160; 6470; 6608; 6784;
   6800; 6992; 7088; 7232; 7248; 42528; 43216; 43264; 43472; 43504; 43600;
   44016; 65296; 66720; 68912; 69734; 69872; 69942; 70096; 70384; 70736;
   70864; 71248; 71360; 71472; 71904; 72016; 72784; 73040; 73120; 92768;
   92864; 93008; 120782; 120792; 120802; 120812; 120822; 123200; 123632;
   125264; 130032]%N.

(** [Py_UNICODE_ISDECIMAL]: what [\d] matches in a [str] pattern. *)
Definition Py_UNICODE_ISDECIMAL (c : char) : bool :=
  existsb (fun b => (b <=? c)%N && (c <? b + 10)%N) Nd_blocks.

(** The decimal value of a decimal digit. *)
Definition Py_UNICODE_TODECIMAL (c : char) : option N :=
  match find (fun b => (b <=? c)%N && (c <? b + 10)%N) Nd_blocks with
  | Some b => Some (c - b)%N
  | None => None
  end.

(** [Py_UNICODE_ISSPACE]: what [str.strip()] removes. *)
Definition Py_UNICODE_ISSPACE (c : char) : bool :=
  ((9 <=? c) && (c <=? 13) || (28 <=? c) && (c <=? 32)
   || (c =? 133) || (c =? 160) || (c =? 5760)
   || (8192 <=? c) && (c <=? 8202)
   || (c =? 8232) || (c =? 8233) || (c =? 8239) || (c =? 8287)
   || (c =? 12288))%N.

(** The ten ASCII digits. *)
Definition ascii_digit (c : char) : bool := ((48 <=? c) && (c <=? 57))%N.

Fixpoint drop_while (p : char -> bool) (s : str) : str :=
  match s with
  | [] => []
  | c :: t => if p c then drop_while p t else s
  end.

(** [s.lstrip()], [s.rstrip()], [s.strip()] and [s.lstrip(chars)]. *)
Definition lstrip (s : str) : str := drop_while Py_UNICODE_ISSPACE s.
Definition rstrip (s : str) : str := rev (drop_while Py_UNICODE_ISSPACE (rev s)).
Definition strip (s : str) : str := rstrip (lstrip s).
Definition lstrip_chars (chars s : str) : str :=
  drop_while (fun c => char_in c chars) s.

(** [s.split(sep)] for a one-character separator. *)
Fixpoint split (sep : char) (s : str) : list str :=
  match s with
  | [] => [[]]
  | c :: t =>
      if N.eqb c sep then [] :: split sep t
      else match split sep t with
           | seg :: segs => (c :: seg) :: segs
           | [] => [[c]]
           end
  end.

(** [sep.join(l)]. *)
Fixpoint join (sep : str) (l : list str) : str :=
  match l with
  | [] => []
  | [x] => x
  | x :: rest => x ++ sep ++ join sep rest
  end.

(** [str(n)] for an [int]: the decimal digits, with a minus sign for a
    negative number. *)
Fixpoint uint_chars (u : Decimal.uint) : str :=
  match u with
  | Decimal.Nil => []
  | Decimal.D0 u => 48%N :: uint_chars u
  | Decimal.D1 u => 49%N :: uint_chars u
  | Decimal.D2 u => 50%N :: uint_chars u
  | Decimal.D3 u => 51%N :: uint_chars u
  | Decimal.D4 u => 52%N :: uint_chars u
  | Decimal.D5 u => 53%N :: uint_chars u
  | Decimal.D6 u => 54%N :: uint_chars u
  | Decimal.D7 u => 55%N :: uint_chars u
  | Decimal.D8 u => 56%N :: uint_chars u
  | Decimal.D9 u => 57%N :: uint_chars u
  end.

Definition str_int (z : Z) : str :=
  match Z.to_int z with
  | Decimal.Pos u => uint_chars u
  | Decimal.Neg u => 45%N :: uint_chars u
  end.

(* ================================================================= *)
(** ** The fragment of [re] the program uses *)

Module Re.

(** One-character items. *)
Inductive cclass :=
| Lit (c : char)          (* a literal, escaped or not *)
| Dot                     (* [.]: anything but a newline (no DOTALL) *)
| Digit                   (* [\d] *)
| OneOf (cs : str).       (* a set such as [[mv]] *)

Definition test (k : cclass) (c : char) : bool :=
  match k with
  | Lit a => N.eqb c a
  | Dot => negb (N.eqb c NEWLINE)
  | Digit => Py_UNICODE_ISDECIMAL c
  | OneOf cs => char_in c cs
  end.

(** Patterns. [x+] is written [Cat (Class x) (Star true x)], [x{4}] as four
    copies; repetition is only ever applied to one-character items here. *)
Inductive regex :=
| Eps                     (* the empty pattern *)
| Class (k : cclass)
| Cat (a b : regex)
| Alt (a b : regex)
| Star (greedy : bool) (k : cclass)
| Group (n : nat) (a : regex)
| Bol                     (* [^] without MULTILINE *)
| Eol.                    (* [$] without MULTILINE *)

(** The matcher's state: the position in the subject string, the text
    still ahead, and the groups captured so far (latest first). *)
Record mstate := MState { pos : nat; rest : str; groups : list (nat * str) }.

Definition kont := mstate -> option mstate.

(** Greedy repetition: take as many characters as the class allows, then
    give them back one at a time until the continuation succeeds. *)
Fixpoint star_greedy (p : char -> bool) (n : nat) (l : str)
    (k : nat -> str -> option mstate) : option mstate :=
  match l with
  | c :: t =>
      if p c then
        match star_greedy p (S n) t k with
        | Some r => Some r
        | None => k n l
        end
      else k n l
  | [] => k n l
  end.

(** Lazy repetition: try the continuation first, take one more character
    only when it fails. *)
Fixpoint star_lazy (p : char -> bool) (n : nat) (l : str)
    (k : nat -> str -> option mstate) : option mstate :=
  match k n l with
  | Some r => Some r
  | None =>
      match l with
      | c :: t => if p c then star_lazy p (S n) t k else None
      | [] => None
      end
  end.

(** The text between two states of one run. *)
Definition consumed (s s' : mstate) : str :=
  firstn (pos s' - pos s) (rest s).

(** Backtracking matcher in continuation-passing style: the first
    alternative, in priority order, whose continuation succeeds wins. *)
Fixpoint run (r : regex) (s : mstate) (k : kont) : option mstate :=
  match r with
  | Eps => k s
  | Class c =>
      match rest s with
      | x :: t => if test c x then k (MState (S (pos s)) t (groups s)) else None
      | [] => None
      end
  | Cat a b => run a s (fun s' => run b s' k)
  | Alt a b =>
      match run a s k with
      | Some r => Some r
      | None => run b s k
      end
  | Star true c =>
      star_greedy (test c) (pos s) (rest s) (fun n l => k (MState n l (groups s)))
  | Star false c =>
      star_lazy (test c) (pos s) (rest s) (fun n l => k (MState n l (groups s)))
  | Group n a =>
      run a s (fun s' => k (MState (pos s') (rest s') ((n, consumed s s') :: groups s')))
  | Bol => if Nat.eqb (pos s) 0 then k s else None
  | Eol =>
      match rest s with
      | [] => k s
      | [c] => if N.eqb c NEWLINE then k s else None
      | _ => None
      end
  end.

(** A literal string, one [Lit] per character. *)
Fixpoint lit (s : str) : regex :=
  match s with
  | [] => Eps
  | c :: t => Cat (Class (Lit c)) (lit t)
  end.

(** [r1 r2 ... rn] in sequence. *)
Fixpoint seq (rs : list regex) : regex :=
  match rs with
  | [] => Eps
  | r :: rs' => Cat r (seq rs')
  end.

(** [m.group(n)]. *)
Fixpoint group (n : nat) (g : list (nat * str)) : option str :=
  match g with
  | [] => None
  | (i, w) :: g' => if Nat.eqb i n then Some w else group n g'
  end.

(** [pattern.fullmatch(s)]: a match from the start that reaches the end. *)
Definition at_end : kont :=
  fun s' => match rest s' with [] => Some s' | _ => None end.

Definition fullmatch (r : regex) (s : str) : option mstate :=
  run r (MState 0 s []) at_end.

(** One anchored attempt at position [n], as [search] makes them. *)
Definition match_at (r : regex) (n : nat) (l : str) : option mstate :=
  run r (MState n l []) Some.

(** [pattern.sub(repl, s)] for a pattern that never matches the empty
    string: scan left to right, replace each match and resume behind it. *)
Fixpoint sub_from (fuel : nat) (r : regex) (repl : str) (n : nat) (l : str) : str :=
  match fuel with
  | O => l
  | S fuel' =>
      match l with
      | [] => []
      | c :: t =>
          match match_at r n l with
          | Some m =>
              if Nat.ltb n (pos m)
              then repl ++ sub_from fuel' r repl (pos m) (rest m)
              else c :: sub_from fuel' r repl (S n) t
          | None => c :: sub_from fuel' r repl (S n) t
          end
      end
  end.

Definition sub (r : regex) (repl : str) (s : str) : str :=
  sub_from (S (length s)) r repl 0 s.

(** What a pattern may match, apart from the order in which the matcher
    tries the alternatives: [Matches r s s'] when [r] can lead the matcher
    from state [s] to state [s']. *)
Fixpoint Matches (r : regex) (s s' : mstate) : Prop :=
  match r with
  | Eps => s' = s
  | Class c =>
      exists x t, rest s = x :: t /\ test c x = true
                  /\ s' = MState (S (pos s)) t (groups s)
  | Cat a b => exists m, Matches a s m /\ Matches b m s'
  | Alt a b => Matches a s s' \/ Matches b s s'
  | Star _ c =>
      exists w t, rest s = w ++ t /\ forallb (test c) w = true
                  /\ s' = MState (pos s + length w) t (groups s)
  | Group n a =>
      exists m, Matches a s m
                /\ s' = MState (pos m) (rest m) ((n, consumed s m) :: groups m)
  | Bol => pos s = 0 /\ s' = s
  | Eol => (rest s = [] \/ rest s = [NEWLINE]) /\ s' = s
  end.

End Re.

(* ================================================================= *)
(** ** The program *)

Import Re.

(** [INVALID_FILENAME_CHARS]: less-than, greater-than, colon, double quote,
    slash, backslash, vertical bar, question mark and asterisk. *)
Definition INVALID_FILENAME_CHARS : str :=
  [60; 62; 58; 34; 47; 92; 124; 63; 42]%N.

Definition VIDEO_EXT : list str :=
  [str_of ".avi"; str_of ".mp4"; str_of ".mkv"; str_of ".m4v"; str_of ".ogm"].

(** [RE_GOOD_FN]: the pattern [^.+ \(\d{4}\) \{t[mv]db-\d+\}$]. *)
Definition RE_GOOD_FN : regex :=
  seq [ Bol; Class Dot; Star true Dot;
        lit (str_of " (");
        Class Digit; Class Digit; Class Digit; Class Digit;
        lit (str_of ") {t");
        Class (OneOf (str_of "mv"));
        lit (str_of "db-");
        Class Digit; Star true Digit;
        lit (str_of "}");
        Eol ].

(** [datetime.date]; a year lies between [MINYEAR] and [MAXYEAR]. *)
Record date := Date { year : Z; month : Z; day : Z }.

Definition MINYEAR : Z := 1.
Definition MAXYEAR : Z := 9999.

(** [SearchResult]: the fields read after construction. *)
Record SearchResult := { title : str; id_ : Z; release : date }.

(** [make_filename]. *)
Definition make_filename (result : SearchResult) : str :=
  let clean_title :=
    filter (fun c => negb (char_in c INVALID_FILENAME_CHARS)) (title result) in
  let clean_title :=
    if str_eqb clean_title [] then str_of "FIXME" else clean_title in
  let fn := clean_title ++ str_of " (" ++ str_int (year (release result)) ++ str_of ")" in
  fn ++ (str_of " {tmdb-" ++ str_int (id_ result) ++ str_of "}").

(** [RE_GOOD_FN.fullmatch(stem) is not None], the test of [loop_path]. *)
Definition looksCanonical (stem : str) : bool :=
  match fullmatch RE_GOOD_FN stem with
  | Some _ => true
  | None => false
  end.

(** The pattern of [_strip_year]; under [re.VERBOSE] the white space of
    the pattern text is not part of the pattern. *)
Definition year_re : regex :=
  Group 1
    (Alt (seq [lit (str_of "["); Class Digit; Class Digit; Class Digit; Class Digit;
               lit (str_of "]")])
         (seq [lit (str_of "("); Class Digit; Class Digit; Class Digit; Class Digit;
               lit (str_of ")")])).

Definition _strip_year (data : str) : str :=
  strip (sub year_re [] data).

(** The pattern of [_strip_leading_info] is compiled with [re.VERBOSE] too,
    so the blanks written around its first hyphen are dropped: what is
    compiled is [^(.*?-)(.*-.*$)]. *)
Definition patt_group1 : regex :=
  Group 1 (seq [Star false Dot; lit (str_of "-")]).

Definition patt_group2 : regex :=
  Group 2 (seq [Star true Dot; lit (str_of "-"); Star true Dot; Eol]).

Definition patt : regex := seq [Bol; patt_group1; patt_group2].

Definition _strip_leading_info (data : str) : str :=
  match fullmatch patt data with
  | Some m =>
      match group 2 (groups m) with
      | Some g => strip g
      | None => data
      end
  | None => data
  end.

Definition _strip_leading_number (data : str) : str :=
  lstrip_chars (str_of "0123456789 -") data.

Definition _first_couple_words_from_dots (data : str) : str :=
  let split_by_dot := split (ch ".") data in
  if Nat.ltb 2 (length split_by_dot)
  then join (str_of " ") (firstn 2 split_by_dot)
  else data.

Definition get_search_term_from_fn (fn : str) : str :=
  let best_guess := fn in
  let best_guess := _strip_year best_guess in
  let best_guess := _strip_leading_info best_guess in
  let best_guess := _strip_leading_number best_guess in
  let best_guess := _first_couple_words_from_dots best_guess in
  best_guess.

(* ----------------------------------------------------------------- *)
(** *** [pathlib.PurePosixPath] *)

(** A path is its root (empty, one slash or two) and the components
    behind it; the parser keeps no empty component and no single dot. *)
Record Path := { root : str; comps : list str }.

Definition SEP : char := ch "/".

Definition components (rel : str) : list str :=
  filter (fun x => negb (str_eqb x []) && negb (str_eqb x (str_of ".")))
         (split SEP rel).

(** [splitroot]: exactly two leading slashes are a root of their own. *)
Definition splitroot (part : str) : str * str :=
  match part with
  | c :: _ =>
      if N.eqb c SEP then
        let stripped := drop_while (N.eqb SEP) part in
        if Nat.eqb (length part - length stripped) 2
        then (str_of "//", stripped)
        else (str_of "/", stripped)
      else ([], part)
  | [] => ([], part)
  end.

Definition PurePosixPath (s : str) : Path :=
  let (r, rel) := splitroot s in {| root := r; comps := components rel |}.

(** [p / s]: a segment with a root of its own replaces the path. *)
Definition truediv (p : Path) (s : str) : Path :=
  let (r, rel) := splitroot s in
  match r with
  | [] => {| root := root p; comps := comps p ++ components rel |}
  | _ => {| root := r; comps := components rel |}
  end.

Definition name (p : Path) : str := last (comps p) [].

Definition parent (p : Path) : Path :=
  {| root := root p; comps := removelast (comps p) |}.

(** [s.rfind(c)]: the index of the last occurrence, if any. *)
Fixpoint rfind (c : char) (s : str) : option nat :=
  match s with
  | [] => None
  | x :: t =>
      match rfind c t with
      | Some i => Some (S i)
      | None => if N.eqb x c then Some 0 else None
      end
  end.

Definition suffix (p : Path) : str :=
  let name := name p in
  match rfind (ch ".") name with
  | Some i => if Nat.ltb 0 i && Nat.ltb i (length name - 1) then skipn i name else []
  | None => []
  end.

Definition stem (p : Path) : str :=
  let name := name p in
  match rfind (ch ".") name with
  | Some i => if Nat.ltb 0 i && Nat.ltb i (length name - 1) then firstn i name else name
  | None => name
  end.

(** [p.with_name(n)]; [None] stands for the [ValueError] of an empty
    current name or of a new name that is not one plain component. *)
Definition with_name (p : Path) (n : str) : option Path :=
  if str_eqb (name p) [] then None
  else
    match splitroot n with
    | ([], rel) =>
        match components rel with
        | [_] =>
            if N.eqb (last n 0%N) SEP then None
            else Some {| root := root p; comps := removelast (comps p) ++ [n] |}
        | _ => None
        end
    | _ => None
    end.

(** [s.lower()] on the code points whose lowercase form contains an ASCII
    character: the letters A to Z, the Kelvin sign and the dotted capital
    I. The lowercase form of any other code point holds no ASCII character;
    it is left as it is, the result being compared with ASCII text only. *)
Definition lower_char (c : char) : str :=
  if ((65 <=? c) && (c <=? 90))%N then [(c + 32)%N]
  else if (c =? 8490)%N then [107%N]
  else if (c =? 304)%N then [105%N; 775%N]
  else [c].

Definition lower (s : str) : str := flat_map lower_char s.

(** [sorted(files)]: ascending by code points. *)
Fixpoint str_leb (a b : str) : bool :=
  match a, b with
  | [], _ => true
  | _ :: _, [] => false
  | x :: a', y :: b' => (x <? y)%N || (N.eqb x y && str_leb a' b')
  end.

Fixpoint insert_sorted (x : str) (l : list str) : list str :=
  match l with
  | [] => [x]
  | y :: l' => if str_leb x y then x :: l else y :: insert_sorted x l'
  end.

Definition sorted (l : list str) : list str := fold_right insert_sorted [] l.

(* ----------------------------------------------------------------- *)
(** *** Effects: the prompt, the search service and the file system *)

Inductive exn :=
| RuntimeError (msg : str)
| ValueError
| IndexError
| EOFError
| PermissionError
| FileExistsError
| OSError
| BdbQuit.

Inductive result (A : Type) :=
| Ok (a : A)
| Raise (e : exn).
Arguments Ok {A} a.
Arguments Raise {A} e.

Inductive fs_op :=
| Mkdir (d : Path)
| Rename (src dst : Path).

(** What the run cannot see in advance: the answer of the search service
    to a query; whether a filesystem operation fails given the ones done
    before it; what [sys.breakpointhook] does; and the value of
    [sys.get_int_max_str_digits()].

    [breakpoint()] calls the hook, which is chosen outside the program
    (the variable PYTHONBREAKPOINT; by default [pdb.set_trace]). A
    debugger reads its commands from the same standard input as the
    prompt: given the lines that follow the one just read, the hook tells
    how many of them the session reads, and whether the session ends by
    resuming the run or with an exception, such as the [bdb.BdbQuit] of a
    [q] or of the end of the input. A session is taken to look at the
    program only and to be over when the run resumes: one that assigns to
    the variables of [ask_user], or that steps through it and so takes
    the input up again later, is not described.

    The limit on the digits of [int(str)] is 0 where there is none, as in
    an interpreter older than the limit. *)
Record world := {
  tmdb_search : str -> list SearchResult;
  fs_error : list fs_op -> fs_op -> option exn;
  breakpointhook : list str -> nat * result unit;
  int_max_str_digits : nat
}.

(** What the run changes: the lines still to be typed at the prompt, the
    filesystem operations done so far and the queries sent to the search
    service so far (latest first). *)
Record state := {
  stdin : list str;
  fs_log : list fs_op;
  queries : list str
}.

Definition M (A : Type) : Type := state -> result A * state.

Definition set_stdin (lines : list str) (st : state) : state :=
  {| stdin := lines; fs_log := fs_log st; queries := queries st |}.

Definition log_fs (op : fs_op) (st : state) : state :=
  {| stdin := stdin st; fs_log := op :: fs_log st; queries := queries st |}.

Definition log_query (query : str) (st : state) : state :=
  {| stdin := stdin st; fs_log := fs_log st; queries := query :: queries st |}.

Definition ret {A} (a : A) : M A := fun st => (Ok a, st).
Definition raise {A} (e : exn) : M A := fun st => (Raise e, st).
Definition bind {A B} (m : M A) (f : A -> M B) : M B :=
  fun st =>
    match m st with
    | (Ok a, st') => f a st'
    | (Raise e, st') => (Raise e, st')
    end.

Notation "x <- m ;; f" := (bind m (fun x => f))
  (at level 61, m at next level, right associativity).
Notation "m ;;; f" := (bind m (fun _ => f))
  (at level 61, right associativity).

(** [try: m except PermissionError: h]. *)
Definition except_PermissionError {A} (m : M A) (h : M A) : M A :=
  fun st =>
    match m st with
    | (Raise PermissionError, st') => h st'
    | r => r
    end.

(** One filesystem call: it fails as the world says, or is logged. *)
Definition fs_do (w : world) (op : fs_op) : M unit :=
  fun st =>
    match fs_error w (fs_log st) op with
    | Some e => (Raise e, st)
    | None => (Ok tt, log_fs op st)
    end.

(** [int(val)] for a [str]: white space around, an optional sign, decimal
    digits of any script with single underscores between them. A text
    with a non-ASCII character is first brought to ASCII (spaces to a
    blank, digits to their value, anything else to a question mark).
    A text of more than [max_str_digits] digits is refused with
    [ValueError] as well, when that limit is set and the text has more
    than 640 digits ([None] stands for the [ValueError]). *)
Definition to_ascii_for_int (s : str) : str :=
  if forallb (fun c => (c <? 128)%N) s then s
  else map (fun c =>
              if (c <? 127)%N then c
              else if Py_UNICODE_ISSPACE c then 32%N
              else match Py_UNICODE_TODECIMAL c with
                   | Some d => (48 + d)%N
                   | None => 63%N
                   end) s.

Definition Py_ISSPACE (c : char) : bool :=
  ((9 <=? c) && (c <=? 13) || (c =? 32))%N.

(** Digits with single underscores between them, most significant first;
    [prev] tells whether the previous character was a digit. *)
Fixpoint digits_value (acc : Z) (prev : bool) (s : str) : option Z :=
  match s with
  | [] => if prev then Some acc else None
  | c :: t =>
      if ascii_digit c then digits_value (10 * acc + Z.of_N (c - 48)) true t
      else if (c =? 95)%N then
        if prev then
          match t with
          | d :: _ => if ascii_digit d then digits_value acc false t else None
          | [] => None
          end
        else None
      else None
  end.

Definition MAX_STR_DIGITS_THRESHOLD : nat := 640.

Definition long_from_string (max_str_digits : nat) (s : str) : option Z :=
  let digits := length (filter ascii_digit s) in
  if (MAX_STR_DIGITS_THRESHOLD <? digits) && (0 <? max_str_digits)
     && (max_str_digits <? digits)
  then None
  else digits_value 0 false s.

Definition int_of_str (max_str_digits : nat) (val : str) : option Z :=
  let s := to_ascii_for_int val in
  let s := drop_while Py_ISSPACE s in
  let s := rev (drop_while Py_ISSPACE (rev s)) in
  match s with
  | c :: t =>
      if (c =? 45)%N then option_map Z.opp (long_from_string max_str_digits t)
      else if (c =? 43)%N then long_from_string max_str_digits t
      else long_from_string max_str_digits s
  | [] => None
  end.

(** The [while True] loop of [ask_user] over the lines of the standard
    input, one line per turn of the prompt. [skip] counts the lines that
    a debugger session has read and that the prompt therefore never sees.

    At a line whose lowercase form is [b] the hook of [breakpoint()] runs
    first, on the lines that follow: its exception leaves the function,
    and when it returns the line goes on to [int] like any other. The
    branch comparing the integer with the empty text is never taken. *)
Fixpoint ask_loop (w : world) (results : list SearchResult) (skip : nat)
    (lines : list str) : result SearchResult * list str :=
  match lines with
  | [] => (Raise EOFError, [])
  | val :: lines' =>
      match skip with
      | S skip' => ask_loop w results skip' lines'
      | O =>
          let (read, session) :=
            if str_eqb (lower val) (str_of "b") then breakpointhook w lines'
            else (0, Ok tt) in
          match session with
          | Raise e => (Raise e, skipn read lines')
          | Ok _ =>
              match (if str_eqb val [] then Some 1%Z
                     else int_of_str (int_max_str_digits w) val) with
              | None => ask_loop w results read lines'
              | Some v =>
                  if (v =? 0)%Z
                  then (Raise (RuntimeError (str_of "User aborted")),
                        skipn read lines')
                  else if (v <? 0)%Z || (Z.of_nat (length results) <? v)%Z
                  then ask_loop w results read lines'
                  else match nth_error results (Z.to_nat (v - 1)) with
                       | Some selection => (Ok selection, skipn read lines')
                       | None => (Raise IndexError, skipn read lines')
                       end
              end
          end
      end
  end.

Definition ask_user (w : world) (results : list SearchResult)
    (original_file : str) (confirm : bool) : M SearchResult :=
  fun st =>
    match results with
    | [selection] =>
        if negb confirm then (Ok selection, st)
        else let (r, lines) := ask_loop w results 0 (stdin st) in
             (r, set_stdin lines st)
    | _ =>
        let (r, lines) := ask_loop w results 0 (stdin st) in
        (r, set_stdin lines st)
    end.

(** [search]: the query goes to the service; [None] when it finds
    nothing. *)
Definition search (w : world) (query original_file : str)
  : M (option (list SearchResult)) :=
  fun st =>
    match tmdb_search w query with
    | [] => (Ok None, log_query query st)
    | results => (Ok (Some results), log_query query st)
    end.

Definition create_new_filepath (fp : Path) (result : SearchResult) : M Path :=
  let original_ext := suffix fp in
  let new_fn := make_filename result in
  match with_name fp (new_fn ++ original_ext) with
  | Some new_fp => ret new_fp
  | None => raise ValueError
  end.

Definition move_to_folder (w : world) (fp : Path) (dry_run : bool)
  : M (option Path) :=
  let folder_name := stem fp in
  if negb (str_eqb (name (parent fp)) folder_name) then
    let new_path := truediv (truediv (parent fp) folder_name) (name fp) in
    (if negb dry_run
     then fs_do w (Mkdir (parent new_path)) ;;; fs_do w (Rename fp new_path)
     else ret tt) ;;;
    ret (Some new_path)
  else ret None.

(** The two counters of [loop_path]. *)
Record counters := { num_changed : nat; num_files_moved : nat }.

(** The body of the inner [for] loop of [loop_path]. *)
Definition loop_body (w : world) (confirm dry_run : bool)
    (root : str) (file : str) (c : counters) : M counters :=
  let fp := truediv (PurePosixPath root) file in
  if negb (existsb (str_eqb (lower (suffix fp))) VIDEO_EXT) then ret c
  else if looksCanonical (stem fp) then
    new_folder <- move_to_folder w fp dry_run ;;
    match new_folder with
    | Some _ => ret {| num_changed := num_changed c;
                       num_files_moved := num_files_moved c + 1 |}
    | None => ret c
    end
  else
    let query := get_search_term_from_fn (stem fp) in
    results <- search w query (name fp) ;;
    match results with
    | Some results =>
        selection <- ask_user w results file confirm ;;
        new_fp <- create_new_filepath fp selection ;;
        let c := {| num_changed := num_changed c + 1;
                    num_files_moved := num_files_moved c |} in
        (if negb dry_run
         then except_PermissionError
                (fs_do w (Rename fp new_fp) ;;;
                 _ <- move_to_folder w new_fp false ;; ret tt)
                (ret tt)
         else ret tt) ;;;
        ret c
    | None => ret c
    end.

Fixpoint for_each {A S : Type} (l : list A) (body : A -> S -> M S) (s : S) : M S :=
  match l with
  | [] => ret s
  | x :: l' => s' <- body x s ;; for_each l' body s'
  end.

(** [loop_path] over what [os.walk(path)] yields: the directories with
    their files. The value returned is what the two closing log lines
    report. *)
Definition loop_path (w : world) (walk : list (str * list str))
    (confirm dry_run : bool) : M counters :=
  for_each walk
    (fun entry c =>
       for_each (sorted (snd entry)) (loop_body w confirm dry_run (fst entry)) c)
    {| num_changed := 0; num_files_moved := 0 |}.

(* ================================================================= *)
(** ** Properties the statements below are about *)

Definition no_newline (s : str) : bool :=
  forallb (fun c => negb (N.eqb c NEWLINE)) s.

Definition decimal_digits (s : str) : bool :=
  forallb Py_UNICODE_ISDECIMAL s.

(** [stem] is [<title> (<y>) {t<tag>db-<d>}]. *)
Definition tagged_stem (title y : str) (tag : char) (d : str) : str :=
  title ++ str_of " (" ++ y ++ str_of ") {t" ++ [tag] ++ str_of "db-" ++ d ++ str_of "}".

(** The shape as the specification words it: one or more of anything, a
    blank, four digits in parentheses, a blank and the tmdb tag with one
    or more digits. *)
Definition spec_canonical_shape (stem : str) : Prop :=
  exists title y d,
    title <> [] /\
    length y = 4 /\ decimal_digits y = true /\
    d <> [] /\ decimal_digits d = true /\
    stem = tagged_stem title y (ch "m") d.

(** The shape the pattern has: the title holds no newline, and the tag is
    tmdb or tvdb. *)
Definition canonical_shape (stem : str) : Prop :=
  exists title y tag d,
    title <> [] /\ no_newline title = true /\
    length y = 4 /\ decimal_digits y = true /\
    (tag = ch "m" \/ tag = ch "v") /\
    d <> [] /\ decimal_digits d = true /\
    stem = tagged_stem title y tag d.

(** A stem with its year in square brackets. *)
Definition bracketed_stem (title y d : str) : str :=
  title ++ str_of " [" ++ y ++ str_of "] {tmdb-" ++ d ++ str_of "}".


(** A four-digit year in square brackets or in parentheses stands at the
    head of [s]. *)
Definition starts_with_year (s : str) : bool :=
  match s with
  | o :: d1 :: d2 :: d3 :: d4 :: c :: _ =>
      (N.eqb o (ch "[") && N.eqb c (ch "]") || N.eqb o (ch "(") && N.eqb c (ch ")"))
      && decimal_digits [d1; d2; d3; d4]
  | _ => false
  end.

(** Every bracketed year deleted, reading from the left and resuming
    behind each one; [skip] characters of one being deleted remain. *)
Fixpoint remove_years_from (skip : nat) (s : str) : str :=
  match s with
  | [] => []
  | c :: t =>
      match skip with
      | S k => remove_years_from k t
      | O => if starts_with_year s then remove_years_from 5 t
             else c :: remove_years_from 0 t
      end
  end.

Definition remove_years (s : str) : str := remove_years_from 0 s.

(** The same as a relation: [out] is [data] without its bracketed years. *)
Inductive YearsRemoved : str -> str -> Prop :=
| yr_nil : YearsRemoved [] []
| yr_year y t out :
    length y = 6 -> starts_with_year y = true ->
    YearsRemoved t out -> YearsRemoved (y ++ t) out
| yr_keep c t out :
    starts_with_year (c :: t) = false ->
    YearsRemoved t out -> YearsRemoved (c :: t) (c :: out).

(** The first bracketed year deleted, the later ones left in place, as
    the specification words the first stage. *)
Fixpoint remove_first_year (s : str) : str :=
  match s with
  | [] => []
  | c :: t => if starts_with_year s then skipn 5 t else c :: remove_first_year t
  end.

Definition spec_strip_first_year (data : str) : str :=
  strip (remove_first_year data).

Definition HYPHEN : char := ch "-".

Definition count_char (c : char) (s : str) : nat :=
  length (filter (N.eqb c) s).

(** The second stage as the specification words it: the text behind the
    first blank-hyphen-blank separator, trimmed, when that text holds
    such a separator again; the input otherwise. *)
Fixpoint after_separator (s : str) : option str :=
  match s with
  | [] => None
  | c :: t =>
      match s with
      | a :: b :: c' :: rem =>
          if N.eqb a 32 && N.eqb b HYPHEN && N.eqb c' 32 then Some rem
          else after_separator t
      | _ => after_separator t
      end
  end.

Definition spec_strip_leading_info (data : str) : str :=
  match after_separator data with
  | Some rem =>
      match after_separator rem with
      | Some _ => strip rem
      | None => data
      end
  | None => data
  end.

(** Every character of [s] is one of [cs]. *)
Definition only_chars (cs s : str) : bool := forallb (fun c => char_in c cs) s.

(** [m] leaves the part [f] of the state as it was, whatever it returns. *)
Definition preserves {X A : Type} (f : state -> X) (m : M A) : Prop :=
  forall st, f (snd (m st)) = f st.

(** What the parser of paths guarantees of every component: it is not
    empty, not a single dot, and holds no slash. *)
Definition wf_comp (x : str) : bool :=
  negb (str_eqb x []) && negb (str_eqb x (str_of ".")) && negb (char_in SEP x).

Definition wf_path (p : Path) : bool := forallb wf_comp (comps p).

(** [fp] moved into a folder named after its stem. *)
Definition in_own_folder (fp : Path) : Path :=
  {| root := root fp; comps := removelast (comps fp) ++ [stem fp; name fp] |}.

(** The text behind the first [c] of [s]; empty when [s] holds no [c]. *)
Fixpoint after_first (c : char) (s : str) : str :=
  match s with
  | [] => []
  | x :: t => if N.eqb x c then t else after_first c t
  end.

Definition DOT : char := ch ".".

(** [fp] under the name made for [result], with its own suffix. *)
Definition renamed (fp : Path) (result : SearchResult) : Path :=
  {| root := root fp;
     comps := removelast (comps fp) ++ [make_filename result ++ suffix fp] |}.

(** The suffix of [fp] is one of [VIDEO_EXT], whatever its case. *)
Definition is_video (fp : Path) : bool :=
  existsb (str_eqb (lower (suffix fp))) VIDEO_EXT.

(** The file needs nothing: it is no video file, or it has a canonical
    name and lies in a folder named as its stem. *)
Definition organised (root file : str) : bool :=
  let fp := truediv (PurePosixPath root) file in
  negb (is_video fp)
  || looksCanonical (stem fp) && str_eqb (name (parent fp)) (stem fp).

(** The files met on a walk. *)
Definition files_of (walk : list (str * list str)) : list str :=
  flat_map snd walk.

(* ----------------------------------------------------------------- *)
(** *** [SearchResult.__init__] *)

(** A value of the reply of the search service, as Python reads JSON:
    [None], a truth value, an integer, a number with a fraction or an
    exponent (its value plays no part here), a text, a list, or a
    dictionary, which is a list of keys with their values, the first
    entry of a key being the one that counts. *)
#[warnings="-register-all"]
Inductive value :=
| VNone
| VBool (b : bool)
| VInt (z : Z)
| VFloat
| VStr (s : str)
| VList (l : list value)
| VDict (d : list (str * value)).

Definition dict := list (str * value).

(** [data[key]]; [None] stands for its [KeyError]. *)
Fixpoint getitem (data : dict) (key : str) : option value :=
  match data with
  | [] => None
  | (k, v) :: data' => if str_eqb k key then Some v else getitem data' key
  end.

(** The object the constructor fills in. Nothing checks what the title
    and the identifier are: they are stored as they come. *)
Record SearchResult_object := {
  self_raw : dict;
  self_title : value;
  self_id_ : value;
  self_release : date
}.

(** What the constructor ends with: the object, the [KeyError] of a key
    that is missing, or the [TypeError] of [date.fromisoformat]. *)
Inductive constructed :=
| Constructed (self : SearchResult_object)
| KeyError (key : str)
| TypeError.

(** The constructor. [fromisoformat] is [date.fromisoformat] on a text,
    [None] standing for its [ValueError]; on anything but a text it
    raises [TypeError], which the constructor does not catch. A release
    date that is missing, or a text that is refused, becomes the first of
    January 1970. *)
Definition SearchResult_init (fromisoformat : str -> option date)
    (data : dict) : constructed :=
  match getitem data (str_of "title") with
  | None => KeyError (str_of "title")
  | Some title =>
      match getitem data (str_of "id") with
      | None => KeyError (str_of "id")
      | Some id_ =>
          match getitem data (str_of "release_date") with
          | None =>
              Constructed {| self_raw := data; self_title := title;
                             self_id_ := id_; self_release := Date 1970 1 1 |}
          | Some (VStr s) =>
              match fromisoformat s with
              | Some d =>
                  Constructed {| self_raw := data; self_title := title;
                                 self_id_ := id_; self_release := d |}
              | None =>
                  Constructed {| self_raw := data; self_title := title;
                                 self_id_ := id_; self_release := Date 1970 1 1 |}
              end
          | Some _ => TypeError
          end
      end
  end.

(** The object as the rest of the program takes it, a [SearchResult] with
    a text for a title and an integer for an identifier; there is none
    when the reply held something else under these keys. *)
Definition typed (self : SearchResult_object) : option SearchResult :=
  match self_title self, self_id_ self with
  | VStr t, VInt i => Some {| title := t; id_ := i; release := self_release self |}
  | _, _ => None
  end.

(** A reply with the title [Who?], the identifier 42 and a release date,
    and a [date.fromisoformat] that knows one date. *)
Definition sample_reply (release_date : value) : dict :=
  [ (str_of "title", VStr (str_of "Who?")); (str_of "id", VInt 42);
    (str_of "release_date", release_date) ].

Definition sample_fromisoformat (s : str) : option date :=
  if str_eqb s (str_of "2031-03-03") then Some (Date 2031 3 3) else None.

(* ----------------------------------------------------------------- *)
(** *** The run at the prompt *)

(** The run of [loop_path] over [walk], started in [st], comes to ask the
    user about [file] with the results [results], in the state [st']:
    the directories before the one of [file], and the files sorted before
    [file] in it, went through without an exception; [file] is a video
    file without a canonical name; and its query, which has just been
    sent, had these results. *)
Definition asks (w : world) (confirm dry_run : bool) (st : state)
    (walk : list (str * list str)) (file : str)
    (results : list SearchResult) (st' : state) : Prop :=
  exists before root files after pre post c1 st1 c2 st2,
    walk = before ++ (root, files) :: after /\
    sorted files = pre ++ file :: post /\
    loop_path w before confirm dry_run st = (Ok c1, st1) /\
    for_each pre (loop_body w confirm dry_run root) c1 st1 = (Ok c2, st2) /\
    is_video (truediv (PurePosixPath root) file) = true /\
    looksCanonical (stem (truediv (PurePosixPath root) file)) = false /\
    tmdb_search w (get_search_term_from_fn
                     (stem (truediv (PurePosixPath root) file))) = results /\
    st' = log_query (get_search_term_from_fn
                       (stem (truediv (PurePosixPath root) file))) st2.

(** Two states with the same lines to read and the same queries sent. *)
Definition same_dialogue (st1 st2 : state) : Prop :=
  stdin st1 = stdin st2 /\ queries st1 = queries st2.

(** Two computations that, from states with the same dialogue, end alike
    and leave states with the same dialogue. *)
Definition agree {A : Type} (m1 m2 : M A) : Prop :=
  forall st1 st2, same_dialogue st1 st2 ->
    fst (m1 st1) = fst (m2 st2) /\
    same_dialogue (snd (m1 st1)) (snd (m2 st2)).

(** The counters after one more move. *)
Definition one_more_moved (c : counters) : counters :=
  {| num_changed := num_changed c; num_files_moved := num_files_moved c + 1 |}.

(** [breakpoint()] switched off (PYTHONBREAKPOINT=0): the hook returns
    at once and reads nothing. *)
Definition no_debugger (lines : list str) : nat * result unit := (0, Ok tt).

(** A world where the service finds nothing and no operation fails, and
    a state with nothing typed and nothing done. In this world and the
    ones after it the debugger is switched off and [int] has its usual
    limit of 4300 digits. *)
Definition no_world : world :=
  {| tmdb_search := fun _ => []; fs_error := fun _ _ => None;
     breakpointhook := no_debugger; int_max_str_digits := 4300 |}.

Definition idle : state := {| stdin := []; fs_log := []; queries := [] |}.

(** The search service of the scenario of the specification: one result,
    the film [foo] of 2031 with identifier 123. *)
Definition one_result_world : world :=
  {| tmdb_search := fun _ =>
       [ {| title := str_of "foo"; id_ := 123; release := Date 2031 3 3 |} ];
     fs_error := fun _ _ => None;
     breakpointhook := no_debugger; int_max_str_digits := 4300 |}.

(** Worlds where making a directory fails because it exists, and where
    renaming is not permitted. *)
Definition folder_exists_world : world :=
  {| tmdb_search := fun _ => [];
     fs_error := fun _ op =>
       match op with Mkdir _ => Some FileExistsError | Rename _ _ => None end;
     breakpointhook := no_debugger; int_max_str_digits := 4300 |}.

Definition rename_denied_world : world :=
  {| tmdb_search := fun _ =>
       [ {| title := str_of "foo"; id_ := 123; release := Date 2031 3 3 |} ];
     fs_error := fun _ op =>
       match op with Mkdir _ => None | Rename _ _ => Some PermissionError end;
     breakpointhook := no_debugger; int_max_str_digits := 4300 |}.

(** A world with one result for every query, where making a directory
    and renaming fail as told. *)
Definition fs_world (on_mkdir on_rename : option exn) : world :=
  {| tmdb_search := fun _ =>
       [ {| title := str_of "foo"; id_ := 123; release := Date 2031 3 3 |} ];
     fs_error := fun _ op =>
       match op with Mkdir _ => on_mkdir | Rename _ _ => on_rename end;
     breakpointhook := no_debugger; int_max_str_digits := 4300 |}.

(** The counters after one more change. *)
Definition one_more_changed (c : counters) : counters :=
  {| num_changed := num_changed c + 1; num_files_moved := num_files_moved c |}.

(** A search service with two results for every query. *)
Definition two_results : list SearchResult :=
  [ {| title := str_of "foo"; id_ := 123; release := Date 2031 3 3 |};
    {| title := str_of "bar"; id_ := 7; release := Date 1999 1 1 |} ].

Definition two_results_world : world :=
  {| tmdb_search := fun _ => two_results; fs_error := fun _ _ => None;
     breakpointhook := no_debugger; int_max_str_digits := 4300 |}.

(** Two debugger sessions. In the first, nothing that is typed resumes
    the run: the debugger reads the lines that are left, meets the end of
    the input and quits with [bdb.BdbQuit]; this is what pdb, the hook by
    default, does after the lines [b], [2]. In the second the one line
    typed to the debugger resumes the run, as the command [c] of pdb
    does; with no line left it quits as the first. *)
Definition debugger_quits (lines : list str) : nat * result unit :=
  (length lines, Raise BdbQuit).

Definition debugger_continues (lines : list str) : nat * result unit :=
  match lines with
  | [] => (0, Raise BdbQuit)
  | _ :: _ => (1, Ok tt)
  end.

(** The world of two results with a debugger of either kind. *)
Definition debugger_world (hook : list str -> nat * result unit) : world :=
  {| tmdb_search := fun _ => two_results; fs_error := fun _ _ => None;
     breakpointhook := hook; int_max_str_digits := 4300 |}.

(** A walk of three directories, and the state of a real run over it in
    the world of two results when, the first result having been chosen
    for [w.avi], it asks about [x.avi] with [lines] left to read:
    [w.avi] has been renamed and moved into its folder, and the two
    queries have been sent. *)
Definition three_directories : list (str * list str) :=
  [ (str_of "/k", [str_of "a.txt"]);
    (str_of "/m", [str_of "x.avi"; str_of "w.avi"]);
    (str_of "/n", [str_of "y.avi"]) ].

Definition asked_about_x (lines : list str) : state :=
  {| stdin := lines;
     fs_log :=
       [ Rename (PurePosixPath (str_of "/m/foo (2031) {tmdb-123}.avi"))
                (PurePosixPath
                   (str_of "/m/foo (2031) {tmdb-123}/foo (2031) {tmdb-123}.avi"));
         Mkdir (PurePosixPath (str_of "/m/foo (2031) {tmdb-123}"));
         Rename (PurePosixPath (str_of "/m/w.avi"))
                (PurePosixPath (str_of "/m/foo (2031) {tmdb-123}.avi")) ];
     queries := [str_of "x"; str_of "w"] |}.

(* ================================================================= *)
(** ** The cases of [test_movie_tmdb.py] *)

Example test_RE_GOOD_FN :
  map looksCanonical
    [str_of "foo.bar"; str_of "a [1234] {tmdb-123}"; str_of "a [134] {tmdb-}";
     str_of "a (1234) {tmdb-123}"; str_of "Airplane! (1980) {tmdb-813}";
     str_of "New Airplane! (1980) {tmdb-813}"]
  = [false; false; false; true; true; true].
Proof. vm_compute. reflexivity. Qed.

Example test_make_filename :
  map make_filename
    [ {| title := str_of "foo"; id_ := 123; release := Date 2031 3 3 |};
      {| title := str_of "?"; id_ := 123; release := Date 2031 3 3 |};
      {| title := str_of "Guess Who?"; id_ := 123; release := Date 2031 3 3 |} ]
  = [str_of "foo (2031) {tmdb-123}"; str_of "FIXME (2031) {tmdb-123}";
     str_of "Guess Who (2031) {tmdb-123}"].
Proof. vm_compute. reflexivity. Qed.

Example test_strip_year :
  map _strip_year
    [str_of "foo [1000]"; str_of "bar (9999)"; str_of "foobarbaz (1235]";
     str_of "a [1234)"; str_of "abcd [123]"; str_of "(19(2000)99)"]
  = [str_of "foo"; str_of "bar"; str_of "foobarbaz (1235]";
     str_of "a [1234)"; str_of "abcd [123]"; str_of "(1999)"].
Proof. vm_compute. reflexivity. Qed.

Example test_strip_leading_info :
  map _strip_leading_info
    [str_of "hello"; str_of "group - 11 - title"; str_of "foo - bar";
     str_of "a-b - c - d"; str_of "x--"]
  = [str_of "hello"; str_of "11 - title"; str_of "foo - bar";
     str_of "b - c - d"; str_of "-"].
Proof. vm_compute. reflexivity. Qed.

Example test_strip_leading_number :
  map _strip_leading_number [str_of "11 - title"; str_of "04 - foo"; str_of "bar"]
  = [str_of "title"; str_of "foo"; str_of "bar"].
Proof. vm_compute. reflexivity. Qed.

Example test_get_search_term_from_fn :
  map get_search_term_from_fn
    [str_of "Airplane [1980]";
     str_of "01 Harry Potter and the Sorcerers Stone [2001]";
     str_of "Youth in Revolt";
     str_of "Pixar Classic - 01 - Toy Story";
     str_of "Pixar Classic - 10 - Up (2009)";
     str_of "Some.Long.Title.foo.bar.XXYYZZ.baz"]
  = [str_of "Airplane";
     str_of "Harry Potter and the Sorcerers Stone";
     str_of "Youth in Revolt";
     str_of "Toy Story";
     str_of "Up";
     str_of "Some Long"].
Proof. vm_compute. reflexivity. Qed.

Example test_create_new_filepath :
  create_new_filepath (PurePosixPath (str_of "/foo/bar/baz.avi"))
    {| title := str_of "foo"; id_ := 123; release := Date 2031 3 3 |} idle
  = (Ok (PurePosixPath (str_of "/foo/bar/foo (2031) {tmdb-123}.avi")), idle).
Proof. vm_compute. reflexivity. Qed.

Example test_move_to_folder :
  map (fun s => fst (move_to_folder no_world (PurePosixPath (str_of s)) true idle))
    [ "/foo/bar.avi"%string;
      "/foo/bar (1234) {tmdb-1234}.avi"%string;
      "/m/Monsters, Inc. (2001) {tmdb-585}/Monsters, Inc. (2001) {tmdb-585}.avi"%string ]
  = [ Ok (Some (PurePosixPath (str_of "/foo/bar/bar.avi")));
      Ok (Some (PurePosixPath
                  (str_of "/foo/bar (1234) {tmdb-1234}/bar (1234) {tmdb-1234}.avi")));
      Ok None ].
Proof. vm_compute. reflexivity. Qed.

Example test_int_of_str :
  map (fun s => int_of_str 4300 (str_of s))
    [ "0"; " 1 "; "+1"; "-0"; "1_0"; "1__0"; "_1"; "1_"; "0x1"; ""; " "; "+";
      "- 1"; "00"; "b"; "1.0"; "42" ]%string
  = [ Some 0; Some 1; Some 1; Some 0; Some 10; None; None; None; None; None;
      None; None; None; Some 0; None; None; Some 42 ]%Z.
Proof. vm_compute. reflexivity. Qed.

(** The limit on the digits: with a limit of 640, as many zeros read as
    0 and one more is refused, unless there is no limit; the sign and
    the blanks are not counted. *)
Example test_int_of_str_limit :
  int_of_str 640 (repeat 48%N 640) = Some 0%Z /\
  int_of_str 640 (repeat 48%N 641) = None /\
  int_of_str 0 (repeat 48%N 641) = Some 0%Z /\
  int_of_str 640 (32%N :: 45%N :: repeat 48%N 640 ++ [32%N]) = Some 0%Z.
Proof. vm_compute. repeat split; reflexivity. Qed.

(* ================================================================= *)
(** ** The matcher against what a pattern may match *)

Module ReFacts.
Import Re.

Lemma star_greedy_sound p : forall l n k x,
  star_greedy p n l k = Some x ->
  exists w t, l = w ++ t /\ forallb p w = true /\ k (n + length w) t = Some x.
Proof.
  induction l as [|c l IH]; simpl; intros n k x H.
  - exists [], []. rewrite Nat.add_0_r. auto.
  - destruct (p c) eqn:Hc.
    + destruct (star_greedy p (S n) l k) eqn:Hs.
      * injection H as <-. apply IH in Hs. destruct Hs as (w & t & -> & Hw & Hk).
        exists (c :: w), t. simpl. rewrite Hc, Hw, Nat.add_succ_r. auto.
      * exists [], (c :: l). rewrite Nat.add_0_r. auto.
    + exists [], (c :: l). rewrite Nat.add_0_r. auto.
Qed.

Lemma star_greedy_complete p : forall w t n k,
  forallb p w = true -> k (n + length w) t <> None ->
  star_greedy p n (w ++ t) k <> None.
Proof.
  induction w as [|c w IH]; simpl; intros t n k Hw Hk.
  - rewrite Nat.add_0_r in Hk.
    destruct t as [|c t]; simpl; auto.
    destruct (p c); auto.
    destruct (star_greedy p (S n) t k); [discriminate | auto].
  - apply andb_prop in Hw. destruct Hw as [Hc Hw]. rewrite Hc.
    rewrite Nat.add_succ_r in Hk.
    specialize (IH t (S n) k Hw Hk).
    destruct (star_greedy p (S n) (w ++ t) k); [discriminate | auto].
Qed.

Lemma star_lazy_sound p : forall l n k x,
  star_lazy p n l k = Some x ->
  exists w t, l = w ++ t /\ forallb p w = true /\ k (n + length w) t = Some x.
Proof.
  induction l as [|c l IH]; simpl; intros n k x H.
  - destruct (k n []) eqn:Hk; [|discriminate].
    exists [], []. rewrite Nat.add_0_r. simpl. rewrite Hk. auto.
  - destruct (k n (c :: l)) eqn:Hk.
    + exists [], (c :: l). rewrite Nat.add_0_r. simpl. rewrite Hk. auto.
    + destruct (p c) eqn:Hc; [|discriminate].
      apply IH in H. destruct H as (w & t & -> & Hw & Hk').
      exists (c :: w), t. simpl. rewrite Hc, Hw, Nat.add_succ_r. auto.
Qed.

Lemma star_lazy_complete p : forall w t n k,
  forallb p w = true -> k (n + length w) t <> None ->
  star_lazy p n (w ++ t) k <> None.
Proof.
  induction w as [|c w IH]; simpl; intros t n k Hw Hk.
  - rewrite Nat.add_0_r in Hk.
    destruct t as [|c t]; simpl; destruct (k n _); auto; discriminate.
  - apply andb_prop in Hw. destruct Hw as [Hc Hw]. rewrite Hc.
    rewrite Nat.add_succ_r in Hk.
    destruct (k n (c :: w ++ t)); [discriminate|].
    apply IH; auto.
Qed.

(** Lazy repetition walks over a prefix at no point of which the
    continuation succeeds. *)
Lemma star_lazy_skip p : forall pre l n k,
  forallb p pre = true ->
  (forall i, i < length pre -> k (n + i) (skipn i pre ++ l) = None) ->
  star_lazy p n (pre ++ l) k = star_lazy p (n + length pre) l k.
Proof.
  induction pre as [|c pre IH]; simpl; intros l n k Hp Hk.
  - rewrite Nat.add_0_r. reflexivity.
  - apply andb_prop in Hp. destruct Hp as [Hc Hp].
    assert (H0 := Hk 0 (Nat.lt_0_succ _)). simpl in H0.
    rewrite Nat.add_0_r in H0. rewrite H0, Hc.
    rewrite IH; auto.
    + rewrite Nat.add_succ_r. reflexivity.
    + intros i Hi. specialize (Hk (S i)). simpl in Hk.
      rewrite Nat.add_succ_r in Hk. apply Hk. lia.
Qed.

(** Whatever the matcher returns was reached along a path the pattern
    allows. *)
Theorem run_sound : forall r s k x,
  run r s k = Some x -> exists s', Matches r s s' /\ k s' = Some x.
Proof.
  induction r as [|c|a IHa b IHb|a IHa b IHb|g c|n a IHa| |]; simpl; intros s k x H.
  - eauto.
  - destruct (rest s) as [|y t] eqn:Hr; [discriminate|].
    destruct (test c y) eqn:Hc; [|discriminate].
    eexists; split; [exists y, t; eauto | exact H].
  - apply IHa in H. destruct H as (m & Ha & H).
    apply IHb in H. destruct H as (s' & Hb & H). eauto.
  - destruct (run a s k) eqn:Hra.
    + injection H as <-. apply IHa in Hra. destruct Hra as (s' & ? & ?). eauto.
    + apply IHb in H. destruct H as (s' & ? & ?). eauto.
  - destruct g.
    + apply star_greedy_sound in H. destruct H as (w & t & Hr & Hw & H).
      eexists; split; [exists w, t; eauto | exact H].
    + apply star_lazy_sound in H. destruct H as (w & t & Hr & Hw & H).
      eexists; split; [exists w, t; eauto | exact H].
  - apply IHa in H. destruct H as (m & Ha & H). eauto.
  - destruct (Nat.eqb (pos s) 0) eqn:Hp; [|discriminate].
    apply Nat.eqb_eq in Hp. eauto.
  - destruct (rest s) as [|c [|d t]] eqn:Hr.
    + eauto.
    + destruct (N.eqb c NEWLINE) eqn:Hc; [|discriminate].
      apply N.eqb_eq in Hc. subst c. eauto.
    + discriminate.
Qed.

(** A path the pattern allows and the continuation accepts makes the
    matcher return a match (that one or one of higher priority). *)
Theorem run_complete : forall r s s' k,
  Matches r s s' -> k s' <> None -> run r s k <> None.
Proof.
  induction r as [|c|a IHa b IHb|a IHa b IHb|g c|n a IHa| |]; simpl; intros s s' k HM Hk.
  - subst. exact Hk.
  - destruct HM as (x & t & Hr & Hc & ->). rewrite Hr, Hc. exact Hk.
  - destruct HM as (m & Ha & Hb). eapply IHa; eauto.
  - destruct HM as [Ha | Hb].
    + specialize (IHa _ _ _ Ha Hk). destruct (run a s k); [discriminate | tauto].
    + destruct (run a s k); [discriminate | eauto].
  - destruct HM as (w & t & Hr & Hw & ->). rewrite Hr.
    destruct g.
    + apply star_greedy_complete; auto.
    + apply star_lazy_complete; auto.
  - destruct HM as (m & Ha & ->). eapply IHa; eauto.
  - destruct HM as (Hp & ->). rewrite Hp. exact Hk.
  - destruct HM as ([Hr | Hr] & ->); rewrite Hr; auto.
Qed.

(** A path consumes a prefix of the text ahead and advances the position
    by its length. *)
Lemma Matches_adv : forall r s s',
  Matches r s s' ->
  exists w, rest s = w ++ rest s' /\ pos s' = pos s + length w.
Proof.
  induction r as [|c|a IHa b IHb|a IHa b IHb|g c|n a IHa| |]; simpl; intros s s' HM.
  - subst. exists []. auto.
  - destruct HM as (x & t & Hr & Hc & ->). exists [x]. simpl. split; auto. lia.
  - destruct HM as (m & Ha & Hb).
    apply IHa in Ha. apply IHb in Hb.
    destruct Ha as (w1 & E1 & P1), Hb as (w2 & E2 & P2).
    exists (w1 ++ w2). rewrite <- app_assoc, <- E2, length_app. split; auto. lia.
  - destruct HM; eauto.
  - destruct HM as (w & t & Hr & Hw & ->). exists w. auto.
  - destruct HM as (m & Ha & ->). simpl. eauto.
  - destruct HM as (_ & ->). exists []. auto.
  - destruct HM as (_ & ->). exists []. auto.
Qed.

Lemma consumed_adv s s' w :
  rest s = w ++ rest s' -> pos s' = pos s + length w -> consumed s s' = w.
Proof.
  intros E P. unfold consumed. rewrite P, E.
  replace (pos s + length w - pos s) with (length w + 0) by lia.
  rewrite firstn_app_2. simpl. apply app_nil_r.
Qed.

End ReFacts.

(* ================================================================= *)
(** ** Strings and numbers *)

Lemma str_eqb_eq a : forall b, str_eqb a b = true <-> a = b.
Proof.
  induction a as [|x a IH]; destruct b as [|y b]; simpl; split; intros H;
    try discriminate; auto.
  - apply andb_prop in H. destruct H as [Hx Hab].
    apply N.eqb_eq in Hx. apply IH in Hab. congruence.
  - injection H as -> ->. rewrite N.eqb_refl. simpl. apply IH. reflexivity.
Qed.

Lemma str_eqb_refl a : str_eqb a a = true.
Proof. apply str_eqb_eq. reflexivity. Qed.

Lemma char_in_In c cs : char_in c cs = true <-> In c cs.
Proof.
  unfold char_in. rewrite existsb_exists. split.
  - intros (x & Hx & E). apply N.eqb_eq in E. subst. exact Hx.
  - intros H. exists c. split; auto. apply N.eqb_refl.
Qed.

Lemma ascii_digit_decimal c : ascii_digit c = true -> Py_UNICODE_ISDECIMAL c = true.
Proof.
  unfold ascii_digit. intros H. apply andb_prop in H. destruct H as [H1 H2].
  apply N.leb_le in H1. apply N.leb_le in H2.
  unfold Py_UNICODE_ISDECIMAL, Nd_blocks. cbn [existsb].
  replace ((48 <=? c)%N && (c <? 48 + 10)%N) with true; [reflexivity|].
  symmetry. apply andb_true_intro. split.
  - apply N.leb_le. exact H1.
  - apply N.ltb_lt. lia.
Qed.

Lemma uint_chars_ascii u : forallb ascii_digit (uint_chars u) = true.
Proof. induction u; simpl; auto. Qed.

Lemma forallb_impl (p q : char -> bool) l :
  (forall c, p c = true -> q c = true) -> forallb p l = true -> forallb q l = true.
Proof.
  intros Hpq. induction l as [|c l IH]; simpl; auto.
  intros H. apply andb_prop in H. destruct H as [Hc Hl].
  rewrite (Hpq _ Hc), (IH Hl). reflexivity.
Qed.

Lemma uint_chars_decimal u : decimal_digits (uint_chars u) = true.
Proof.
  unfold decimal_digits.
  apply forallb_impl with (p := ascii_digit); [apply ascii_digit_decimal|].
  apply uint_chars_ascii.
Qed.

Lemma uint_chars_nonnil u : u <> Decimal.Nil -> uint_chars u <> [].
Proof. destruct u; simpl; intros H; try discriminate; congruence. Qed.

(** The text of a natural number: digits only, and at least one. *)
Lemma str_int_nonneg z :
  (0 <= z)%Z -> str_int z <> [] /\ decimal_digits (str_int z) = true.
Proof.
  intros Hz. unfold str_int. destruct z as [|p|p]; simpl.
  - split; [discriminate | reflexivity].
  - split; [|apply uint_chars_decimal].
    apply uint_chars_nonnil. apply DecimalPos.Unsigned.to_uint_nonnil.
  - lia.
Qed.

Lemma str_int_neg z : (z < 0)%Z -> exists t, str_int z = ch "-" :: t.
Proof.
  intros Hz. unfold str_int. destruct z as [|p|p]; simpl; try lia. eauto.
Qed.

(** A year from 1000 to 9999 is written with four digits. *)
Lemma str_int_four_digits y :
  (1000 <= y <= 9999)%Z -> length (str_int y) = 4.
Proof.
  intros Hy.
  pose (D := [0; 1; 2; 3; 4; 5; 6; 7; 8; 9]%Z).
  assert (H : forallb (fun a => forallb (fun b => forallb (fun c => forallb (fun d =>
                Nat.eqb (length (str_int (1000 * a + 100 * b + 10 * c + d))) 4)
              D) D) D) (tl D) = true) by (vm_compute; reflexivity).
  assert (HD : forall v, (0 <= v <= 9)%Z -> In v D) by (intros v Hv; simpl; lia).
  assert (HD1 : forall v, (1 <= v <= 9)%Z -> In v (tl D)) by (intros v Hv; simpl; lia).
  pose proof (Z.div_mod y 1000 ltac:(lia)) as E1.
  pose proof (Z.mod_pos_bound y 1000 ltac:(lia)) as B1.
  pose proof (Z.div_mod (y mod 1000) 100 ltac:(lia)) as E2.
  pose proof (Z.mod_pos_bound (y mod 1000) 100 ltac:(lia)) as B2.
  pose proof (Z.div_mod ((y mod 1000) mod 100) 10 ltac:(lia)) as E3.
  pose proof (Z.mod_pos_bound ((y mod 1000) mod 100) 10 ltac:(lia)) as B3.
  set (a := (y / 1000)%Z) in *. set (r1 := (y mod 1000)%Z) in *.
  set (b := (r1 / 100)%Z) in *. set (r2 := (r1 mod 100)%Z) in *.
  set (c := (r2 / 10)%Z) in *. set (d := (r2 mod 10)%Z) in *.
  rewrite forallb_forall in H. specialize (H a (HD1 a ltac:(lia))).
  rewrite forallb_forall in H. specialize (H b (HD b ltac:(lia))).
  rewrite forallb_forall in H. specialize (H c (HD c ltac:(lia))).
  rewrite forallb_forall in H. specialize (H d (HD d ltac:(lia))).
  apply Nat.eqb_eq in H.
  replace y with (1000 * a + 100 * b + 10 * c + d)%Z by lia. exact H.
Qed.

(* ================================================================= *)
(** ** [RE_GOOD_FN] *)

Ltac break :=
  repeat match goal with
         | H : exists _, _ |- _ => destruct H
         | H : _ /\ _ |- _ => destruct H
         end.

Ltac eqb_to_eq :=
  repeat match goal with
         | H : N.eqb _ _ = true |- _ => apply N.eqb_eq in H
         end.

(** Replaces the states of a path by what they are, one at a time, the
    fields of each being computed before the next is replaced. *)
Ltac chain :=
  cbn [Re.pos Re.rest Re.groups] in *;
  repeat match goal with
         | H : ?m = _ |- _ =>
             is_var m;
             lazymatch type of m with Re.mstate => idtac end;
             subst m; cbn [Re.pos Re.rest Re.groups] in *
         end.

(** Builds a path of [Matches] along a text written as the pattern reads:
    one step per item of the pattern, leaving the tests of the items. *)
Ltac walk_item :=
  do 2 eexists;
  split; [cbn [Re.pos Re.rest Re.groups]; reflexivity
         | split; [| cbn [Re.pos Re.rest Re.groups]; reflexivity]].

Ltac walk :=
  repeat lazymatch goal with
         | |- @ex Re.mstate _ => eexists; split
         | |- @ex _ _ => walk_item
         | |- _ = 0 /\ _ = _ => split; reflexivity
         | |- (_ \/ _) /\ _ = _ =>
             split; [left; reflexivity | cbn [Re.pos Re.rest Re.groups]; reflexivity]
         | |- @eq Re.mstate _ _ => cbn [Re.pos Re.rest Re.groups]; reflexivity
         end.

Lemma fullmatch_sound r s x :
  Re.fullmatch r s = Some x ->
  Re.Matches r (Re.MState 0 s []) x /\ Re.rest x = [].
Proof.
  unfold Re.fullmatch. intros H. apply ReFacts.run_sound in H.
  destruct H as (s' & HM & Hk). unfold Re.at_end in Hk.
  destruct (Re.rest s') eqn:Hr; [|discriminate].
  injection Hk as <-. auto.
Qed.

Lemma fullmatch_complete r s s' :
  Re.Matches r (Re.MState 0 s []) s' -> Re.rest s' = [] ->
  Re.fullmatch r s <> None.
Proof.
  intros HM Hr. unfold Re.fullmatch.
  eapply ReFacts.run_complete; eauto. unfold Re.at_end. rewrite Hr. discriminate.
Qed.

(** The pattern accepts the stems of the shape it spells out, and no
    other. *)
Lemma looksCanonical_shape stem :
  looksCanonical stem = true <-> canonical_shape stem.
Proof.
  unfold looksCanonical. split.
  - destruct (Re.fullmatch RE_GOOD_FN stem) eqn:E; [|discriminate]. intros _.
    apply fullmatch_sound in E. destruct E as [HM Hr].
    simpl in HM. break. chain. subst. simpl in *. eqb_to_eq. subst.
    match goal with
    | |- canonical_shape (?c :: ?w ++ _ :: _ :: ?d1 :: ?d2 :: ?d3 :: ?d4
                           :: _ :: _ :: _ :: _ :: ?tag :: _ :: _ :: _
                           :: ?d5 :: ?ds ++ _) =>
        exists (c :: w), [d1; d2; d3; d4], tag, (d5 :: ds)
    end.
    unfold no_newline, decimal_digits.
    repeat split; try discriminate; try reflexivity;
      try (simpl; repeat (apply andb_true_intro; split);
           first [assumption | reflexivity]).
    match goal with
    | H : (_ =? 109)%N || _ = true |- _ =>
        apply orb_prop in H; destruct H as [H | H];
        [ left | right; rewrite orb_false_r in H ];
        apply N.eqb_eq in H; exact H
    end.
  - intros (title & y & tag & d & Ht & Hn & Hy & Hyd & Htag & Hd & Hdd & ->).
    destruct title as [|c w]; [congruence|].
    destruct y as [|d1 [|d2 [|d3 [|d4 [|]]]]]; try discriminate.
    destruct d as [|d5 ds]; [congruence|].
    unfold no_newline, decimal_digits in *. simpl in Hn, Hyd, Hdd.
    repeat match goal with
           | H : _ && _ = true |- _ => apply andb_prop in H; destruct H
           end.
    assert (Hm : (tag =? 109)%N || ((tag =? 118)%N || false) = true)
      by (destruct Htag; subst; reflexivity).
    match goal with
    | |- (match ?f with Some _ => true | None => false end) = true =>
        assert (Hf : f <> None); [| destruct f; [reflexivity | congruence]]
    end.
    eapply fullmatch_complete with
      (s' := Re.MState _ [] []); [| reflexivity].
    unfold tagged_stem. simpl.
    walk; try reflexivity; assumption.
Qed.

Lemma canonical_shape_tagged title y tag d :
  title <> [] -> no_newline title = true ->
  length y = 4 -> decimal_digits y = true ->
  tag = ch "m" \/ tag = ch "v" ->
  d <> [] -> decimal_digits d = true ->
  canonical_shape (tagged_stem title y tag d).
Proof.
  intros. exists title, y, tag, d.
  repeat (split; [assumption|]). reflexivity.
Qed.

(** A run of characters of one kind, closed by a character of another
    kind, can be read off the front of a text in one way only. *)
Lemma run_unique (P : char -> bool) : forall a b x x' r r',
  forallb P a = true -> forallb P b = true -> P x = false -> P x' = false ->
  a ++ x :: r = b ++ x' :: r' -> a = b /\ x = x' /\ r = r'.
Proof.
  induction a as [|c a IH]; intros [|c' b] x x' r r' Ha Hb Hx Hx' E;
    simpl in *.
  - injection E as -> ->. auto.
  - injection E as -> _. apply andb_prop in Hb. destruct Hb. congruence.
  - injection E as -> _. apply andb_prop in Ha. destruct Ha. congruence.
  - injection E as -> E. apply andb_prop in Ha. apply andb_prop in Hb.
    destruct Ha, Hb. destruct (IH b x x' r r') as (-> & -> & ->); auto.
Qed.

Lemma forallb_rev (P : char -> bool) l : forallb P (rev l) = forallb P l.
Proof.
  induction l as [|c l IH]; simpl; auto.
  rewrite forallb_app, IH. simpl. rewrite andb_true_r. apply andb_comm.
Qed.

Lemma rev_inj (a b : str) : rev a = rev b -> a = b.
Proof.
  intros H. rewrite <- (rev_involutive a), <- (rev_involutive b), H. reflexivity.
Qed.

(** The digits between the last hyphen and the closing brace, and what
    stands before that hyphen, are determined by the text. *)
Lemma tail_unique pre pre' d d' :
  decimal_digits d = true -> decimal_digits d' = true ->
  pre ++ ch "-" :: d ++ str_of "}" = pre' ++ ch "-" :: d' ++ str_of "}" ->
  pre = pre' /\ d = d'.
Proof.
  unfold decimal_digits. intros Hd Hd' E.
  apply (f_equal (@rev char)) in E.
  rewrite !rev_app_distr in E. simpl in E. rewrite !rev_app_distr in E.
  simpl in E. rewrite <- !app_assoc in E. simpl in E.
  injection E as E.
  apply run_unique with (P := Py_UNICODE_ISDECIMAL) in E;
    try (rewrite forallb_rev; assumption); try reflexivity.
  destruct E as (E1 & _ & E2). apply rev_inj in E1. apply rev_inj in E2. auto.
Qed.

Lemma tagged_stem_split title y tag d :
  tagged_stem title y tag d =
  (title ++ str_of " (" ++ y ++ str_of ") {t" ++ [tag] ++ str_of "db")
    ++ ch "-" :: d ++ str_of "}".
Proof. unfold tagged_stem. rewrite <- !app_assoc. reflexivity. Qed.

Lemma bracketed_stem_split title y d :
  bracketed_stem title y d =
  (title ++ str_of " [" ++ y ++ str_of "] {tmdb") ++ ch "-" :: d ++ str_of "}".
Proof. unfold bracketed_stem. rewrite <- !app_assoc. reflexivity. Qed.

(** No stem with its year in square brackets is accepted. *)
Lemma bracketed_not_canonical title y d :
  decimal_digits d = true -> looksCanonical (bracketed_stem title y d) = false.
Proof.
  intros Hd. destruct (looksCanonical _) eqn:E; [|reflexivity].
  apply looksCanonical_shape in E.
  destruct E as (t' & y' & tag & d' & _ & _ & _ & _ & _ & _ & Hd' & E).
  rewrite bracketed_stem_split, tagged_stem_split in E.
  apply tail_unique in E; auto. destruct E as [E _].
  apply (f_equal (@rev char)) in E.
  rewrite !rev_app_distr in E. simpl in E.
  rewrite <- !app_assoc in E. simpl in E. discriminate E.
Qed.

(* ================================================================= *)
(** ** [make_filename] *)



Lemma filter_no_newline (p : char -> bool) t :
  no_newline t = true -> no_newline (filter p t) = true.
Proof.
  unfold no_newline. induction t as [|c t IH]; simpl; auto.
  intros H. apply andb_prop in H. destruct H as [Hc Ht].
  destruct (p c); simpl; auto. rewrite Hc. auto.
Qed.

(** [make_filename] as one text: the cleaned title, or the placeholder,
    and the tmdb tag. *)
Lemma make_filename_tagged result :
  make_filename result =
  tagged_stem
    (match filter (fun c => negb (char_in c INVALID_FILENAME_CHARS)) (title result) with
     | [] => str_of "FIXME"
     | cleaned => cleaned
     end)
    (str_int (year (release result))) (ch "m") (str_int (id_ result)).
Proof.
  unfold make_filename, tagged_stem.
  destruct (filter _ (title result)) as [|c cleaned]; simpl;
    repeat (rewrite <- app_assoc; simpl); reflexivity.
Qed.



(** C1, as the claim states it, fails: the year 999 is a year of the date
    type, and the stem made for it is not recognised. *)
Lemma roundtrip_counterexample :
  (MINYEAR <= 999 <= MAXYEAR)%Z /\
  looksCanonical
    (make_filename {| title := str_of "foo"; id_ := 123; release := Date 999 1 1 |})
  = false.
Proof. split; [unfold MINYEAR, MAXYEAR; lia | vm_compute; reflexivity]. Qed.

(** The same for a negative identifier and for a title with a newline. *)
Example roundtrip_negative_id :
  looksCanonical
    (make_filename {| title := str_of "foo"; id_ := -1; release := Date 2031 3 3 |})
  = false.
Proof. vm_compute. reflexivity. Qed.

Example roundtrip_newline_title :
  looksCanonical
    (make_filename {| title := [102; 10; 111]%N; id_ := 123; release := Date 2031 3 3 |})
  = false.
Proof. vm_compute. reflexivity. Qed.

(** C1, amended. For every candidate whose title holds no newline, whose
    identifier is not negative and whose release year has four digits
    (1000 to 9999), the stem [make_filename] produces is recognised by
    [RE_GOOD_FN]. *)
Theorem make_filename_looksCanonical result :
  no_newline (title result) = true ->
  (0 <= id_ result)%Z ->
  (1000 <= year (release result) <= 9999)%Z ->
  looksCanonical (make_filename result) = true.
Proof.
  intros Hn Hid Hy.
  apply looksCanonical_shape. rewrite make_filename_tagged.
  destruct (str_int_nonneg Hid) as [Hd1 Hd2].
  destruct (str_int_nonneg (z := year (release result)) ltac:(lia)) as [_ Hy2].
  apply canonical_shape_tagged; auto.
  - destruct (filter _ _); discriminate.
  - pose proof (filter_no_newline
                  (fun c => negb (char_in c INVALID_FILENAME_CHARS)) _ Hn) as H.
    destruct (filter _ _); [reflexivity | exact H].
  - apply str_int_four_digits. exact Hy.
Qed.

Lemma make_filename_looksCanonical_witness :
  looksCanonical
    (make_filename
       {| title := str_of "Guess Who?"; id_ := 123; release := Date 2031 3 3 |})
  = true.
Proof.
  apply make_filename_looksCanonical; simpl; [reflexivity | lia | lia].
Defined.

(** C2, as the claim states it, fails: a stem with the tvdb tag is
    recognised, and is not of the tmdb shape. *)
Lemma looksCanonical_counterexample :
  looksCanonical (str_of "a (1234) {tvdb-123}") = true /\
  ~ spec_canonical_shape (str_of "a (1234) {tvdb-123}").
Proof.
  split; [vm_compute; reflexivity|].
  intros (t & y & d & _ & _ & _ & _ & Hd & E).
  rewrite tagged_stem_split in E.
  change (str_of "a (1234) {tvdb-123}")
    with (str_of "a (1234) {tvdb" ++ ch "-" :: str_of "123" ++ str_of "}") in E.
  apply tail_unique in E; [|reflexivity|exact Hd].
  destruct E as [E _].
  apply (f_equal (@rev char)) in E.
  rewrite !rev_app_distr in E. simpl in E.
  rewrite <- !app_assoc in E. simpl in E. discriminate E.
Qed.

(** So does a title of one newline, which is of the tmdb shape and is not
    recognised. *)
Example looksCanonical_newline_title :
  spec_canonical_shape (NEWLINE :: str_of " (1234) {tmdb-1}") /\
  looksCanonical (NEWLINE :: str_of " (1234) {tmdb-1}") = false.
Proof.
  split; [|vm_compute; reflexivity].
  exists [NEWLINE], (str_of "1234"), (str_of "1").
  repeat split; try discriminate; reflexivity.
Qed.

(** C2, amended. [looksCanonical] is true exactly for the texts made of a
    title of one or more characters other than a newline, a blank, four
    decimal digits in parentheses, a blank, and in braces the tag tmdb or
    tvdb, a hyphen and one or more decimal digits; a stem with its year in
    square brackets, such as [a [1234] {tmdb-123}], is never accepted. *)
Theorem looksCanonical_exactly :
  (forall stem, looksCanonical stem = true <-> canonical_shape stem) /\
  (forall title y d,
      decimal_digits d = true -> looksCanonical (bracketed_stem title y d) = false) /\
  looksCanonical (str_of "a [1234] {tmdb-123}") = false.
Proof.
  split; [exact looksCanonical_shape|].
  split; [exact bracketed_not_canonical|].
  vm_compute. reflexivity.
Qed.

Lemma looksCanonical_exactly_witness :
  looksCanonical (bracketed_stem (str_of "a (b)") (str_of "1234") (str_of "123"))
  = false.
Proof.
  apply (proj1 (proj2 looksCanonical_exactly)). reflexivity.
Defined.

(* ================================================================= *)
(** ** [_strip_year] *)

Lemma match_at_year_sound n l x :
  Re.match_at year_re n l = Some x ->
  starts_with_year l = true /\ Re.pos x = n + 6 /\ Re.rest x = skipn 6 l.
Proof.
  unfold Re.match_at. intros H. apply ReFacts.run_sound in H.
  destruct H as (s' & HM & Hk). injection Hk as <-.
  simpl in HM. destruct HM as (m & [HM | HM] & ->);
    break; chain; subst; simpl in *; eqb_to_eq; subst;
    unfold decimal_digits; simpl;
    repeat match goal with
           | H : Py_UNICODE_ISDECIMAL _ = true |- _ => rewrite H; clear H
           end;
    (split; [reflexivity | split; [lia | reflexivity]]).
Qed.

Lemma match_at_year_complete n l :
  starts_with_year l = true -> Re.match_at year_re n l <> None.
Proof.
  intros H.
  destruct l as [|o [|d1 [|d2 [|d3 [|d4 [|c t]]]]]]; try discriminate.
  simpl in H. unfold decimal_digits in H. simpl in H.
  repeat match goal with
         | H : _ && _ = true |- _ => apply andb_prop in H; destruct H
         end.
  unfold Re.match_at.
  match goal with
  | H : _ || _ = true |- _ => apply orb_prop in H; destruct H as [H | H]
  end;
    apply andb_prop in H; destruct H as [Ho Hc];
    apply N.eqb_eq in Ho; apply N.eqb_eq in Hc; subst o c;
    eapply ReFacts.run_complete with (s' := Re.MState _ t _);
    try discriminate; simpl.
  - eexists; split; [left; walk; try reflexivity; assumption | reflexivity].
  - eexists; split; [right; walk; try reflexivity; assumption | reflexivity].
Qed.

Lemma remove_years_from_skipn : forall k s,
  remove_years_from k s = remove_years_from 0 (skipn k s).
Proof.
  induction k as [|k IH]; intros [|c t]; simpl; auto.
Qed.

Lemma length_skipn_le (k : nat) (s : str) : length (skipn k s) <= length s.
Proof. rewrite length_skipn. lia. Qed.

(** The scan of [sub] with the year pattern deletes every bracketed
    year. *)
Lemma sub_from_year : forall fuel n l,
  length l < fuel -> Re.sub_from fuel year_re [] n l = remove_years l.
Proof.
  induction fuel as [|fuel IH]; intros n l Hl; [lia|].
  destruct l as [|c t]; [reflexivity|].
  cbn [Re.sub_from]. unfold remove_years. cbn [remove_years_from].
  destruct (Re.match_at year_re n (c :: t)) as [m|] eqn:E.
  - apply match_at_year_sound in E. destruct E as (Hy & Hp & Hr).
    rewrite Hy, Hp, Hr.
    replace (Nat.ltb n (n + 6)) with true
      by (symmetry; apply Nat.ltb_lt; lia).
    cbn [app]. rewrite IH.
    + rewrite (remove_years_from_skipn 5 t). reflexivity.
    + change (skipn 6 (c :: t)) with (skipn 5 t).
      pose proof (length_skipn_le 5 t). simpl in Hl. lia.
  - destruct (starts_with_year (c :: t)) eqn:Hy.
    + apply (match_at_year_complete n) in Hy. congruence.
    + rewrite IH by (simpl in Hl; lia). reflexivity.
Qed.

Lemma _strip_year_remove_years data :
  _strip_year data = strip (remove_years data).
Proof.
  unfold _strip_year, Re.sub. rewrite sub_from_year by lia. reflexivity.
Qed.

(** C3, as the claim states it, fails: a second bracketed year is
    deleted too. *)
Lemma _strip_year_counterexample :
  _strip_year (str_of "a (1999) b [2000]") = str_of "a  b" /\
  spec_strip_first_year (str_of "a (1999) b [2000]") = str_of "a  b [2000]" /\
  _strip_year (str_of "a (1999) b [2000]")
    <> spec_strip_first_year (str_of "a (1999) b [2000]").
Proof.
  split; [vm_compute; reflexivity|].
  split; [vm_compute; reflexivity|].
  vm_compute. discriminate.
Qed.

Lemma remove_years_cons c t :
  remove_years (c :: t) =
  if starts_with_year (c :: t) then remove_years (skipn 5 t)
  else c :: remove_years t.
Proof.
  unfold remove_years. cbn [remove_years_from].
  rewrite (remove_years_from_skipn 5 t). reflexivity.
Qed.

Lemma starts_with_year_firstn l :
  starts_with_year l = true ->
  length (firstn 6 l) = 6 /\ starts_with_year (firstn 6 l) = true.
Proof.
  destruct l as [|o [|d1 [|d2 [|d3 [|d4 [|c t]]]]]]; try discriminate.
  intros H. split; [reflexivity | exact H].
Qed.

Lemma remove_years_YearsRemoved : forall n data,
  length data <= n -> YearsRemoved data (remove_years data).
Proof.
  induction n as [|n IH]; intros [|c t] Hl; cbn [length] in Hl;
    [apply yr_nil | lia | apply yr_nil |].
  rewrite remove_years_cons. destruct (starts_with_year (c :: t)) eqn:Hy.
  - destruct (starts_with_year_firstn _ Hy) as [H6 Hy6].
    rewrite <- (firstn_skipn 6 (c :: t)) at 1.
    apply yr_year; auto. apply IH.
    change (skipn 6 (c :: t)) with (skipn 5 t).
    pose proof (length_skipn_le 5 t). lia.
  - apply yr_keep; auto. apply IH. lia.
Qed.

(** C3, amended. For every input, [_strip_year] deletes every text of a
    four-digit year in square brackets or in parentheses, reading from
    the left and resuming behind each one deleted, and trims the white
    space around what is left. *)
Theorem _strip_year_all data :
  _strip_year data = strip (remove_years data) /\
  YearsRemoved data (remove_years data).
Proof.
  split; [apply _strip_year_remove_years|].
  apply remove_years_YearsRemoved with (n := length data). lia.
Qed.

(* ================================================================= *)
(** ** [_strip_leading_info] *)

Lemma count_char_app c a b : count_char c (a ++ b) = count_char c a + count_char c b.
Proof. unfold count_char. rewrite filter_app, length_app. reflexivity. Qed.

Lemma count_char_cons_same c t : count_char c (c :: t) = S (count_char c t).
Proof. unfold count_char. simpl. rewrite N.eqb_refl. reflexivity. Qed.

Lemma count_char_in c s : 1 <= count_char c s -> char_in c s = true.
Proof.
  unfold count_char, char_in. induction s as [|x s IH]; simpl; [lia|].
  destruct (N.eqb c x); simpl; auto.
Qed.

Lemma char_in_app c a b : char_in c (a ++ b) = char_in c a || char_in c b.
Proof. unfold char_in. apply existsb_app. Qed.

(** A text holding [c] splits at the first [c]. *)
Lemma first_split c : forall s,
  char_in c s = true ->
  exists pre rest, s = pre ++ c :: rest /\ char_in c pre = false.
Proof.
  unfold char_in. induction s as [|x s IH]; simpl; [discriminate|].
  destruct (N.eqb c x) eqn:E; simpl; intros H.
  - apply N.eqb_eq in E. subst x. exists [], s. auto.
  - destruct (IH H) as (pre & rest & -> & Hp).
    exists (x :: pre), rest. simpl. rewrite E. auto.
Qed.

Lemma no_newline_app a b : no_newline (a ++ b) = no_newline a && no_newline b.
Proof. unfold no_newline. apply forallb_app. Qed.

Lemma no_newline_cons c t :
  no_newline (c :: t) = negb (N.eqb c NEWLINE) && no_newline t.
Proof. reflexivity. Qed.

(** What the second group can match, and what it then holds. *)
Lemma patt_group2_sound s x :
  Re.run patt_group2 s Re.at_end = Some x ->
  Re.group 2 (Re.groups x) = Some (Re.rest s) /\
  no_newline (Re.rest s) = true /\ char_in HYPHEN (Re.rest s) = true.
Proof.
  intros H. apply ReFacts.run_sound in H. destruct H as (s' & HM & Hk).
  unfold Re.at_end in Hk. destruct (Re.rest s') eqn:Hr; [|discriminate].
  injection Hk as <-.
  unfold patt_group2 in HM. cbn [Re.Matches] in HM.
  destruct HM as (m & HM & ->). cbn [Re.rest] in Hr.
  cbn [Re.groups Re.group Nat.eqb].
  pose proof (ReFacts.Matches_adv _ _ _ HM) as (w & Ew & Pw).
  rewrite Hr, app_nil_r in Ew.
  rewrite (ReFacts.consumed_adv s m w) by (rewrite ?Hr, ?app_nil_r; auto).
  split; [congruence|].
  simpl in HM. break. chain. subst. simpl in *. eqb_to_eq. subst.
  match goal with
  | H : Re.rest s = _ |- _ => rewrite H
  end.
  rewrite app_nil_r, no_newline_app, char_in_app. split.
  - apply andb_true_intro. split; [| simpl]; assumption.
  - apply orb_true_intro. right. reflexivity.
Qed.

Lemma patt_group2_complete s :
  no_newline (Re.rest s) = true -> char_in HYPHEN (Re.rest s) = true ->
  Re.run patt_group2 s Re.at_end <> None.
Proof.
  intros Hn Hh. destruct (first_split _ _ Hh) as (a & b & E & _).
  rewrite E, no_newline_app in Hn. apply andb_prop in Hn. destruct Hn as [Ha Hb].
  simpl in Hb.
  destruct s as [n l g]. simpl in E. subst l.
  rewrite <- (app_nil_r b).
  eapply ReFacts.run_complete.
  - unfold patt_group2. simpl.
    eexists; split; [walk; try reflexivity; assumption | reflexivity].
  - unfold Re.at_end. simpl. discriminate.
Qed.

Lemma skipn_head_in (c : char) : forall i (pre : str) t,
  skipn i pre = c :: t -> In c pre.
Proof.
  induction i as [|i IH]; intros [|x pre] t E; simpl in E; try discriminate.
  - injection E as -> _. left. reflexivity.
  - right. eapply IH. exact E.
Qed.

Lemma char_in_false_neq c x s : char_in c s = false -> In x s -> N.eqb x c = false.
Proof.
  intros H Hin. destruct (N.eqb x c) eqn:E; [|reflexivity].
  apply N.eqb_eq in E. subst x. apply char_in_In in Hin. congruence.
Qed.

(** The first group stops at the first hyphen whenever the second group
    can match behind it; the second group then holds all the text behind
    that hyphen. *)
Lemma fullmatch_patt_first pre rest :
  no_newline pre = true -> char_in HYPHEN pre = false ->
  no_newline rest = true -> char_in HYPHEN rest = true ->
  exists m, Re.fullmatch patt (pre ++ HYPHEN :: rest) = Some m /\
            Re.group 2 (Re.groups m) = Some rest.
Proof.
  intros Hnp Hhp Hnr Hhr.
  unfold Re.fullmatch, patt, patt_group1.
  remember patt_group2 as G2 eqn:EG2. simpl.
  rewrite ReFacts.star_lazy_skip; [| exact Hnp |].
  - cbn [Re.star_lazy]. change (N.eqb HYPHEN 45) with true. cbn iota.
    destruct (Re.run G2 {| Re.pos := S (0 + length pre); Re.rest := rest;
                           Re.groups := _ |} _) as [x|] eqn:E; subst G2.
    + apply patt_group2_sound in E. destruct E as (E & _). eauto.
    + exfalso. revert E. apply patt_group2_complete; assumption.
  - intros i Hi.
    destruct (skipn i pre) as [|c t] eqn:Es.
    + apply (f_equal (@length char)) in Es. rewrite length_skipn in Es.
      simpl in Es. lia.
    + assert (Hc : N.eqb c 45 = false)
        by exact (char_in_false_neq HYPHEN c pre Hhp (skipn_head_in i pre Es)).
      simpl. rewrite Hc. reflexivity.
Qed.

(** A match of the whole pattern needs two hyphens and no newline. *)
Lemma fullmatch_patt_sound data m :
  Re.fullmatch patt data = Some m ->
  no_newline data = true /\ 2 <= count_char HYPHEN data.
Proof.
  intros H. apply fullmatch_sound in H. destruct H as [HM Hr].
  simpl in HM. break. chain. subst. simpl in *. eqb_to_eq. subst.
  change 45%N with HYPHEN.
  split.
  - repeat match goal with
           | H : forallb (Re.test Re.Dot) ?a = true |- _ =>
               change (no_newline a = true) in H
           end.
    repeat (rewrite ?no_newline_app, ?no_newline_cons).
    repeat match goal with
           | H : no_newline _ = true |- _ => rewrite H; clear H
           end.
    reflexivity.
  - repeat (rewrite ?count_char_cons_same, ?count_char_app). lia.
Qed.

Lemma _strip_leading_info_match pre rest :
  no_newline (pre ++ HYPHEN :: rest) = true ->
  char_in HYPHEN pre = false -> char_in HYPHEN rest = true ->
  _strip_leading_info (pre ++ HYPHEN :: rest) = strip rest.
Proof.
  intros Hn Hp Hr. rewrite no_newline_app, no_newline_cons in Hn.
  apply andb_prop in Hn. destruct Hn as [Hn1 Hn2].
  apply andb_prop in Hn2. destruct Hn2 as [_ Hn2].
  destruct (fullmatch_patt_first pre rest Hn1 Hp Hn2 Hr) as (m & E & G).
  unfold _strip_leading_info. rewrite E, G. reflexivity.
Qed.

Lemma _strip_leading_info_unchanged data :
  count_char HYPHEN data < 2 \/ no_newline data = false ->
  _strip_leading_info data = data.
Proof.
  intros H. unfold _strip_leading_info.
  destruct (Re.fullmatch patt data) as [m|] eqn:E; [|reflexivity].
  apply fullmatch_patt_sound in E. destruct E as [E1 E2].
  destruct H; [lia | congruence].
Qed.

(** What the stage returns is the input, or the trimmed text behind the
    first hyphen. *)
Lemma _strip_leading_info_cases data :
  _strip_leading_info data = data \/
  exists pre rest, data = pre ++ HYPHEN :: rest /\
                   _strip_leading_info data = strip rest.
Proof.
  destruct (no_newline data) eqn:Hn;
    [| left; apply _strip_leading_info_unchanged; auto].
  destruct (le_lt_dec 2 (count_char HYPHEN data)) as [Hc | Hc];
    [| left; apply _strip_leading_info_unchanged; auto].
  right.
  destruct (first_split HYPHEN data) as (pre & rest & E & Hp);
    [apply count_char_in; lia|].
  exists pre, rest. split; [exact E|]. subst data.
  apply _strip_leading_info_match; auto.
  apply count_char_in.
  rewrite count_char_app, count_char_cons_same in Hc.
  assert (count_char HYPHEN pre = 0); [| lia].
  unfold count_char, char_in in *. clear - Hp.
  induction pre as [|x pre IH]; simpl in *; auto.
  apply orb_false_elim in Hp. destruct Hp as [Hx Hp]. rewrite Hx. auto.
Qed.

Lemma strip_blank rest : strip (32%N :: rest) = strip rest.
Proof. reflexivity. Qed.

(** C4, as the claim states it, fails: a bare hyphen behind the first
    separator is enough for the leading text to be dropped. *)
Lemma _strip_leading_info_counterexample :
  _strip_leading_info (str_of "a - b-c") = str_of "b-c" /\
  spec_strip_leading_info (str_of "a - b-c") = str_of "a - b-c" /\
  _strip_leading_info (str_of "a - b-c")
    <> spec_strip_leading_info (str_of "a - b-c").
Proof.
  split; [vm_compute; reflexivity|].
  split; [vm_compute; reflexivity|].
  vm_compute. discriminate.
Qed.

(** The blanks written around the first hyphen of the pattern are not
    part of it either: a text with no blank at all loses its leading
    part. *)
Example _strip_leading_info_no_blanks :
  _strip_leading_info (str_of "a-b-c") = str_of "b-c".
Proof. vm_compute. reflexivity. Qed.

(** C4, amended. For every input without a newline that reads
    [<prefix> - <rest>], where the prefix holds no hyphen and the rest
    holds at least one more hyphen (with or without blanks around it),
    the stage returns the rest, trimmed; every input with fewer than two
    hyphens, and every input holding a newline, is returned unchanged. *)
Theorem _strip_leading_info_drops :
  (forall pre rest,
      no_newline (pre ++ str_of " - " ++ rest) = true ->
      char_in HYPHEN pre = false -> char_in HYPHEN rest = true ->
      _strip_leading_info (pre ++ str_of " - " ++ rest) = strip rest) /\
  (forall data,
      count_char HYPHEN data < 2 \/ no_newline data = false ->
      _strip_leading_info data = data).
Proof.
  split; [| exact _strip_leading_info_unchanged].
  intros pre rest Hn Hp Hr.
  change (pre ++ str_of " - " ++ rest)
    with (pre ++ [32%N] ++ HYPHEN :: 32%N :: rest) in *.
  rewrite app_assoc in *.
  rewrite _strip_leading_info_match; auto.
  rewrite char_in_app, Hp. reflexivity.
Qed.

Lemma _strip_leading_info_drops_witness :
  _strip_leading_info (str_of "group" ++ str_of " - " ++ str_of "11 - title")
    = strip (str_of "11 - title") /\
  _strip_leading_info (str_of "foo - bar") = str_of "foo - bar".
Proof.
  split.
  - apply (proj1 _strip_leading_info_drops); reflexivity.
  - apply (proj2 _strip_leading_info_drops). left. vm_compute. lia.
Defined.

(* ================================================================= *)
(** ** [get_search_term_from_fn] *)

Lemma drop_while_all p s : forallb p s = true -> drop_while p s = [].
Proof.
  induction s as [|c s IH]; simpl; auto.
  intros H. apply andb_prop in H. destruct H as [Hc Hs]. rewrite Hc. auto.
Qed.

Lemma forallb_drop_while (q p : char -> bool) s :
  forallb q s = true -> forallb q (drop_while p s) = true.
Proof.
  induction s as [|c s IH]; simpl; auto.
  intros H. destruct (p c); [| exact H].
  apply andb_prop in H. destruct H. auto.
Qed.

Lemma forallb_strip (q : char -> bool) s :
  forallb q s = true -> forallb q (strip s) = true.
Proof.
  intros H. unfold strip, rstrip, lstrip.
  rewrite forallb_rev. apply forallb_drop_while.
  rewrite forallb_rev. apply forallb_drop_while. exact H.
Qed.

Lemma char_in_cons_false a c s :
  char_in a (c :: s) = false -> N.eqb c a = false /\ char_in a s = false.
Proof.
  unfold char_in. cbn [existsb]. intros H. apply orb_false_elim in H.
  destruct H as [H1 H2]. rewrite N.eqb_sym. auto.
Qed.

(** A text without an opening bracket or parenthesis holds no bracketed
    year. *)
Lemma remove_years_none s :
  char_in (ch "[") s = false -> char_in (ch "(") s = false ->
  remove_years s = s.
Proof.
  induction s as [|c s IH]; [reflexivity|].
  intros H1 H2.
  apply char_in_cons_false in H1. apply char_in_cons_false in H2.
  destruct H1 as [H1 H1'], H2 as [H2 H2'].
  rewrite remove_years_cons.
  assert (Hy : starts_with_year (c :: s) = false).
  { destruct s as [|d1 [|d2 [|d3 [|d4 [|c' t]]]]]; try reflexivity.
    cbn [starts_with_year]. rewrite H1, H2. reflexivity. }
  rewrite Hy, IH; auto.
Qed.

Lemma only_chars_not_in cs c s :
  char_in c cs = false -> only_chars cs s = true -> char_in c s = false.
Proof.
  intros Hc. unfold only_chars, char_in at 2.
  induction s as [|x s IH]; simpl; auto.
  intros H. apply andb_prop in H. destruct H as [Hx Hs].
  rewrite (IH Hs), orb_false_r.
  destruct (N.eqb c x) eqn:E; [| reflexivity].
  apply N.eqb_eq in E. subst x. congruence.
Qed.

Lemma _strip_leading_info_only_chars cs data :
  only_chars cs data = true -> only_chars cs (_strip_leading_info data) = true.
Proof.
  intros H. destruct (_strip_leading_info_cases data) as [E | (pre & rest & E1 & E2)].
  - rewrite E. exact H.
  - rewrite E2. subst data. unfold only_chars in *.
    rewrite forallb_app in H. apply andb_prop in H. destruct H as [_ H].
    simpl in H. apply andb_prop in H. destruct H as [_ H].
    apply forallb_strip. exact H.
Qed.

(* ================================================================= *)
(** ** What the effects leave alone *)

Lemma preserves_ret {X A} (f : state -> X) (a : A) : preserves f (ret a).
Proof. intros st. reflexivity. Qed.

Lemma preserves_raise {X A} (f : state -> X) e : preserves f (@raise A e).
Proof. intros st. reflexivity. Qed.

Lemma preserves_bind {X A B} (f : state -> X) (m : M A) (k : A -> M B) :
  preserves f m -> (forall a, preserves f (k a)) -> preserves f (bind m k).
Proof.
  intros Hm Hk st. unfold bind. specialize (Hm st).
  destruct (m st) as [[a|e] st1]; simpl in *.
  - rewrite Hk. exact Hm.
  - exact Hm.
Qed.

Lemma preserves_except {X A} (f : state -> X) (m h : M A) :
  preserves f m -> preserves f h -> preserves f (except_PermissionError m h).
Proof.
  intros Hm Hh st. unfold except_PermissionError. specialize (Hm st).
  destruct (m st) as [[a|e] st1]; simpl in *; [exact Hm|].
  destruct e; simpl; try exact Hm. rewrite Hh. exact Hm.
Qed.

Lemma fs_do_queries w op : preserves queries (fs_do w op).
Proof. intros st. unfold fs_do. destruct (fs_error w _ _); reflexivity. Qed.

Lemma fs_do_stdin w op : preserves stdin (fs_do w op).
Proof. intros st. unfold fs_do. destruct (fs_error w _ _); reflexivity. Qed.

Lemma ask_user_queries w results file confirm :
  preserves queries (ask_user w results file confirm).
Proof.
  intros st. unfold ask_user.
  destruct results as [|r0 [|r1 rs]]; try destruct (negb confirm);
    try destruct (ask_loop _ _ _ _); reflexivity.
Qed.

Lemma ask_user_fs_log w results file confirm :
  preserves fs_log (ask_user w results file confirm).
Proof.
  intros st. unfold ask_user.
  destruct results as [|r0 [|r1 rs]]; try destruct (negb confirm);
    try destruct (ask_loop _ _ _ _); reflexivity.
Qed.

Lemma create_new_filepath_preserves {X} (f : state -> X) fp result :
  preserves f (create_new_filepath fp result).
Proof.
  intros st. unfold create_new_filepath. destruct (with_name _ _); reflexivity.
Qed.

Lemma move_to_folder_queries w fp dry_run :
  preserves queries (move_to_folder w fp dry_run).
Proof.
  unfold move_to_folder. destruct (negb (str_eqb _ _)); [| apply preserves_ret].
  apply preserves_bind; [| intros; apply preserves_ret].
  destruct (negb dry_run); [| apply preserves_ret].
  apply preserves_bind; [apply fs_do_queries | intros; apply fs_do_queries].
Qed.

Lemma move_to_folder_stdin w fp dry_run :
  preserves stdin (move_to_folder w fp dry_run).
Proof.
  unfold move_to_folder. destruct (negb (str_eqb _ _)); [| apply preserves_ret].
  apply preserves_bind; [| intros; apply preserves_ret].
  destruct (negb dry_run); [| apply preserves_ret].
  apply preserves_bind; [apply fs_do_stdin | intros; apply fs_do_stdin].
Qed.


(** C10. For every non-empty stem made only of ASCII digits, blanks and
    hyphens, such as [1984] (such a stem holds no bracketed year and no
    dot), [get_search_term_from_fn] returns the empty text; the stem is
    not recognised as canonical, so the driver sends the empty query to
    the search service for a video file of that stem. *)
Theorem digits_only_stem_empty_query fn :
  fn <> [] -> only_chars (str_of "0123456789 -") fn = true ->
  get_search_term_from_fn fn = [] /\
  looksCanonical fn = false /\
  forall w confirm dry_run root file c st,
    stem (truediv (PurePosixPath root) file) = fn ->
    existsb (str_eqb (lower (suffix (truediv (PurePosixPath root) file))))
            VIDEO_EXT = true ->
    exists r st', loop_body w confirm dry_run root file c st = (r, st') /\
                  queries st' = [] :: queries st.
Proof.
  intros Hne H.
  assert (Hquery : get_search_term_from_fn fn = []);
    [| assert (Hcanon : looksCanonical fn = false);
       [| split; [exact Hquery | split; [exact Hcanon|]]]].
  - unfold get_search_term_from_fn.
    assert (H1 : only_chars (str_of "0123456789 -") (_strip_year fn) = true).
    { rewrite _strip_year_remove_years, remove_years_none.
      - apply forallb_strip. exact H.
      - eapply only_chars_not_in; [| exact H]. reflexivity.
      - eapply only_chars_not_in; [| exact H]. reflexivity. }
    apply _strip_leading_info_only_chars in H1.
    unfold _strip_leading_number, lstrip_chars.
    rewrite drop_while_all by exact H1. reflexivity.
  - destruct (looksCanonical fn) eqn:E; [| reflexivity].
    apply looksCanonical_shape in E.
    destruct E as (t & y & tag & d & _ & _ & _ & _ & _ & _ & _ & ->).
    assert (Hc : char_in (ch "(") (tagged_stem t y tag d) = false)
      by (eapply only_chars_not_in; [| exact H]; reflexivity).
    unfold tagged_stem in Hc. rewrite char_in_app in Hc.
    apply orb_false_elim in Hc. destruct Hc as [_ Hc]. discriminate Hc.
  - intros w confirm dry_run root file c st Hstem Hvideo.
    destruct (loop_body w confirm dry_run root file c st) as [r st'] eqn:E.
    exists r, st'. split; [reflexivity|].
    unfold loop_body in E. rewrite Hvideo, Hstem, Hcanon, Hquery in E.
    cbn [negb] in E. unfold bind at 1 in E. unfold search at 1 in E.
    match type of E with
    | (let (_, _) := match ?t with _ => _ end in _) = _ =>
        destruct t as [|res0 results]
    end.
    + injection E as _ <-. reflexivity.
    + match type of E with
      | ?m ?s1 = _ =>
          assert (P : preserves queries m);
          [| pose proof (P s1) as Q; rewrite E in Q; exact Q]
      end.
      apply preserves_bind; [apply ask_user_queries|]. intros selection.
      apply preserves_bind; [apply create_new_filepath_preserves|]. intros new_fp.
      apply preserves_bind; [| intros; apply preserves_ret].
      destruct dry_run; cbn [negb]; [apply preserves_ret|].
      apply preserves_except; [| apply preserves_ret].
      apply preserves_bind; [apply fs_do_queries|]. intros _.
      apply preserves_bind; [apply move_to_folder_queries|]. intros.
      apply preserves_ret.
Qed.

Lemma digits_only_stem_empty_query_witness :
  get_search_term_from_fn (str_of "1984") = [] /\
  looksCanonical (str_of "1984") = false /\
  exists r st',
    loop_body no_world true true (str_of "/m") (str_of "1984.avi")
              {| num_changed := 0; num_files_moved := 0 |} idle = (r, st') /\
    queries st' = [[]].
Proof.
  destruct (@digits_only_stem_empty_query (str_of "1984"))
    as (A & B & C); [discriminate | reflexivity |].
  split; [exact A | split; [exact B |]].
  apply (C no_world true true (str_of "/m") (str_of "1984.avi")); reflexivity.
Defined.

(* ================================================================= *)
(** ** Paths *)

Lemma split_no_sep c x : char_in c x = false -> split c x = [x].
Proof.
  induction x as [|a x IH]; [reflexivity|].
  intros H. apply char_in_cons_false in H. destruct H as [Ha Hx].
  cbn [split]. rewrite Ha, (IH Hx). reflexivity.
Qed.

Lemma wf_comp_spec x :
  wf_comp x = true <-> x <> [] /\ x <> str_of "." /\ char_in SEP x = false.
Proof.
  unfold wf_comp. rewrite !andb_true_iff, !negb_true_iff.
  split.
  - intros [[H1 H2] H3]. repeat split; auto.
    + intros ->. discriminate.
    + intros ->. discriminate.
  - intros (H1 & H2 & H3). repeat split; auto.
    + destruct (str_eqb x []) eqn:E; auto. apply str_eqb_eq in E. congruence.
    + destruct (str_eqb x (str_of ".")) eqn:E; auto.
      apply str_eqb_eq in E. congruence.
Qed.

(** Joining one well-formed component appends it. *)
Lemma truediv_comp p x :
  wf_comp x = true ->
  truediv p x = {| root := root p; comps := comps p ++ [x] |}.
Proof.
  intros H. pose proof H as H'. apply wf_comp_spec in H'.
  destruct H' as (Hne & Hdot & Hsep).
  unfold truediv, splitroot.
  destruct x as [|c x]; [congruence|].
  destruct (char_in_cons_false _ _ _ Hsep) as [Hc _]. rewrite Hc.
  unfold components. rewrite split_no_sep by exact Hsep.
  cbn [filter]. unfold wf_comp in H.
  apply andb_prop in H. destruct H as [H _]. rewrite H. reflexivity.
Qed.

Lemma char_in_firstn c n x : char_in c x = false -> char_in c (firstn n x) = false.
Proof.
  revert x. induction n as [|n IH]; intros [|a x] H; try reflexivity.
  apply char_in_cons_false in H. destruct H as [Ha Hx].
  cbn [firstn]. unfold char_in. cbn [existsb].
  rewrite N.eqb_sym, Ha. apply IH. exact Hx.
Qed.

Lemma last_app2 (l : list str) a b d : last (l ++ [a; b]) d = b.
Proof.
  change (l ++ [a; b]) with (l ++ [a] ++ [b]). rewrite app_assoc.
  apply last_last.
Qed.

Lemma removelast_app2 (l : list str) a b : removelast (l ++ [a; b]) = l ++ [a].
Proof.
  change (l ++ [a; b]) with (l ++ [a] ++ [b]). rewrite app_assoc.
  apply removelast_last.
Qed.

Lemma name_wf p : wf_path p = true -> comps p <> [] -> wf_comp (name p) = true.
Proof.
  unfold wf_path, name. intros H Hne.
  rewrite forallb_forall in H. apply H.
  destruct (comps p) as [|x l]; [congruence|].
  clear. revert x. induction l as [|y l IH]; intros x; [left; reflexivity|].
  right. apply (IH y).
Qed.

(** The stem of a proper name is a proper component, unless it is a
    single dot. *)
Lemma stem_wf p :
  wf_path p = true -> comps p <> [] -> stem p <> str_of "." ->
  wf_comp (stem p) = true.
Proof.
  intros H Hne Hdot. pose proof (name_wf p H Hne) as Hn.
  apply wf_comp_spec in Hn. destruct Hn as (N1 & N2 & N3).
  apply wf_comp_spec. unfold stem in *.
  destruct (rfind (ch ".") (name p)) as [i|]; [| auto].
  destruct (Nat.ltb 0 i && Nat.ltb i (length (name p) - 1)) eqn:E; [| auto].
  apply andb_prop in E. destruct E as [E1 E2].
  apply Nat.ltb_lt in E1. apply Nat.ltb_lt in E2.
  repeat split; auto.
  - intros E. apply (f_equal (@length char)) in E.
    rewrite length_firstn in E. simpl in E. lia.
  - apply char_in_firstn. exact N3.
Qed.

Lemma stem_name p q : name p = name q -> stem p = stem q.
Proof. unfold stem. intros ->. reflexivity. Qed.

(** The plan of [move_to_folder] for a file outside a folder of its
    own. *)
Lemma move_plan fp :
  wf_path fp = true -> name (parent fp) <> stem fp -> stem fp <> str_of "." ->
  truediv (truediv (parent fp) (stem fp)) (name fp) = in_own_folder fp.
Proof.
  intros Hwf Hneq Hdot.
  assert (Hne : comps fp <> []).
  { intros E. apply Hneq. unfold stem, name, parent. simpl. rewrite E. reflexivity. }
  rewrite (truediv_comp _ (name fp)) by (apply name_wf; auto).
  rewrite (truediv_comp _ (stem fp)) by (apply stem_wf; auto).
  unfold in_own_folder, parent. simpl. rewrite <- app_assoc. reflexivity.
Qed.

Lemma in_own_folder_settled fp :
  name (parent (in_own_folder fp)) = stem (in_own_folder fp).
Proof.
  assert (Hn : name (in_own_folder fp) = name fp)
    by (unfold name, in_own_folder; simpl; apply last_app2).
  rewrite (stem_name _ _ Hn).
  unfold name, parent, in_own_folder. simpl.
  rewrite removelast_app2. apply last_last.
Qed.

(* ================================================================= *)
(** ** [move_to_folder] *)

Lemma move_to_folder_settled w fp dry_run st :
  name (parent fp) = stem fp -> move_to_folder w fp dry_run st = (Ok None, st).
Proof.
  intros E. unfold move_to_folder. rewrite E, str_eqb_refl. reflexivity.
Qed.

Lemma str_eqb_neq a b : a <> b -> str_eqb a b = false.
Proof.
  intros H. destruct (str_eqb a b) eqn:E; [| reflexivity].
  apply str_eqb_eq in E. congruence.
Qed.

(** C8, as the claim states it, fails (with the paths of CPython 3.11):
    the stem of [..avi] is a single dot, which the path parser drops, so
    the path returned for [/foo/..avi] is that path again, not a path in
    a folder of its own, and organising it once more is no no-op. *)
Lemma move_to_folder_counterexample :
  stem (PurePosixPath (str_of "/foo/..avi")) = str_of "." /\
  suffix (PurePosixPath (str_of "/foo/..avi")) = str_of ".avi" /\
  name (parent (PurePosixPath (str_of "/foo/..avi"))) = str_of "foo" /\
  move_to_folder no_world (PurePosixPath (str_of "/foo/..avi")) true idle
    = (Ok (Some (PurePosixPath (str_of "/foo/..avi"))), idle) /\
  PurePosixPath (str_of "/foo/..avi")
    <> in_own_folder (PurePosixPath (str_of "/foo/..avi")).
Proof.
  repeat split; try (vm_compute; reflexivity).
  vm_compute. discriminate.
Qed.

(** C8, amended. For every path whose parent directory is named as the
    stem of the file, [move_to_folder] does nothing and returns nothing;
    for every other path whose stem is not a single dot it returns the
    path of the file inside a folder named as its stem (having made the
    folder and moved the file when the run is not a dry run and the two
    operations succeed), and called on the path it returned it does
    nothing; [/foo/bar.avi] yields [/foo/bar/bar.avi]. *)
Theorem move_to_folder_idempotent w fp :
  wf_path fp = true ->
  (name (parent fp) = stem fp ->
   forall dry_run st, move_to_folder w fp dry_run st = (Ok None, st)) /\
  (name (parent fp) <> stem fp -> stem fp <> str_of "." ->
   (forall st, move_to_folder w fp true st = (Ok (Some (in_own_folder fp)), st)) /\
   (forall st,
       fs_error w (fs_log st) (Mkdir (parent (in_own_folder fp))) = None ->
       fs_error w (Mkdir (parent (in_own_folder fp)) :: fs_log st)
                (Rename fp (in_own_folder fp)) = None ->
       move_to_folder w fp false st =
         (Ok (Some (in_own_folder fp)),
          log_fs (Rename fp (in_own_folder fp))
                 (log_fs (Mkdir (parent (in_own_folder fp))) st))) /\
   (forall dry_run st,
       move_to_folder w (in_own_folder fp) dry_run st = (Ok None, st))) /\
  (forall st,
      move_to_folder w (PurePosixPath (str_of "/foo/bar.avi")) true st
      = (Ok (Some (PurePosixPath (str_of "/foo/bar/bar.avi"))), st)) /\
  (forall st,
      move_to_folder w (PurePosixPath (str_of "/x/y (tmdb-1)/y (tmdb-1).avi")) true st
      = (Ok None, st)).
Proof.
  intros Hwf. split; [| split; [| split]].
  - intros E dry_run st. apply move_to_folder_settled. exact E.
  - intros Hneq Hdot. split; [| split].
    + intros st. unfold move_to_folder.
      rewrite (str_eqb_neq Hneq), move_plan by assumption. reflexivity.
    + intros st H1 H2. unfold move_to_folder.
      rewrite (str_eqb_neq Hneq), move_plan by assumption.
      cbn [negb]. unfold bind, fs_do. rewrite H1. cbn [log_fs fs_log].
      rewrite H2. reflexivity.
    + intros dry_run st. apply move_to_folder_settled.
      apply in_own_folder_settled.
  - intros st. reflexivity.
  - intros st. reflexivity.
Qed.

Lemma move_to_folder_idempotent_witness :
  move_to_folder no_world (PurePosixPath (str_of "/foo/bar.avi")) false idle
  = (Ok (Some (PurePosixPath (str_of "/foo/bar/bar.avi"))),
     log_fs (Rename (PurePosixPath (str_of "/foo/bar.avi"))
                    (PurePosixPath (str_of "/foo/bar/bar.avi")))
            (log_fs (Mkdir (PurePosixPath (str_of "/foo/bar"))) idle)) /\
  move_to_folder no_world (PurePosixPath (str_of "/foo/bar/bar.avi")) false idle
  = (Ok None, idle) /\
  move_to_folder no_world (PurePosixPath (str_of "/a/b/b.mkv")) true idle
  = (Ok None, idle).
Proof.
  destruct (@move_to_folder_idempotent no_world
              (PurePosixPath (str_of "/foo/bar.avi")) eq_refl)
    as (_ & H & _).
  destruct H as (_ & H2 & H3); [vm_compute; discriminate | vm_compute; discriminate |].
  split; [| split].
  - apply (H2 idle); reflexivity.
  - apply (H3 false idle).
  - apply (proj1 (@move_to_folder_idempotent no_world
                    (PurePosixPath (str_of "/a/b/b.mkv")) eq_refl)).
    reflexivity.
Defined.

(* ================================================================= *)
(** ** The driver *)

(** C9, as the claim states it, fails: a title may not hold a newline. *)
Lemma tvdb_stem_counterexample :
  [NEWLINE] <> [] /\
  length (str_of "1234") = 4 /\ decimal_digits (str_of "1234") = true /\
  str_of "1" <> [] /\ decimal_digits (str_of "1") = true /\
  looksCanonical (tagged_stem [NEWLINE] (str_of "1234") (ch "v") (str_of "1"))
    = false.
Proof. repeat split; try discriminate; vm_compute; reflexivity. Qed.

(** C9, amended. For every non-empty title without a newline, every year
    of four decimal digits and every non-empty text [d] of decimal
    digits, the stem with the tvdb tag is recognised as canonical, and
    the driver does not rename a video file of that stem: it sends no
    query, reads nothing at the prompt and leaves the count of changed
    files as it is. *)
Theorem tvdb_stem_canonical title y d :
  title <> [] -> no_newline title = true ->
  length y = 4 -> decimal_digits y = true ->
  d <> [] -> decimal_digits d = true ->
  looksCanonical (tagged_stem title y (ch "v") d) = true /\
  forall w confirm dry_run root file c st,
    stem (truediv (PurePosixPath root) file) = tagged_stem title y (ch "v") d ->
    existsb (str_eqb (lower (suffix (truediv (PurePosixPath root) file))))
            VIDEO_EXT = true ->
    exists r st',
      loop_body w confirm dry_run root file c st = (r, st') /\
      queries st' = queries st /\ stdin st' = stdin st /\
      forall c', r = Ok c' -> num_changed c' = num_changed c.
Proof.
  intros Ht Hn Hy Hyd Hd Hdd.
  assert (Hc : looksCanonical (tagged_stem title y (ch "v") d) = true)
    by (apply looksCanonical_shape, canonical_shape_tagged; auto).
  split; [exact Hc|].
  intros w confirm dry_run root file c st Hstem Hvideo.
  destruct (loop_body w confirm dry_run root file c st) as [r st'] eqn:E.
  exists r, st'. split; [reflexivity|].
  unfold loop_body in E. rewrite Hvideo, Hstem, Hc in E. cbn [negb] in E.
  unfold bind in E.
  pose proof (move_to_folder_queries w (truediv (PurePosixPath root) file) dry_run st) as Q.
  pose proof (move_to_folder_stdin w (truediv (PurePosixPath root) file) dry_run st) as S.
  destruct (move_to_folder w (truediv (PurePosixPath root) file) dry_run st)
    as [[[new_folder|]|e] st1]; simpl in Q, S;
    unfold ret in E; injection E as <- <-;
    (split; [exact Q | split; [exact S |]]);
    intros c' Hc'; try discriminate; injection Hc' as <-; reflexivity.
Qed.

Lemma tvdb_stem_canonical_witness :
  looksCanonical (str_of "a (1234) {tvdb-123}") = true /\
  exists r st',
    loop_body no_world true true (str_of "/m") (str_of "a (1234) {tvdb-123}.avi")
              {| num_changed := 0; num_files_moved := 0 |} idle = (r, st') /\
    queries st' = queries idle /\ stdin st' = stdin idle /\
    forall c', r = Ok c' -> num_changed c' = 0.
Proof.
  destruct (@tvdb_stem_canonical (str_of "a") (str_of "1234") (str_of "123"))
    as [A B];
    [ discriminate | reflexivity | reflexivity | reflexivity
    | discriminate | reflexivity | ].
  split; [exact A|].
  apply (B no_world true true (str_of "/m") (str_of "a (1234) {tvdb-123}.avi"));
    reflexivity.
Defined.

(** C5. The code at the failing input: [/foo/bar/baz.avi] is renamed and
    then moved into a folder of its own, and the run ends with one file
    changed and no file moved. *)
Theorem loop_path_moved_not_counted :
  loop_path one_result_world [(str_of "/foo/bar", [str_of "baz.avi"])] false false idle
  = (Ok {| num_changed := 1; num_files_moved := 0 |},
     {| stdin := [];
        fs_log :=
          [ Rename (PurePosixPath (str_of "/foo/bar/foo (2031) {tmdb-123}.avi"))
                   (PurePosixPath
                      (str_of "/foo/bar/foo (2031) {tmdb-123}/foo (2031) {tmdb-123}.avi"));
            Mkdir (PurePosixPath (str_of "/foo/bar/foo (2031) {tmdb-123}"));
            Rename (PurePosixPath (str_of "/foo/bar/baz.avi"))
                   (PurePosixPath (str_of "/foo/bar/foo (2031) {tmdb-123}.avi")) ];
        queries := [str_of "baz"] |}).
Proof. vm_compute. reflexivity. Qed.

(** The sibling path counts the move: a file that is already named
    canonically and is moved into its folder is counted as moved. *)
Example loop_path_moved_counted :
  fst (loop_path one_result_world
         [(str_of "/foo/bar", [str_of "foo (2031) {tmdb-123}.avi"])] false false idle)
  = Ok {| num_changed := 0; num_files_moved := 1 |}.
Proof. vm_compute. reflexivity. Qed.

(** Whatever the file and the world, a file that is renamed leaves the
    count of moved files as it was. *)
Lemma loop_body_rename_moved w confirm dry_run root file c st c' st' :
  looksCanonical (stem (truediv (PurePosixPath root) file)) = false ->
  loop_body w confirm dry_run root file c st = (Ok c', st') ->
  num_files_moved c' = num_files_moved c.
Proof.
  intros Hc E. unfold loop_body in E. rewrite Hc in E.
  destruct (negb (existsb _ VIDEO_EXT)); [injection E as <- _; reflexivity|].
  unfold bind in E.
  destruct (search w _ _ st) as [[[results|]|e] st1]; try discriminate;
    [| injection E as <- _; reflexivity].
  destruct (ask_user w results file confirm st1) as [[sel|e] st2]; try discriminate.
  destruct (create_new_filepath _ sel st2) as [[new_fp|e] st3]; try discriminate.
  match type of E with
  | (let (_, _) := ?m in _) = _ => destruct m as [[u|e] st4]
  end; try discriminate.
  injection E as <- _. reflexivity.
Qed.

(* ================================================================= *)
(** ** [ask_user] *)

Lemma int_of_str_nonempty limit val v :
  int_of_str limit val = Some v -> str_eqb val [] = false.
Proof. destruct val; [discriminate | reflexivity]. Qed.

Lemma lower_char_nonempty c : lower_char c <> [].
Proof.
  unfold lower_char.
  destruct ((65 <=? c) && (c <=? 90))%N; [discriminate|].
  destruct (c =? 8490)%N; [discriminate|].
  destruct (c =? 304)%N; discriminate.
Qed.

(** Only the two letters have [b] for a lowercase form. *)
Lemma lower_b val : lower val = str_of "b" -> val = str_of "b" \/ val = str_of "B".
Proof.
  destruct val as [|c t]; [discriminate|].
  unfold lower. cbn [flat_map]. intros H.
  assert (Ht : t = []).
  { destruct t as [|c' t']; [reflexivity|]. exfalso.
    cbn [flat_map] in H. apply (f_equal (@length char)) in H.
    rewrite !length_app in H.
    pose proof (@lower_char_nonempty c) as Hc.
    pose proof (@lower_char_nonempty c') as Hc'.
    destruct (lower_char c); [congruence|].
    destruct (lower_char c'); [congruence|]. simpl in H. lia. }
  subst t. cbn [flat_map] in H. rewrite app_nil_r in H.
  change (str_of "b") with [98%N] in *. change (str_of "B") with [66%N].
  unfold lower_char in H.
  destruct ((65 <=? c) && (c <=? 90))%N.
  - injection H as H. right. f_equal. lia.
  - destruct (c =? 8490)%N; [discriminate|].
    destruct (c =? 304)%N; [discriminate|].
    injection H as ->. left. reflexivity.
Qed.

Lemma int_of_str_not_b limit val v :
  int_of_str limit val = Some v -> str_eqb (lower val) (str_of "b") = false.
Proof.
  intros H. destruct (str_eqb (lower val) (str_of "b")) eqn:E; [| reflexivity].
  apply str_eqb_eq in E. apply lower_b in E.
  destruct E as [-> | ->]; vm_compute in H; discriminate H.
Qed.

(** The prompt is shown: there are several results, or the single one is
    to be confirmed. *)
Lemma ask_user_prompts w results file confirm st :
  (length results = 1 -> confirm = true) ->
  ask_user w results file confirm st =
  (let (r, lines) := ask_loop w results 0 (stdin st) in (r, set_stdin lines st)).
Proof.
  intros H. unfold ask_user.
  destruct results as [|r0 [|r1 rs]]; try reflexivity.
  rewrite (H eq_refl). reflexivity.
Qed.

(** The lines a debugger session has read are lines the prompt does not
    get. *)
Lemma ask_loop_skip w results : forall skip lines,
  ask_loop w results skip lines = ask_loop w results 0 (skipn skip lines).
Proof.
  induction skip as [|skip IH]; intros lines; [reflexivity|].
  destruct lines as [|val lines]; [reflexivity|].
  cbn [ask_loop skipn]. apply IH.
Qed.

(** One turn of the loop at a line that does not open the debugger. *)
Lemma ask_loop_line w results val lines :
  str_eqb (lower val) (str_of "b") = false ->
  ask_loop w results 0 (val :: lines) =
  match (if str_eqb val [] then Some 1%Z
         else int_of_str (int_max_str_digits w) val) with
  | None => ask_loop w results 0 lines
  | Some v =>
      if (v =? 0)%Z then (Raise (RuntimeError (str_of "User aborted")), lines)
      else if (v <? 0)%Z || (Z.of_nat (length results) <? v)%Z
      then ask_loop w results 0 lines
      else match nth_error results (Z.to_nat (v - 1)) with
           | Some selection => (Ok selection, lines)
           | None => (Raise IndexError, lines)
           end
  end.
Proof. intros H. cbn [ask_loop]. rewrite H. reflexivity. Qed.

(** One turn of the loop at a line that opens the debugger: the line
    itself is no integer, so that the prompt repeats when the session
    returns. *)
Lemma ask_loop_breakpoint w results val lines read session :
  lower val = str_of "b" ->
  breakpointhook w lines = (read, session) ->
  ask_loop w results 0 (val :: lines) =
  match session with
  | Ok _ => ask_loop w results 0 (skipn read lines)
  | Raise e => (Raise e, skipn read lines)
  end.
Proof.
  intros Hb Hhook. cbn [ask_loop]. rewrite Hb, str_eqb_refl, Hhook.
  destruct session as [u|e]; [| reflexivity].
  apply lower_b in Hb.
  assert (E : (if str_eqb val [] then Some 1%Z
               else int_of_str (int_max_str_digits w) val) = None)
    by (destruct Hb as [-> | ->]; vm_compute; reflexivity).
  rewrite E. apply ask_loop_skip.
Qed.

(** An exception in the body ends the loop. *)
Lemma for_each_raise {A S : Type} (body : A -> S -> M S) x l s st e st' :
  body x s st = (Raise e, st') ->
  for_each (x :: l) body s st = (Raise e, st').
Proof. intros H. cbn [for_each]. unfold bind. rewrite H. reflexivity. Qed.

Lemma for_each_app {A S : Type} (body : A -> S -> M S) l1 l2 : forall s st,
  for_each (l1 ++ l2) body s st =
  match for_each l1 body s st with
  | (Ok s', st') => for_each l2 body s' st'
  | (Raise e, st') => (Raise e, st')
  end.
Proof.
  induction l1 as [|x l1 IH]; intros s st; [reflexivity|].
  cbn [app for_each]. unfold bind.
  destruct (body x s st) as [[s1|e] st1]; [apply IH | reflexivity].
Qed.

(** Nothing in [loop_path] catches what [ask_user] raises: the exception
    leaves the run, in the state in which [ask_user] left it. *)
Lemma loop_path_ask_raises w confirm dry_run st walk file results st2 e st3 :
  results <> [] ->
  asks w confirm dry_run st walk file results st2 ->
  ask_user w results file confirm st2 = (Raise e, st3) ->
  loop_path w walk confirm dry_run st = (Raise e, st3).
Proof.
  intros Hne (before & root & files & after & pre & post & c1 & st1 & c2 & st0
              & -> & Hsorted & Hbefore & Hpre & Hv & Hc & Hs & ->) Ha.
  unfold loop_path in *. rewrite for_each_app, Hbefore.
  apply for_each_raise. cbn [fst snd]. rewrite Hsorted, for_each_app, Hpre.
  apply for_each_raise. unfold loop_body.
  change (existsb (str_eqb (lower (suffix (truediv (PurePosixPath root) file))))
                  VIDEO_EXT)
    with (is_video (truediv (PurePosixPath root) file)).
  rewrite Hv, Hc. cbn [negb]. unfold bind at 1. unfold search. rewrite Hs.
  destruct results as [|r0 rs]; [congruence|].
  unfold bind at 1. rewrite Ha. reflexivity.
Qed.

(** C6, as the claim states it, fails: the line [b] is no integer, and
    yet the prompt does not repeat after it when the debugger it opens
    quits. With pdb, the debugger by default, the line [2] typed next
    goes to the debugger and the end of the input raises [bdb.BdbQuit];
    had the prompt repeated, that line would have chosen the second
    result. *)
Lemma ask_user_prompt_counterexample :
  two_results <> [] /\
  int_of_str (int_max_str_digits (debugger_world debugger_quits)) (str_of "b")
    = None /\
  ask_user (debugger_world debugger_quits) two_results (str_of "x.avi") false
           (set_stdin [str_of "b"; str_of "2"] idle)
    = (Raise BdbQuit, idle) /\
  ask_user (debugger_world debugger_quits) two_results (str_of "x.avi") false
           (set_stdin [str_of "b"; str_of "2"] idle)
    <> ask_user (debugger_world debugger_quits) two_results (str_of "x.avi") false
                (set_stdin [str_of "2"] idle).
Proof.
  split; [discriminate|]. split; [vm_compute; reflexivity|].
  split; [vm_compute; reflexivity|]. vm_compute. discriminate.
Qed.

(** C6, amended. At the prompt of [ask_user] over a non-empty list of
    results (several, or one that is to be confirmed):

    - a line that [int] reads as 0 raises the error of an abort; nothing
      in [loop_path] catches it, at whichever file of the walk it is
      typed, so that the run ends there, in the state of that moment:
      without a filesystem operation for this file or for any later one,
      and without its closing report;
    - a line other than [b] and [B] that is no integer, or an integer out
      of range, is rejected and the next line is read;
    - a line [b] or [B] first opens the debugger: when its session
      returns, the line is rejected and the prompt reads the line after
      those the debugger has read; when it ends with an exception, such
      as [bdb.BdbQuit], that exception leaves [ask_user] and ends the
      run like the abort;
    - an empty line selects the first result;
    - a line that reads as [n], from 1 to the number of results, selects
      the [n]-th. *)
Theorem ask_user_prompt w results original_file confirm :
  results <> [] -> (length results = 1 -> confirm = true) ->
  (forall val lines st,
      stdin st = val :: lines ->
      int_of_str (int_max_str_digits w) val = Some 0%Z ->
      ask_user w results original_file confirm st
      = (Raise (RuntimeError (str_of "User aborted")), set_stdin lines st)) /\
  (forall dry_run walk st st' val lines,
      asks w confirm dry_run st walk original_file results st' ->
      stdin st' = val :: lines ->
      int_of_str (int_max_str_digits w) val = Some 0%Z ->
      loop_path w walk confirm dry_run st
      = (Raise (RuntimeError (str_of "User aborted")), set_stdin lines st')) /\
  (forall val lines st,
      stdin st = val :: lines -> val <> [] -> lower val <> str_of "b" ->
      (int_of_str (int_max_str_digits w) val = None \/
       exists v, int_of_str (int_max_str_digits w) val = Some v /\
                 (v < 0 \/ Z.of_nat (length results) < v)%Z) ->
      ask_user w results original_file confirm st
      = ask_user w results original_file confirm (set_stdin lines st)) /\
  (forall val lines st read session,
      stdin st = val :: lines -> lower val = str_of "b" ->
      breakpointhook w lines = (read, session) ->
      ask_user w results original_file confirm st
      = match session with
        | Ok _ => ask_user w results original_file confirm
                    (set_stdin (skipn read lines) st)
        | Raise e => (Raise e, set_stdin (skipn read lines) st)
        end) /\
  (forall dry_run walk st st' val lines read e,
      asks w confirm dry_run st walk original_file results st' ->
      stdin st' = val :: lines -> lower val = str_of "b" ->
      breakpointhook w lines = (read, Raise e) ->
      loop_path w walk confirm dry_run st
      = (Raise e, set_stdin (skipn read lines) st')) /\
  (forall lines st,
      stdin st = [] :: lines ->
      exists first, nth_error results 0 = Some first /\
                    ask_user w results original_file confirm st
                    = (Ok first, set_stdin lines st)) /\
  (forall val n lines st,
      stdin st = val :: lines ->
      int_of_str (int_max_str_digits w) val = Some n ->
      (1 <= n <= Z.of_nat (length results))%Z ->
      exists selection,
        nth_error results (Z.to_nat (n - 1)) = Some selection /\
        ask_user w results original_file confirm st
        = (Ok selection, set_stdin lines st)).
Proof.
  intros Hne Hprompt.
  assert (Habort : forall val lines st,
      stdin st = val :: lines ->
      int_of_str (int_max_str_digits w) val = Some 0%Z ->
      ask_user w results original_file confirm st
      = (Raise (RuntimeError (str_of "User aborted")), set_stdin lines st)).
  { intros val lines st Hs Hv. rewrite ask_user_prompts by exact Hprompt.
    rewrite Hs, ask_loop_line by exact (int_of_str_not_b _ _ Hv).
    rewrite (int_of_str_nonempty _ _ Hv), Hv. reflexivity. }
  assert (Hdebug : forall val lines st read session,
      stdin st = val :: lines -> lower val = str_of "b" ->
      breakpointhook w lines = (read, session) ->
      ask_user w results original_file confirm st
      = match session with
        | Ok _ => ask_user w results original_file confirm
                    (set_stdin (skipn read lines) st)
        | Raise e => (Raise e, set_stdin (skipn read lines) st)
        end).
  { intros val lines st read session Hs Hb Hhook.
    rewrite ask_user_prompts by exact Hprompt.
    rewrite Hs, (ask_loop_breakpoint w results val lines Hb Hhook).
    destruct session as [u|e]; [| reflexivity].
    rewrite ask_user_prompts by exact Hprompt.
    cbn [set_stdin stdin fs_log queries].
    destruct (ask_loop w results 0 (skipn read lines)); reflexivity. }
  split; [exact Habort|]. split; [| split; [| split; [exact Hdebug|]]];
    [| | split; [| split]].
  - intros dry_run walk st st' val lines Hasks Hs Hv.
    apply (loop_path_ask_raises Hne Hasks).
    apply (Habort val lines st'); assumption.
  - intros val lines st Hs Hval Hb Hv.
    rewrite !ask_user_prompts by exact Hprompt.
    assert (Hb' : str_eqb (lower val) (str_of "b") = false)
      by (apply str_eqb_neq; exact Hb).
    rewrite Hs, ask_loop_line by exact Hb'.
    cbn [set_stdin stdin fs_log queries].
    rewrite (str_eqb_neq Hval).
    destruct Hv as [Hv | (v & Hv & Hr)]; rewrite Hv.
    + destruct (ask_loop w results 0 lines); reflexivity.
    + assert (E0 : (v =? 0)%Z = false)
        by (apply Z.eqb_neq; intros ->; destruct Hr; lia).
      assert (E1 : (v <? 0)%Z || (Z.of_nat (length results) <? v)%Z = true).
      { apply orb_true_iff. destruct Hr; [left | right]; apply Z.ltb_lt; lia. }
      rewrite E0, E1. destruct (ask_loop w results 0 lines); reflexivity.
  - intros dry_run walk st st' val lines read e Hasks Hs Hb Hhook.
    apply (loop_path_ask_raises Hne Hasks).
    apply (Hdebug val lines st' read (Raise e)); assumption.
  - intros lines st Hs. destruct results as [|first rs]; [congruence|].
    exists first. split; [reflexivity|].
    rewrite ask_user_prompts by exact Hprompt.
    rewrite Hs, ask_loop_line by reflexivity.
    assert (E1 : (Z.of_nat (length (first :: rs)) <? 1)%Z = false)
      by (apply Z.ltb_ge; cbn [length]; lia).
    cbn [str_eqb]. change (1 =? 0)%Z with false.
    change (1 <? 0)%Z with false. cbn [orb]. rewrite E1. reflexivity.
  - intros val n lines st Hs Hv Hn.
    destruct (nth_error results (Z.to_nat (n - 1))) as [selection|] eqn:E.
    + exists selection. split; [reflexivity|].
      rewrite ask_user_prompts by exact Hprompt.
      rewrite Hs, ask_loop_line by exact (int_of_str_not_b _ _ Hv).
      rewrite (int_of_str_nonempty _ _ Hv), Hv.
      assert (E0 : (n =? 0)%Z = false) by (apply Z.eqb_neq; lia).
      assert (E1 : (n <? 0)%Z || (Z.of_nat (length results) <? n)%Z = false).
      { apply orb_false_iff. split; apply Z.ltb_ge; lia. }
      rewrite E0, E1, E. reflexivity.
    + apply nth_error_None in E. lia.
Qed.

Lemma ask_user_prompt_witness :
  ask_user two_results_world two_results (str_of "x.avi") false
           (set_stdin [str_of "0"] idle)
    = (Raise (RuntimeError (str_of "User aborted")), idle) /\
  loop_path (debugger_world debugger_quits) three_directories false false
            (set_stdin [str_of "1"; str_of " 0 "; str_of "2"] idle)
    = (Raise (RuntimeError (str_of "User aborted")), asked_about_x [str_of "2"]) /\
  ask_user two_results_world two_results (str_of "x.avi") false
           (set_stdin [str_of "two"; str_of "2"] idle)
    = ask_user two_results_world two_results (str_of "x.avi") false
               (set_stdin [str_of "2"] idle) /\
  ask_user two_results_world two_results (str_of "x.avi") false
           (set_stdin [str_of "3"; str_of "2"] idle)
    = ask_user two_results_world two_results (str_of "x.avi") false
               (set_stdin [str_of "2"] idle) /\
  ask_user (debugger_world debugger_continues) two_results (str_of "x.avi") false
           (set_stdin [str_of "B"; str_of "c"; str_of "2"] idle)
    = ask_user (debugger_world debugger_continues) two_results (str_of "x.avi") false
               (set_stdin [str_of "2"] idle) /\
  ask_user (debugger_world debugger_quits) two_results (str_of "x.avi") false
           (set_stdin [str_of "b"; str_of "2"] idle)
    = (Raise BdbQuit, idle) /\
  loop_path (debugger_world debugger_quits) three_directories false false
            (set_stdin [str_of "1"; str_of "b"; str_of "2"] idle)
    = (Raise BdbQuit, asked_about_x []) /\
  (exists first,
      nth_error two_results 0 = Some first /\
      ask_user two_results_world two_results (str_of "x.avi") false
               (set_stdin [[]] idle)
      = (Ok first, idle)) /\
  (exists selection,
      nth_error two_results 1 = Some selection /\
      ask_user two_results_world two_results (str_of "x.avi") false
               (set_stdin [str_of "2"] idle)
      = (Ok selection, idle)).
Proof.
  destruct (@ask_user_prompt two_results_world two_results (str_of "x.avi") false)
    as (A & _ & C & _ & _ & F & G); [discriminate | discriminate |].
  destruct (@ask_user_prompt (debugger_world debugger_quits) two_results
              (str_of "x.avi") false)
    as (_ & B & _ & D & E & _ & _); [discriminate | discriminate |].
  destruct (@ask_user_prompt (debugger_world debugger_continues) two_results
              (str_of "x.avi") false)
    as (_ & _ & _ & D' & _ & _ & _); [discriminate | discriminate |].
  assert (Hasks : forall lines,
             asks (debugger_world debugger_quits) false false
                  (set_stdin (str_of "1" :: lines) idle)
                  three_directories (str_of "x.avi") two_results
                  (asked_about_x lines)).
  { intros lines.
    exists [(str_of "/k", [str_of "a.txt"])], (str_of "/m"),
           [str_of "x.avi"; str_of "w.avi"], [(str_of "/n", [str_of "y.avi"])],
           [str_of "w.avi"], [],
           {| num_changed := 0; num_files_moved := 0 |},
           (set_stdin (str_of "1" :: lines) idle),
           {| num_changed := 1; num_files_moved := 0 |},
           {| stdin := lines; fs_log := fs_log (asked_about_x lines);
              queries := [str_of "w"] |}.
    repeat split; reflexivity. }
  split; [| split; [| split; [| split; [| split; [| split; [| split; [| split]]]]]]].
  - apply (A (str_of "0") [] (set_stdin [str_of "0"] idle)); reflexivity.
  - apply (B false three_directories
             (set_stdin [str_of "1"; str_of " 0 "; str_of "2"] idle)
             (asked_about_x [str_of " 0 "; str_of "2"]) (str_of " 0 ") [str_of "2"]);
      [apply Hasks | reflexivity | reflexivity].
  - apply (C (str_of "two") [str_of "2"]
             (set_stdin [str_of "two"; str_of "2"] idle));
      [reflexivity | discriminate | discriminate |].
    left. reflexivity.
  - apply (C (str_of "3") [str_of "2"]
             (set_stdin [str_of "3"; str_of "2"] idle));
      [reflexivity | discriminate | discriminate |].
    right. exists 3%Z. split; [reflexivity | right; simpl; lia].
  - apply (D' (str_of "B") [str_of "c"; str_of "2"]
              (set_stdin [str_of "B"; str_of "c"; str_of "2"] idle) 1 (Ok tt));
      reflexivity.
  - apply (D (str_of "b") [str_of "2"]
             (set_stdin [str_of "b"; str_of "2"] idle) 1 (Raise BdbQuit));
      reflexivity.
  - apply (E false three_directories
             (set_stdin [str_of "1"; str_of "b"; str_of "2"] idle)
             (asked_about_x [str_of "b"; str_of "2"]) (str_of "b") [str_of "2"]
             1 BdbQuit);
      [apply Hasks | reflexivity | reflexivity | reflexivity].
  - apply (F [] (set_stdin [[]] idle)). reflexivity.
  - apply (G (str_of "2") 2%Z [] (set_stdin [str_of "2"] idle));
      [reflexivity | reflexivity | simpl; lia].
Defined.

(* ================================================================= *)
(** ** More on the stages of the query *)

Lemma after_first_split c pre rest :
  char_in c pre = false -> after_first c (pre ++ c :: rest) = rest.
Proof.
  induction pre as [|x pre IH]; intros H; cbn [app after_first].
  - rewrite N.eqb_refl. reflexivity.
  - apply char_in_cons_false in H. destruct H as [Hx Hp].
    rewrite Hx. apply IH. exact Hp.
Qed.

Lemma count_char_none c s : char_in c s = false -> count_char c s = 0.
Proof.
  induction s as [|x s IH]; intros H; [reflexivity|].
  apply char_in_cons_false in H. destruct H as [Hx Hs].
  unfold count_char in *. cbn [filter]. rewrite N.eqb_sym, Hx. auto.
Qed.

(** X1. What [_strip_leading_info] does on every input: a text without a
    newline that holds two hyphens or more becomes the text behind its
    first hyphen, trimmed; any other text is returned as it is. *)
Theorem _strip_leading_info_behaviour data :
  _strip_leading_info data =
  if no_newline data && Nat.leb 2 (count_char HYPHEN data)
  then strip (after_first HYPHEN data)
  else data.
Proof.
  destruct (no_newline data) eqn:Hn; cbn [andb];
    [| apply _strip_leading_info_unchanged; auto].
  destruct (Nat.leb 2 (count_char HYPHEN data)) eqn:Hc.
  - apply Nat.leb_le in Hc.
    destruct (first_split HYPHEN data) as (pre & rest & E & Hp);
      [apply count_char_in; lia|].
    subst data. rewrite after_first_split by exact Hp.
    apply _strip_leading_info_match; auto.
    apply count_char_in.
    rewrite count_char_app, count_char_cons_same, (count_char_none _ _ Hp) in Hc.
    lia.
  - apply Nat.leb_gt in Hc. apply _strip_leading_info_unchanged. auto.
Qed.

Lemma length_drop_while p s : length (drop_while p s) <= length s.
Proof.
  induction s as [|c s IH]; simpl; [lia|]. destruct (p c); simpl; lia.
Qed.

Lemma length_strip s : length (strip s) <= length s.
Proof.
  unfold strip, rstrip, lstrip. rewrite length_rev.
  etransitivity; [apply length_drop_while|]. rewrite length_rev.
  apply length_drop_while.
Qed.

Lemma count_char_drop_while c p s :
  count_char c (drop_while p s) <= count_char c s.
Proof.
  induction s as [|x s IH]; simpl; [lia|]. destruct (p x); [| lia].
  unfold count_char in *. cbn [filter]. destruct (N.eqb c x); simpl; lia.
Qed.

Lemma count_char_rev c s : count_char c (rev s) = count_char c s.
Proof.
  induction s as [|x s IH]; [reflexivity|].
  cbn [rev]. rewrite count_char_app, IH.
  unfold count_char. cbn [filter]. destruct (N.eqb c x); simpl; lia.
Qed.

Lemma count_char_strip c s : count_char c (strip s) <= count_char c s.
Proof.
  unfold strip, rstrip, lstrip. rewrite count_char_rev.
  etransitivity; [apply count_char_drop_while|]. rewrite count_char_rev.
  apply count_char_drop_while.
Qed.

Lemma YearsRemoved_length data out : YearsRemoved data out -> length out <= length data.
Proof.
  induction 1; simpl; try lia. rewrite length_app. lia.
Qed.

Lemma length_remove_years data : length (remove_years data) <= length data.
Proof.
  apply YearsRemoved_length.
  apply remove_years_YearsRemoved with (n := length data). lia.
Qed.

(** X2. [_strip_year] never returns a longer text than it was given, and
    on a text without an opening bracket or parenthesis it only trims
    the white space around it. *)
Theorem _strip_year_shrinks data :
  length (_strip_year data) <= length data /\
  (char_in (ch "[") data = false -> char_in (ch "(") data = false ->
   _strip_year data = strip data).
Proof.
  rewrite _strip_year_remove_years. split.
  - etransitivity; [apply length_strip | apply length_remove_years].
  - intros H1 H2. rewrite remove_years_none by assumption. reflexivity.
Qed.

Lemma _strip_year_shrinks_witness :
  _strip_year (str_of " Youth in Revolt ") = strip (str_of " Youth in Revolt ").
Proof.
  apply (proj2 (_strip_year_shrinks (str_of " Youth in Revolt "))); reflexivity.
Defined.

Lemma drop_while_split p s :
  exists pre, s = pre ++ drop_while p s /\ forallb p pre = true.
Proof.
  induction s as [|c s IH]; [exists []; auto|].
  cbn [drop_while]. destruct (p c) eqn:Hc.
  - destruct IH as (pre & E & Hp). exists (c :: pre). cbn [app forallb].
    rewrite Hc, Hp. rewrite <- E. auto.
  - exists []. auto.
Qed.

Lemma drop_while_head p s :
  match drop_while p s with
  | c :: _ => p c = false
  | [] => True
  end.
Proof.
  induction s as [|c s IH]; [exact I|].
  cbn [drop_while]. destruct (p c) eqn:Hc; [exact IH | exact Hc].
Qed.

Lemma drop_while_idem p s : drop_while p (drop_while p s) = drop_while p s.
Proof.
  pose proof (drop_while_head p s) as H.
  destruct (drop_while p s) as [|c t]; [reflexivity|].
  cbn [drop_while]. rewrite H. reflexivity.
Qed.

(** X3. [_strip_leading_number] removes a leading run of ASCII digits,
    blanks and hyphens and nothing else: the input is that run followed
    by the result, the result does not begin with such a character, and
    stripping it again changes nothing. *)
Theorem _strip_leading_number_run data :
  (exists run, data = run ++ _strip_leading_number data /\
               only_chars (str_of "0123456789 -") run = true) /\
  match _strip_leading_number data with
  | c :: _ => char_in c (str_of "0123456789 -") = false
  | [] => True
  end /\
  _strip_leading_number (_strip_leading_number data) = _strip_leading_number data.
Proof.
  unfold _strip_leading_number, lstrip_chars, only_chars.
  split; [apply drop_while_split|].
  split; [apply (drop_while_head (fun c => char_in c (str_of "0123456789 -")))|].
  apply drop_while_idem.
Qed.

Lemma split_cons_sep c a t :
  char_in c a = false -> split c (a ++ c :: t) = a :: split c t.
Proof.
  induction a as [|x a IH]; intros H; cbn [app split].
  - rewrite N.eqb_refl. reflexivity.
  - apply char_in_cons_false in H. destruct H as [Hx Ha].
    rewrite Hx, (IH Ha). reflexivity.
Qed.

Lemma length_split c s : length (split c s) = S (count_char c s).
Proof.
  induction s as [|x s IH]; [reflexivity|].
  cbn [split]. unfold count_char in *. cbn [filter].
  rewrite (N.eqb_sym c x). destruct (N.eqb x c).
  - simpl. rewrite IH. reflexivity.
  - destruct (split c s) as [|seg segs]; simpl in *; lia.
Qed.

(** A text with two separators or more reads [a c b c rest], with no
    separator in [a] and [b]. *)
Lemma two_separators c s :
  2 <= count_char c s ->
  exists a b rest, s = a ++ c :: b ++ c :: rest /\
                   char_in c a = false /\ char_in c b = false.
Proof.
  intros H.
  destruct (first_split c s) as (a & t & -> & Ha); [apply count_char_in; lia|].
  rewrite count_char_app, count_char_cons_same, (count_char_none _ _ Ha) in H.
  destruct (first_split c t) as (b & rest & -> & Hb); [apply count_char_in; lia|].
  exists a, b, rest. auto.
Qed.

Lemma first_couple_two a b rest :
  char_in DOT a = false -> char_in DOT b = false ->
  _first_couple_words_from_dots (a ++ DOT :: b ++ DOT :: rest)
  = a ++ str_of " " ++ b.
Proof.
  intros Ha Hb. unfold _first_couple_words_from_dots.
  change (ch ".") with DOT.
  rewrite (split_cons_sep _ _ _ Ha), (split_cons_sep _ _ _ Hb).
  pose proof (length_split DOT rest) as L.
  destruct (split DOT rest) as [|seg segs]; [discriminate|].
  reflexivity.
Qed.

Lemma first_couple_few data :
  count_char DOT data <= 1 -> _first_couple_words_from_dots data = data.
Proof.
  intros H. unfold _first_couple_words_from_dots. change (ch ".") with DOT.
  rewrite length_split.
  replace (Nat.ltb 2 (S (count_char DOT data))) with false; [reflexivity|].
  symmetry. apply Nat.ltb_ge. lia.
Qed.

Lemma first_couple_dots data :
  count_char DOT (_first_couple_words_from_dots data) <= 1.
Proof.
  destruct (le_lt_dec (count_char DOT data) 1) as [H | H].
  - rewrite first_couple_few by exact H. exact H.
  - destruct (two_separators DOT data) as (a & b & rest & -> & Ha & Hb); [lia|].
    rewrite first_couple_two by assumption.
    rewrite !count_char_app, (count_char_none _ _ Ha), (count_char_none _ _ Hb).
    simpl. lia.
Qed.

(** X4. [_first_couple_words_from_dots] keeps a text with at most one
    dot as it is; of a text with two dots or more it keeps the two parts
    before the first two dots, joined by one blank. The result holds at
    most one dot, so the stage applied twice does what it does once. *)
Theorem _first_couple_words_from_dots_behaviour data :
  (count_char DOT data <= 1 -> _first_couple_words_from_dots data = data) /\
  (forall a b rest,
      data = a ++ DOT :: b ++ DOT :: rest ->
      char_in DOT a = false -> char_in DOT b = false ->
      _first_couple_words_from_dots data = a ++ str_of " " ++ b) /\
  count_char DOT (_first_couple_words_from_dots data) <= 1 /\
  _first_couple_words_from_dots (_first_couple_words_from_dots data)
  = _first_couple_words_from_dots data.
Proof.
  split; [apply first_couple_few|].
  split; [intros a b rest -> Ha Hb; apply first_couple_two; assumption|].
  split; [apply first_couple_dots|].
  apply first_couple_few, first_couple_dots.
Qed.

Lemma _first_couple_words_from_dots_behaviour_witness :
  _first_couple_words_from_dots (str_of "Mr. Nobody") = str_of "Mr. Nobody" /\
  _first_couple_words_from_dots (str_of "Some.Long.Title.2009.XviD")
  = str_of "Some" ++ str_of " " ++ str_of "Long".
Proof.
  split.
  - apply (proj1 (_first_couple_words_from_dots_behaviour (str_of "Mr. Nobody"))).
    vm_compute. lia.
  - apply (proj1 (proj2 (_first_couple_words_from_dots_behaviour
                           (str_of "Some.Long.Title.2009.XviD")))
             (str_of "Some") (str_of "Long") (str_of "Title.2009.XviD"));
      reflexivity.
Defined.

Lemma length_first_couple data :
  length (_first_couple_words_from_dots data) <= length data.
Proof.
  destruct (le_lt_dec (count_char DOT data) 1) as [H | H].
  - rewrite first_couple_few by exact H. lia.
  - destruct (two_separators DOT data) as (a & b & rest & -> & Ha & Hb); [lia|].
    rewrite first_couple_two by assumption.
    rewrite !length_app. simpl. rewrite !length_app. simpl. lia.
Qed.

Lemma length_strip_leading_info data :
  length (_strip_leading_info data) <= length data.
Proof.
  destruct (_strip_leading_info_cases data) as [E | (pre & rest & E1 & E2)].
  - rewrite E. lia.
  - rewrite E2. subst data. etransitivity; [apply length_strip|].
    rewrite length_app. simpl. lia.
Qed.

(** X5. The query [get_search_term_from_fn] derives is never longer than
    the stem it is derived from, and holds at most one dot. *)
Theorem get_search_term_from_fn_bounds fn :
  length (get_search_term_from_fn fn) <= length fn /\
  count_char DOT (get_search_term_from_fn fn) <= 1.
Proof.
  unfold get_search_term_from_fn. split; [| apply first_couple_dots].
  etransitivity; [apply length_first_couple|].
  unfold _strip_leading_number, lstrip_chars.
  etransitivity; [apply length_drop_while|].
  etransitivity; [apply length_strip_leading_info|].
  rewrite _strip_year_remove_years.
  etransitivity; [apply length_strip | apply length_remove_years].
Qed.

(** X6. A stem with no opening bracket or parenthesis, fewer than two
    hyphens and at most one dot, which once trimmed does not begin with
    an ASCII digit or a hyphen, is its own query, trimmed. *)
Theorem get_search_term_from_fn_plain fn :
  char_in (ch "[") fn = false -> char_in (ch "(") fn = false ->
  count_char HYPHEN fn < 2 -> count_char DOT fn <= 1 ->
  match strip fn with
  | c :: _ => char_in c (str_of "0123456789 -") = false
  | [] => True
  end ->
  get_search_term_from_fn fn = strip fn.
Proof.
  intros H1 H2 Hh Hd Hc. unfold get_search_term_from_fn.
  rewrite _strip_year_remove_years, remove_years_none by assumption.
  rewrite _strip_leading_info_unchanged
    by (left; pose proof (count_char_strip HYPHEN fn); lia).
  assert (E : _strip_leading_number (strip fn) = strip fn).
  { unfold _strip_leading_number, lstrip_chars.
    destruct (strip fn) as [|c t]; [reflexivity|].
    cbn [drop_while]. rewrite Hc. reflexivity. }
  rewrite E. apply first_couple_few.
  pose proof (count_char_strip DOT fn). lia.
Qed.

Lemma get_search_term_from_fn_plain_witness :
  get_search_term_from_fn (str_of " Mr. Nobody ") = strip (str_of " Mr. Nobody ").
Proof.
  apply get_search_term_from_fn_plain;
    [reflexivity | reflexivity | vm_compute; lia | vm_compute; lia | reflexivity].
Defined.

(* ================================================================= *)
(** ** More on [make_filename] *)

Lemma str_int_chars z : only_chars (str_of "0123456789-") (str_int z) = true.
Proof.
  assert (H : forall u, only_chars (str_of "0123456789-") (uint_chars u) = true)
    by (induction u; simpl; auto).
  unfold str_int. destruct (Z.to_int z) as [u | u]; [apply H|].
  specialize (H u). unfold only_chars in *. cbn [forallb]. rewrite H. reflexivity.
Qed.

Lemma filter_char_in illegal c t :
  char_in c illegal = true ->
  char_in c (filter (fun x => negb (char_in x illegal)) t) = false.
Proof.
  intros Hc. induction t as [|x t IH]; [reflexivity|].
  cbn [filter]. destruct (char_in x illegal) eqn:Hx; cbn [negb]; [exact IH|].
  unfold char_in at 1. cbn [existsb]. fold (char_in c (filter
    (fun x0 => negb (char_in x0 illegal)) t)). rewrite IH, orb_false_r.
  destruct (N.eqb c x) eqn:E; [| reflexivity].
  apply N.eqb_eq in E. subst x. congruence.
Qed.

Lemma make_filename_char_free c result :
  char_in c INVALID_FILENAME_CHARS = true ->
  char_in c (make_filename result) = false.
Proof.
  intros Hc. rewrite make_filename_tagged. unfold tagged_stem.
  assert (Hlit : forall lit,
             forallb (fun x => negb (char_in x lit)) INVALID_FILENAME_CHARS = true ->
             char_in c lit = false).
  { intros lit H. rewrite forallb_forall in H.
    apply negb_true_iff, H, char_in_In, Hc. }
  assert (Hnum : forall z, char_in c (str_int z) = false).
  { intros z. eapply only_chars_not_in; [| apply str_int_chars].
    apply Hlit. reflexivity. }
  assert (Ht : char_in c
                 match filter (fun x => negb (char_in x INVALID_FILENAME_CHARS))
                              (title result) with
                 | [] => str_of "FIXME"
                 | cleaned => cleaned
                 end = false).
  { pose proof (filter_char_in INVALID_FILENAME_CHARS c (title result) Hc) as H.
    destruct (filter _ (title result)); [apply Hlit; reflexivity | exact H]. }
  repeat rewrite char_in_app. rewrite Ht, !Hnum.
  rewrite !Hlit by reflexivity. reflexivity.
Qed.

(** X7. The name [make_filename] returns holds none of the characters of
    [INVALID_FILENAME_CHARS], whatever the title, the identifier and the
    year; in particular it holds no slash. *)
Theorem make_filename_legal result :
  forallb (fun c => negb (char_in c INVALID_FILENAME_CHARS)) (make_filename result)
  = true.
Proof.
  apply forallb_forall. intros c Hin. apply negb_true_iff.
  destruct (char_in c INVALID_FILENAME_CHARS) eqn:Hc; [| reflexivity].
  apply (make_filename_char_free c result) in Hc.
  apply char_in_In in Hin. congruence.
Qed.

Lemma uint_chars_inj : forall u u', uint_chars u = uint_chars u' -> u = u'.
Proof.
  induction u as [|u IH|u IH|u IH|u IH|u IH|u IH|u IH|u IH|u IH|u IH];
    intros [|u'|u'|u'|u'|u'|u'|u'|u'|u'|u'] E; cbn [uint_chars] in E;
    try discriminate E; try reflexivity;
    injection E as E; f_equal; apply IH; exact E.
Qed.

(** The text of an integer: its sign, if any, and its digits. *)
Lemma str_int_parts z :
  exists sign u,
    str_int z = sign ++ uint_chars u /\
    (sign = [] /\ Z.to_int z = Decimal.Pos u \/
     sign = [ch "-"] /\ Z.to_int z = Decimal.Neg u).
Proof.
  unfold str_int. destruct (Z.to_int z) as [u | u].
  - exists [], u. auto.
  - exists [ch "-"], u. auto.
Qed.

Lemma to_int_inj z z' : Z.to_int z = Z.to_int z' -> z = z'.
Proof.
  intros E. rewrite <- (DecimalZ.of_to z), <- (DecimalZ.of_to z'), E. reflexivity.
Qed.

Lemma str_int_inj z z' : forall pre pre',
  (pre ++ str_of "b") ++ ch "-" :: str_int z ++ str_of "}"
  = (pre' ++ str_of "b") ++ ch "-" :: str_int z' ++ str_of "}" ->
  z = z'.
Proof.
  intros pre pre' E.
  destruct (str_int_parts z) as (s & u & Ez & Hs).
  destruct (str_int_parts z') as (s' & u' & Ez' & Hs').
  rewrite Ez, Ez' in E.
  assert (E' : ((pre ++ str_of "b") ++ ch "-" :: s) ++ uint_chars u ++ str_of "}"
               = ((pre' ++ str_of "b") ++ ch "-" :: s') ++ uint_chars u' ++ str_of "}")
    by (rewrite <- !app_assoc; cbn [app]; rewrite <- !app_assoc in E; exact E).
  clear E.
  assert (Hsplit : forall p (sg : str),
             (sg = [] \/ sg = [ch "-"]) ->
             exists q, (p ++ str_of "b") ++ ch "-" :: sg = q ++ [ch "-"] /\
                       (sg = [] -> q = p ++ str_of "b") /\
                       (sg = [ch "-"] -> q = (p ++ str_of "b") ++ [ch "-"])).
  { intros p sg [-> | ->].
    - exists (p ++ str_of "b"). repeat split; auto. intros; discriminate.
    - exists ((p ++ str_of "b") ++ [ch "-"]).
      rewrite <- !app_assoc. repeat split; auto. intros; discriminate. }
  destruct (Hsplit pre s) as (q & Eq & Q1 & Q2); [destruct Hs as [[-> _] | [-> _]]; auto|].
  destruct (Hsplit pre' s') as (q' & Eq' & Q1' & Q2');
    [destruct Hs' as [[-> _] | [-> _]]; auto|].
  rewrite Eq, Eq' in E'. rewrite <- !app_assoc in E'. cbn [app] in E'.
  apply tail_unique in E'; try apply uint_chars_decimal.
  destruct E' as [Eqq Eu]. apply uint_chars_inj in Eu. subst u'.
  apply to_int_inj.
  destruct Hs as [[-> ->] | [-> ->]], Hs' as [[-> ->] | [-> ->]];
    try reflexivity; exfalso;
    rewrite ?(Q1 eq_refl), ?(Q2 eq_refl), ?(Q1' eq_refl), ?(Q2' eq_refl) in Eqq;
    apply (f_equal (@rev char)) in Eqq;
    rewrite !rev_app_distr in Eqq; simpl in Eqq; discriminate Eqq.
Qed.

Lemma tagged_stem_tmdb title y d :
  tagged_stem title y (ch "m") d =
  ((title ++ str_of " (" ++ y ++ str_of ") {tmd") ++ str_of "b")
    ++ ch "-" :: d ++ str_of "}".
Proof. unfold tagged_stem. rewrite <- !app_assoc. reflexivity. Qed.

(** X8. Two candidates with different identifiers never get the same
    name from [make_filename], whatever their titles and years. *)
Theorem make_filename_identifies r1 r2 :
  id_ r1 <> id_ r2 -> make_filename r1 <> make_filename r2.
Proof.
  intros Hid E. apply Hid.
  rewrite !make_filename_tagged, !tagged_stem_tmdb in E.
  apply str_int_inj in E. exact E.
Qed.

Lemma make_filename_identifies_witness :
  make_filename {| title := str_of "Up"; id_ := 14160; release := Date 2009 5 28 |}
  <> make_filename {| title := str_of "Up"; id_ := 1416; release := Date 2009 5 28 |}.
Proof.
  apply make_filename_identifies. simpl. lia.
Defined.

(* ================================================================= *)
(** ** More on paths and [create_new_filepath] *)

Lemma split_segments c s seg : In seg (split c s) -> char_in c seg = false.
Proof.
  revert seg. induction s as [|x s IH]; intros seg H.
  - destruct H as [<- | []]. reflexivity.
  - cbn [split] in H. destruct (N.eqb x c) eqn:E.
    + destruct H as [<- | H]; [reflexivity | auto].
    + destruct (split c s) as [|sg sgs].
      * destruct H as [<- | []]. unfold char_in. cbn [existsb].
        rewrite N.eqb_sym, E. reflexivity.
      * destruct H as [<- | H].
        -- unfold char_in. cbn [existsb]. rewrite N.eqb_sym, E.
           apply (IH sg). left. reflexivity.
        -- apply IH. right. exact H.
Qed.

Lemma components_wf rel : forallb wf_comp (components rel) = true.
Proof.
  apply forallb_forall. intros x H. unfold components in H.
  apply filter_In in H. destruct H as [Hin Hf].
  unfold wf_comp. rewrite Hf. cbn [andb].
  rewrite (split_segments _ _ _ Hin). reflexivity.
Qed.

(** Every path the parser builds is made of proper components. *)
Lemma PurePosixPath_wf s : wf_path (PurePosixPath s) = true.
Proof.
  unfold PurePosixPath. destruct (splitroot s) as [r rel].
  apply components_wf.
Qed.

Lemma truediv_wf p s : wf_path p = true -> wf_path (truediv p s) = true.
Proof.
  intros H. unfold truediv. destruct (splitroot s) as [r rel].
  destruct r; unfold wf_path; cbn [comps].
  - rewrite forallb_app. rewrite components_wf, andb_true_r. exact H.
  - apply components_wf.
Qed.

Lemma rfind_spec c : forall s i,
  rfind c s = Some i ->
  exists a e, s = a ++ c :: e /\ length a = i /\ char_in c e = false.
Proof.
  induction s as [|x s IH]; intros i H; [discriminate|].
  cbn [rfind] in H. destruct (rfind c s) as [j|] eqn:E.
  - injection H as <-. destruct (IH j eq_refl) as (a & e & -> & L & He).
    exists (x :: a), e. cbn [length app]. auto.
  - destruct (N.eqb x c) eqn:Ex; [| discriminate].
    injection H as <-. apply N.eqb_eq in Ex. subst x.
    exists [], s. repeat split.
    clear IH. induction s as [|y s IH]; [reflexivity|].
    cbn [rfind] in E. destruct (rfind c s); [discriminate|].
    destruct (N.eqb y c) eqn:Ey; [discriminate|].
    unfold char_in. cbn [existsb]. rewrite N.eqb_sym, Ey. apply IH. reflexivity.
Qed.

Lemma rfind_none c s : char_in c s = false -> rfind c s = None.
Proof.
  induction s as [|x s IH]; intros H; [reflexivity|].
  apply char_in_cons_false in H. destruct H as [Hx Hs].
  cbn [rfind]. rewrite (IH Hs), Hx. reflexivity.
Qed.

Lemma rfind_app c a e :
  char_in c e = false -> rfind c (a ++ c :: e) = Some (length a).
Proof.
  intros He. induction a as [|x a IH]; cbn [app rfind length].
  - rewrite (rfind_none _ _ He), N.eqb_refl. reflexivity.
  - rewrite IH. reflexivity.
Qed.

(** The suffix of a name, when there is one: a dot and one or more
    characters other than a dot, behind a stem that is not empty. *)
Lemma suffix_shape p :
  suffix p <> [] ->
  exists e, suffix p = DOT :: e /\ e <> [] /\ char_in DOT e = false /\
            name p = stem p ++ DOT :: e /\ stem p <> [].
Proof.
  unfold suffix, stem. change (ch ".") with DOT.
  destruct (rfind DOT (name p)) as [i|] eqn:E; [| congruence].
  destruct (Nat.ltb 0 i && Nat.ltb i (length (name p) - 1)) eqn:B; [| congruence].
  intros _. apply andb_prop in B. destruct B as [B1 B2].
  apply Nat.ltb_lt in B1. apply Nat.ltb_lt in B2.
  destruct (rfind_spec _ _ E) as (a & e & En & L & He).
  rewrite En in *. rewrite length_app in B2. cbn [length] in B2.
  exists e. subst i.
  rewrite skipn_app, firstn_app, Nat.sub_diag, skipn_all, firstn_all.
  cbn [skipn firstn app]. rewrite app_nil_r.
  repeat split; auto.
  - intros ->. simpl in B2. lia.
  - intros ->. simpl in B1. lia.
Qed.

Lemma wf_comp_parse n :
  wf_comp n = true -> splitroot n = ([], n) /\ components n = [n].
Proof.
  intros H. pose proof H as H'. apply wf_comp_spec in H'.
  destruct H' as (Hne & Hdot & Hsep).
  destruct n as [|c n]; [congruence|].
  destruct (char_in_cons_false _ _ _ Hsep) as [Hc _].
  unfold splitroot. rewrite Hc. split; [reflexivity|].
  unfold components. rewrite split_no_sep by exact Hsep.
  cbn [filter]. unfold wf_comp in H.
  apply andb_prop in H. destruct H as [H _]. rewrite H. reflexivity.
Qed.

Lemma char_in_skipn c n x : char_in c x = false -> char_in c (skipn n x) = false.
Proof.
  revert x. induction n as [|n IH]; intros [|a x] H; try reflexivity; [exact H|].
  apply char_in_cons_false in H. destruct H as [_ Hx]. apply IH. exact Hx.
Qed.

Lemma last_not c : forall n, n <> [] -> char_in c n = false -> N.eqb (last n 0%N) c = false.
Proof.
  induction n as [|x n IH]; intros Hne H; [congruence|].
  apply char_in_cons_false in H. destruct H as [Hx Hn].
  destruct n as [|y n]; [exact Hx|]. apply IH; [discriminate | exact Hn].
Qed.

Lemma forallb_removelast (p : str -> bool) l :
  forallb p l = true -> forallb p (removelast l) = true.
Proof.
  induction l as [|x l IH]; [auto|]. intros H. cbn [forallb] in H.
  apply andb_prop in H. destruct H as [Hx Hl].
  destruct l as [|y l]; [reflexivity|].
  cbn [removelast forallb] in *. rewrite Hx. apply IH. exact Hl.
Qed.

(** The new name of a file: a proper component. *)
Lemma new_name_wf fp result :
  wf_path fp = true -> suffix fp <> [] ->
  wf_comp (make_filename result ++ suffix fp) = true.
Proof.
  intros Hwf Hs. destruct (suffix_shape fp Hs) as (e & Es & He & Hd & En & Hst).
  assert (Hne : comps fp <> []).
  { intros E. unfold suffix, name in Hs. rewrite E in Hs. apply Hs. reflexivity. }
  pose proof (name_wf fp Hwf Hne) as Hn. apply wf_comp_spec in Hn.
  destruct Hn as (_ & _ & Hsep).
  apply wf_comp_spec. rewrite Es. repeat split.
  - destruct (make_filename result); discriminate.
  - intros E. apply (f_equal (@length char)) in E.
    rewrite length_app in E. cbn [length] in E.
    destruct e; [congruence | simpl in E; lia].
  - rewrite char_in_app.
    rewrite (make_filename_char_free SEP result) by reflexivity.
    rewrite En, char_in_app in Hsep. apply orb_false_elim in Hsep.
    destruct Hsep as [_ Hsep]. exact Hsep.
Qed.

Lemma make_filename_nonempty result : make_filename result <> [].
Proof.
  rewrite make_filename_tagged. unfold tagged_stem.
  destruct (match filter _ (title result) with [] => _ | _ => _ end);
    discriminate.
Qed.

Lemma renamed_name fp result :
  name (renamed fp result) = make_filename result ++ suffix fp.
Proof. unfold name, renamed. cbn [comps]. apply last_last. Qed.

Lemma renamed_parts fp result :
  suffix fp <> [] ->
  stem (renamed fp result) = make_filename result /\
  suffix (renamed fp result) = suffix fp.
Proof.
  intros Hs. destruct (suffix_shape fp Hs) as (e & Es & He & Hd & _ & _).
  unfold stem, suffix at 1. rewrite renamed_name, Es.
  change (ch ".") with DOT. rewrite (rfind_app _ _ _ Hd).
  pose proof (make_filename_nonempty result) as Hm.
  replace (Nat.ltb 0 (length (make_filename result))
           && Nat.ltb (length (make_filename result))
                      (length (make_filename result ++ DOT :: e) - 1))
    with true.
  - rewrite firstn_app, skipn_app, Nat.sub_diag, firstn_all, skipn_all.
    cbn [firstn skipn app]. rewrite app_nil_r. auto.
  - symmetry. apply andb_true_intro. rewrite length_app. cbn [length].
    split; apply Nat.ltb_lt.
    + destruct (make_filename result); [congruence | simpl; lia].
    + destruct e; [congruence | simpl; lia].
Qed.

Lemma renamed_parent fp result : parent (renamed fp result) = parent fp.
Proof.
  unfold parent, renamed. cbn [root comps]. rewrite removelast_last. reflexivity.
Qed.

Lemma renamed_wf fp result :
  wf_path fp = true -> suffix fp <> [] -> wf_path (renamed fp result) = true.
Proof.
  intros Hwf Hs. unfold wf_path, renamed. cbn [comps]. rewrite forallb_app.
  rewrite forallb_removelast by exact Hwf. cbn [forallb].
  rewrite (new_name_wf fp result Hwf Hs). reflexivity.
Qed.

Lemma create_new_filepath_ok fp result st :
  wf_path fp = true -> suffix fp <> [] ->
  create_new_filepath fp result st = (Ok (renamed fp result), st).
Proof.
  intros Hwf Hs. pose proof (new_name_wf fp result Hwf Hs) as Hn.
  destruct (wf_comp_parse _ Hn) as [Hroot Hcomps].
  apply wf_comp_spec in Hn. destruct Hn as (N1 & _ & N3).
  unfold create_new_filepath, with_name.
  assert (Hname : name fp <> []).
  { intros E. apply Hs. unfold suffix. rewrite E. reflexivity. }
  rewrite (str_eqb_neq Hname), Hroot, Hcomps, (last_not _ N1 N3).
  reflexivity.
Qed.

(** X9. For a file with a suffix (every file [loop_path] renames has
    one), [create_new_filepath] never fails and touches nothing: the path
    it returns lies in the same directory, its stem is the name made by
    [make_filename], its suffix is the suffix of the file, and it is made
    of proper components. For a path without a name it raises the
    [ValueError] of [with_name]. *)
Theorem create_new_filepath_keeps fp result st :
  (wf_path fp = true -> suffix fp <> [] ->
   create_new_filepath fp result st = (Ok (renamed fp result), st) /\
   parent (renamed fp result) = parent fp /\
   stem (renamed fp result) = make_filename result /\
   suffix (renamed fp result) = suffix fp /\
   wf_path (renamed fp result) = true) /\
  (name fp = [] -> create_new_filepath fp result st = (Raise ValueError, st)).
Proof.
  split.
  - intros Hwf Hs. destruct (renamed_parts fp result Hs) as [Estem Esuf].
    split; [apply create_new_filepath_ok; assumption|].
    split; [apply renamed_parent|].
    split; [exact Estem|]. split; [exact Esuf|].
    apply renamed_wf; assumption.
  - intros E. unfold create_new_filepath, with_name. rewrite E. reflexivity.
Qed.

Lemma create_new_filepath_keeps_witness :
  create_new_filepath (PurePosixPath (str_of "/foo/bar/baz.avi"))
    {| title := str_of "Mr. Nobody"; id_ := 31011; release := Date 2009 9 11 |} idle
  = (Ok (renamed (PurePosixPath (str_of "/foo/bar/baz.avi"))
           {| title := str_of "Mr. Nobody"; id_ := 31011; release := Date 2009 9 11 |}),
     idle) /\
  create_new_filepath (PurePosixPath (str_of "/"))
    {| title := str_of "Mr. Nobody"; id_ := 31011; release := Date 2009 9 11 |} idle
  = (Raise ValueError, idle).
Proof.
  split.
  - apply (proj1 (create_new_filepath_keeps
                    (PurePosixPath (str_of "/foo/bar/baz.avi"))
                    {| title := str_of "Mr. Nobody"; id_ := 31011;
                       release := Date 2009 9 11 |} idle));
      [reflexivity | vm_compute; discriminate].
  - apply (proj2 (create_new_filepath_keeps (PurePosixPath (str_of "/")) _ idle)).
    reflexivity.
Defined.

(* ================================================================= *)
(** ** More on [move_to_folder] and [loop_path] *)

(** X10. When the folder cannot be made, [move_to_folder] raises the
    error and has done nothing; when the folder is made and the file
    cannot be moved into it, the error is raised and the new folder stays
    behind, empty. *)
Theorem move_to_folder_failures w fp st e :
  name (parent fp) <> stem fp ->
  (fs_error w (fs_log st)
     (Mkdir (parent (truediv (truediv (parent fp) (stem fp)) (name fp)))) = Some e ->
   move_to_folder w fp false st = (Raise e, st)) /\
  (fs_error w (fs_log st)
     (Mkdir (parent (truediv (truediv (parent fp) (stem fp)) (name fp)))) = None ->
   fs_error w
     (Mkdir (parent (truediv (truediv (parent fp) (stem fp)) (name fp))) :: fs_log st)
     (Rename fp (truediv (truediv (parent fp) (stem fp)) (name fp))) = Some e ->
   move_to_folder w fp false st
   = (Raise e,
      log_fs (Mkdir (parent (truediv (truediv (parent fp) (stem fp)) (name fp)))) st)).
Proof.
  intros Hneq. unfold move_to_folder. rewrite (str_eqb_neq Hneq). cbn [negb].
  unfold bind, fs_do. split.
  - intros H. rewrite H. reflexivity.
  - intros H1 H2. rewrite H1. cbn [log_fs fs_log]. rewrite H2. reflexivity.
Qed.

Lemma move_to_folder_failures_witness :
  move_to_folder folder_exists_world (PurePosixPath (str_of "/foo/bar.avi")) false idle
  = (Raise FileExistsError, idle) /\
  move_to_folder rename_denied_world (PurePosixPath (str_of "/foo/bar.avi")) false idle
  = (Raise PermissionError, log_fs (Mkdir (PurePosixPath (str_of "/foo/bar"))) idle).
Proof.
  split.
  - apply (proj1 (@move_to_folder_failures folder_exists_world
                    (PurePosixPath (str_of "/foo/bar.avi")) idle FileExistsError
                    ltac:(vm_compute; discriminate))).
    reflexivity.
  - apply (proj2 (@move_to_folder_failures rename_denied_world
                    (PurePosixPath (str_of "/foo/bar.avi")) idle PermissionError
                    ltac:(vm_compute; discriminate))); reflexivity.
Defined.

Lemma preserves_for_each {X A S : Type} (f : state -> X) (body : A -> S -> M S) :
  (forall x s, preserves f (body x s)) ->
  forall l s, preserves f (for_each l body s).
Proof.
  intros H. induction l as [|x l IH]; intros s.
  - apply preserves_ret.
  - cbn [for_each]. apply preserves_bind; [apply H | intros; apply IH].
Qed.

Lemma search_fs_log w query file : preserves fs_log (search w query file).
Proof. intros st. unfold search. destruct (tmdb_search w query); reflexivity. Qed.

Lemma search_stdin w query file : preserves stdin (search w query file).
Proof. intros st. unfold search. destruct (tmdb_search w query); reflexivity. Qed.

Lemma move_to_folder_dry w fp : preserves fs_log (move_to_folder w fp true).
Proof.
  unfold move_to_folder. destruct (negb (str_eqb _ _)); [| apply preserves_ret].
  apply preserves_bind; intros; apply preserves_ret.
Qed.

Lemma loop_body_dry w confirm root file c :
  preserves fs_log (loop_body w confirm true root file c).
Proof.
  unfold loop_body. destruct (negb (existsb _ VIDEO_EXT)); [apply preserves_ret|].
  destruct (looksCanonical _).
  - apply preserves_bind; [apply move_to_folder_dry|].
    intros [p|]; apply preserves_ret.
  - apply preserves_bind; [apply search_fs_log|]. intros [results|];
      [| apply preserves_ret].
    apply preserves_bind; [apply ask_user_fs_log|]. intros selection.
    apply preserves_bind; [apply create_new_filepath_preserves|]. intros new_fp.
    apply preserves_bind; intros; apply preserves_ret.
Qed.

(** X11. A dry run makes no filesystem operation: whatever the files,
    the search results, the answers typed and the way the run ends, the
    log of operations after [loop_path] is the log before it. *)
Theorem loop_path_dry_run w walk confirm st :
  fs_log (snd (loop_path w walk confirm true st)) = fs_log st.
Proof.
  unfold loop_path. apply preserves_for_each. intros entry c.
  apply preserves_for_each. intros file c'. apply loop_body_dry.
Qed.

(** One file adds at most one to the two counters together, and takes
    nothing from either. *)
Lemma loop_body_counts w confirm dry_run root file c st c' st' :
  loop_body w confirm dry_run root file c st = (Ok c', st') ->
  num_changed c <= num_changed c' /\
  num_files_moved c <= num_files_moved c' /\
  num_changed c' + num_files_moved c' <= num_changed c + num_files_moved c + 1.
Proof.
  intros E. unfold loop_body in E.
  destruct (negb (existsb _ VIDEO_EXT)); [injection E as <- _; lia|].
  unfold bind in E. destruct (looksCanonical _).
  - destruct (move_to_folder w _ dry_run st) as [[[p|]|e] st1];
      try discriminate; injection E as <- _; simpl; lia.
  - destruct (search w _ _ st) as [[[results|]|e] st1]; try discriminate;
      [| injection E as <- _; lia].
    destruct (ask_user w results file confirm st1) as [[sel|e] st2]; try discriminate.
    destruct (create_new_filepath _ sel st2) as [[new_fp|e] st3]; try discriminate.
    match type of E with
    | (let (_, _) := ?m in _) = _ => destruct m as [[u|e] st4]
    end; try discriminate.
    injection E as <- _. simpl. lia.
Qed.

Lemma for_each_counts w confirm dry_run root : forall files c st c' st',
  for_each files (loop_body w confirm dry_run root) c st = (Ok c', st') ->
  num_changed c' + num_files_moved c'
  <= num_changed c + num_files_moved c + length files.
Proof.
  induction files as [|file files IH]; intros c st c' st' E; cbn [for_each] in E.
  - injection E as <- _. simpl. lia.
  - unfold bind in E.
    destruct (loop_body w confirm dry_run root file c st) as [[c1|e] st1] eqn:E1;
      [| discriminate].
    apply loop_body_counts in E1. apply IH in E. simpl. lia.
Qed.

Lemma length_insert_sorted x l : length (insert_sorted x l) = S (length l).
Proof.
  induction l as [|y l IH]; [reflexivity|].
  cbn [insert_sorted]. destruct (str_leb x y); simpl; auto.
Qed.

Lemma length_sorted l : length (sorted l) = length l.
Proof.
  induction l as [|x l IH]; [reflexivity|].
  unfold sorted in *. cbn [fold_right]. rewrite length_insert_sorted, IH.
  reflexivity.
Qed.

Lemma walk_counts w confirm dry_run : forall walk c st c' st',
  for_each walk
    (fun entry c =>
       for_each (sorted (snd entry)) (loop_body w confirm dry_run (fst entry)) c)
    c st = (Ok c', st') ->
  num_changed c' + num_files_moved c'
  <= num_changed c + num_files_moved c + length (files_of walk).
Proof.
  induction walk as [|entry walk IH]; intros c st c' st' E; cbn [for_each] in E.
  - injection E as <- _. simpl. lia.
  - unfold bind in E.
    destruct (for_each (sorted (snd entry)) _ c st) as [[c1|e] st1] eqn:E1;
      [| discriminate].
    apply for_each_counts in E1. apply IH in E.
    rewrite length_sorted in E1.
    unfold files_of in *. cbn [flat_map]. rewrite length_app. lia.
Qed.

(** X12. A run that ends normally reports no more changes and moves,
    taken together, than there were files on its walk: every file is
    counted at most once. *)
Theorem loop_path_counts w walk confirm dry_run st :
  match fst (loop_path w walk confirm dry_run st) with
  | Ok c => num_changed c + num_files_moved c <= length (files_of walk)
  | Raise _ => True
  end.
Proof.
  destruct (loop_path w walk confirm dry_run st) as [[c|e] st'] eqn:E;
    cbn [fst]; [| exact I].
  unfold loop_path in E. apply walk_counts in E. simpl in E. exact E.
Qed.

Lemma in_insert_sorted x y l : In y (insert_sorted x l) -> y = x \/ In y l.
Proof.
  induction l as [|z l IH]; cbn [insert_sorted].
  - intros [<- | []]. auto.
  - destruct (str_leb x z).
    + intros [<- | H]; auto.
    + intros [<- | H]; [right; left; reflexivity|].
      destruct (IH H); [auto | right; right; assumption].
Qed.

Lemma in_sorted y l : In y (sorted l) -> In y l.
Proof.
  induction l as [|x l IH]; [auto|].
  unfold sorted in *. cbn [fold_right]. intros H.
  apply in_insert_sorted in H. destruct H as [-> | H]; [left | right]; auto.
Qed.

Lemma loop_body_organised w confirm dry_run root file c st :
  organised root file = true ->
  loop_body w confirm dry_run root file c st = (Ok c, st).
Proof.
  unfold organised, is_video, loop_body. intros H.
  destruct (existsb _ VIDEO_EXT); cbn [negb orb] in *; [| reflexivity].
  apply andb_prop in H. destruct H as [Hc Hp]. rewrite Hc.
  apply str_eqb_eq in Hp. unfold bind.
  rewrite move_to_folder_settled by exact Hp. reflexivity.
Qed.

Lemma for_each_organised w confirm dry_run root : forall files c st,
  (forall file, In file files -> organised root file = true) ->
  for_each files (loop_body w confirm dry_run root) c st = (Ok c, st).
Proof.
  induction files as [|file files IH]; intros c st H; [reflexivity|].
  cbn [for_each]. unfold bind.
  rewrite loop_body_organised by (apply H; left; reflexivity).
  apply IH. intros f Hf. apply H. right. exact Hf.
Qed.

(** X13. Run over a library that is already organised (every file is no
    video file, or has a canonical name and lies in the folder of that
    name), [loop_path] does nothing at all: no query, no prompt, no
    filesystem operation, and it reports no file changed and no file
    moved. *)
Theorem loop_path_organised w walk confirm dry_run st :
  forallb (fun entry => forallb (organised (fst entry)) (snd entry)) walk = true ->
  loop_path w walk confirm dry_run st
  = (Ok {| num_changed := 0; num_files_moved := 0 |}, st).
Proof.
  unfold loop_path. generalize {| num_changed := 0; num_files_moved := 0 |}.
  induction walk as [|entry walk IH]; intros c H; [reflexivity|].
  cbn [forallb] in H. apply andb_prop in H. destruct H as [He Hw].
  cbn [for_each]. unfold bind.
  rewrite for_each_organised.
  - apply IH. exact Hw.
  - intros file Hin. apply in_sorted in Hin.
    rewrite forallb_forall in He. apply He. exact Hin.
Qed.

Lemma loop_path_organised_witness :
  loop_path two_results_world
    [ (str_of "/m/foo (2031) {tmdb-123}",
       [str_of "foo (2031) {tmdb-123}.mkv"; str_of "cover.jpg"]);
      (str_of "/m", [str_of "notes.txt"]) ]
    true false idle
  = (Ok {| num_changed := 0; num_files_moved := 0 |}, idle).
Proof.
  apply loop_path_organised. vm_compute. reflexivity.
Defined.

Lemma is_video_suffix fp : is_video fp = true -> suffix fp <> [].
Proof. unfold is_video. intros H E. rewrite E in H. discriminate H. Qed.

Lemma walked_wf root file : wf_path (truediv (PurePosixPath root) file) = true.
Proof. apply truediv_wf, PurePosixPath_wf. Qed.

(** The body of the loop for a file that is to be renamed, once the
    result is chosen. *)
Lemma loop_body_rename_branch w confirm dry_run root file c st results selection st2 :
  is_video (truediv (PurePosixPath root) file) = true ->
  looksCanonical (stem (truediv (PurePosixPath root) file)) = false ->
  tmdb_search w (get_search_term_from_fn (stem (truediv (PurePosixPath root) file)))
    = results ->
  results <> [] ->
  ask_user w results file confirm
    (log_query (get_search_term_from_fn (stem (truediv (PurePosixPath root) file))) st)
    = (Ok selection, st2) ->
  loop_body w confirm dry_run root file c st =
  ((if negb dry_run
    then except_PermissionError
           (fs_do w (Rename (truediv (PurePosixPath root) file)
                            (renamed (truediv (PurePosixPath root) file) selection)) ;;;
            _ <- move_to_folder w
                   (renamed (truediv (PurePosixPath root) file) selection) false ;;
            ret tt)
           (ret tt)
    else ret tt) ;;;
   ret (one_more_changed c)) st2.
Proof.
  intros Hv Hc Hs Hne Ha. unfold loop_body.
  change (existsb (str_eqb (lower (suffix (truediv (PurePosixPath root) file))))
                  VIDEO_EXT)
    with (is_video (truediv (PurePosixPath root) file)).
  rewrite Hv, Hc. cbn [negb].
  unfold bind at 1. unfold search. rewrite Hs.
  destruct results as [|r0 rs]; [congruence|].
  unfold bind at 1. rewrite Ha.
  unfold bind at 1.
  rewrite create_new_filepath_ok
    by (apply walked_wf || apply is_video_suffix; exact Hv).
  reflexivity.
Qed.

Lemma make_filename_not_dot result : make_filename result <> str_of ".".
Proof.
  intros E. rewrite make_filename_tagged in E. unfold tagged_stem in E.
  apply (f_equal (@length char)) in E. rewrite !length_app in E.
  simpl in E. lia.
Qed.

(** X14. When the rename of a file is refused for want of permission,
    [loop_path]'s body goes on: nothing is done to the file, and the file
    is counted as changed all the same. Any other error of the rename
    ends the run. *)
Theorem loop_body_rename_refused w confirm root file c st results selection st2 e :
  is_video (truediv (PurePosixPath root) file) = true ->
  looksCanonical (stem (truediv (PurePosixPath root) file)) = false ->
  tmdb_search w (get_search_term_from_fn (stem (truediv (PurePosixPath root) file)))
    = results ->
  results <> [] ->
  ask_user w results file confirm
    (log_query (get_search_term_from_fn (stem (truediv (PurePosixPath root) file))) st)
    = (Ok selection, st2) ->
  fs_error w (fs_log st2)
    (Rename (truediv (PurePosixPath root) file)
            (renamed (truediv (PurePosixPath root) file) selection)) = Some e ->
  (e = PermissionError ->
   loop_body w confirm false root file c st = (Ok (one_more_changed c), st2)) /\
  (e <> PermissionError ->
   loop_body w confirm false root file c st = (Raise e, st2)).
Proof.
  intros Hv Hc Hs Hne Ha He.
  rewrite (loop_body_rename_branch w confirm false root file c st Hv Hc Hs Hne Ha).
  cbn [negb]. unfold bind, except_PermissionError, fs_do. rewrite He. split.
  - intros ->. reflexivity.
  - intros Hneq. destruct e; try reflexivity. congruence.
Qed.

Lemma loop_body_rename_refused_witness :
  loop_body (fs_world None (Some PermissionError)) false false
            (str_of "/foo/bar") (str_of "baz.avi")
            {| num_changed := 0; num_files_moved := 0 |} idle
  = (Ok {| num_changed := 1; num_files_moved := 0 |}, log_query (str_of "baz") idle) /\
  loop_body (fs_world None (Some OSError)) false false
            (str_of "/foo/bar") (str_of "baz.avi")
            {| num_changed := 0; num_files_moved := 0 |} idle
  = (Raise OSError, log_query (str_of "baz") idle).
Proof.
  split.
  - apply (proj1 (@loop_body_rename_refused
                    (fs_world None (Some PermissionError)) false
                    (str_of "/foo/bar") (str_of "baz.avi")
                    {| num_changed := 0; num_files_moved := 0 |} idle
                    _ _ _ PermissionError
                    eq_refl eq_refl eq_refl ltac:(discriminate) eq_refl eq_refl)).
    reflexivity.
  - apply (proj2 (@loop_body_rename_refused
                    (fs_world None (Some OSError)) false
                    (str_of "/foo/bar") (str_of "baz.avi")
                    {| num_changed := 0; num_files_moved := 0 |} idle
                    _ _ _ OSError
                    eq_refl eq_refl eq_refl ltac:(discriminate) eq_refl eq_refl)).
    discriminate.
Defined.

(** X15. When no filesystem operation fails, a video file without a
    canonical name, for which a result is chosen, is renamed in its
    directory to the name made for the result, with its suffix, and then
    moved into a new folder of that name; when its directory already has
    that name, it is renamed only. Either way one change is counted. *)
Theorem loop_body_renames_then_moves w confirm root file c st results selection st2 :
  is_video (truediv (PurePosixPath root) file) = true ->
  looksCanonical (stem (truediv (PurePosixPath root) file)) = false ->
  tmdb_search w (get_search_term_from_fn (stem (truediv (PurePosixPath root) file)))
    = results ->
  results <> [] ->
  ask_user w results file confirm
    (log_query (get_search_term_from_fn (stem (truediv (PurePosixPath root) file))) st)
    = (Ok selection, st2) ->
  (forall log op, fs_error w log op = None) ->
  (name (parent (truediv (PurePosixPath root) file)) <> make_filename selection ->
   loop_body w confirm false root file c st
   = (Ok (one_more_changed c),
      log_fs (Rename (renamed (truediv (PurePosixPath root) file) selection)
                     (in_own_folder
                        (renamed (truediv (PurePosixPath root) file) selection)))
        (log_fs (Mkdir (parent
                          (in_own_folder
                             (renamed (truediv (PurePosixPath root) file) selection))))
           (log_fs (Rename (truediv (PurePosixPath root) file)
                           (renamed (truediv (PurePosixPath root) file) selection))
                   st2)))) /\
  (name (parent (truediv (PurePosixPath root) file)) = make_filename selection ->
   loop_body w confirm false root file c st
   = (Ok (one_more_changed c),
      log_fs (Rename (truediv (PurePosixPath root) file)
                     (renamed (truediv (PurePosixPath root) file) selection))
             st2)).
Proof.
  intros Hv Hc Hs Hne Ha Hfs.
  rewrite (loop_body_rename_branch w confirm false root file c st Hv Hc Hs Hne Ha).
  set (fp := truediv (PurePosixPath root) file) in *.
  pose proof (is_video_suffix fp Hv) as Hsuf.
  destruct (renamed_parts fp selection Hsuf) as [Estem _].
  cbn [negb]. split; intros Hp.
  - assert (Hneq : name (parent (renamed fp selection)) <> stem (renamed fp selection))
      by (rewrite renamed_parent, Estem; exact Hp).
    unfold move_to_folder. rewrite (str_eqb_neq Hneq).
    rewrite move_plan;
      [| apply renamed_wf; [apply walked_wf | exact Hsuf] | exact Hneq
       | rewrite Estem; apply make_filename_not_dot].
    cbn [negb]. unfold bind, except_PermissionError, fs_do.
    rewrite !Hfs. reflexivity.
  - unfold bind, except_PermissionError. unfold fs_do at 1. rewrite Hfs.
    rewrite move_to_folder_settled
      by (rewrite renamed_parent, Estem; exact Hp).
    reflexivity.
Qed.

Lemma loop_body_renames_then_moves_witness :
  loop_body one_result_world false false (str_of "/foo/bar") (str_of "baz.avi")
            {| num_changed := 0; num_files_moved := 0 |} idle
  = (Ok {| num_changed := 1; num_files_moved := 0 |},
     log_fs (Rename (PurePosixPath (str_of "/foo/bar/foo (2031) {tmdb-123}.avi"))
                    (PurePosixPath
                       (str_of "/foo/bar/foo (2031) {tmdb-123}/foo (2031) {tmdb-123}.avi")))
       (log_fs (Mkdir (PurePosixPath (str_of "/foo/bar/foo (2031) {tmdb-123}")))
          (log_fs (Rename (PurePosixPath (str_of "/foo/bar/baz.avi"))
                          (PurePosixPath (str_of "/foo/bar/foo (2031) {tmdb-123}.avi")))
                  (log_query (str_of "baz") idle)))) /\
  loop_body one_result_world false false
            (str_of "/foo/foo (2031) {tmdb-123}") (str_of "baz.avi")
            {| num_changed := 0; num_files_moved := 0 |} idle
  = (Ok {| num_changed := 1; num_files_moved := 0 |},
     log_fs (Rename (PurePosixPath (str_of "/foo/foo (2031) {tmdb-123}/baz.avi"))
                    (PurePosixPath
                       (str_of "/foo/foo (2031) {tmdb-123}/foo (2031) {tmdb-123}.avi")))
            (log_query (str_of "baz") idle)).
Proof.
  split.
  - apply (proj1 (@loop_body_renames_then_moves
                    one_result_world false (str_of "/foo/bar") (str_of "baz.avi")
                    {| num_changed := 0; num_files_moved := 0 |} idle _ _ _
                    eq_refl eq_refl eq_refl ltac:(discriminate) eq_refl
                    ltac:(reflexivity))).
    vm_compute. discriminate.
  - apply (proj2 (@loop_body_renames_then_moves
                    one_result_world false (str_of "/foo/foo (2031) {tmdb-123}")
                    (str_of "baz.avi")
                    {| num_changed := 0; num_files_moved := 0 |} idle _ _ _
                    eq_refl eq_refl eq_refl ltac:(discriminate) eq_refl
                    ltac:(reflexivity))).
    reflexivity.
Defined.

(* ================================================================= *)
(** ** More on [ask_user] *)

(** What one call of the loop may end with. *)
Lemma ask_loop_outcome w results : forall lines skip,
  (exists used, lines = used ++ snd (ask_loop w results skip lines)) /\
  match fst (ask_loop w results skip lines) with
  | Ok selection => In selection results
  | Raise e =>
      e = RuntimeError (str_of "User aborted") \/ e = EOFError \/
      exists before val after,
        lines = before ++ val :: after /\ lower val = str_of "b" /\
        snd (breakpointhook w after) = Raise e
  end.
Proof.
  induction lines as [|val lines IH]; intros skip.
  - split; [exists []; reflexivity | right; left; reflexivity].
  - assert (Hnext : forall n,
        (exists used0, val :: lines = used0 ++ snd (ask_loop w results n lines))
        /\ match fst (ask_loop w results n lines) with
           | Ok selection => In selection results
           | Raise e =>
               e = RuntimeError (str_of "User aborted") \/ e = EOFError \/
               exists before val0 after,
                 val :: lines = before ++ val0 :: after /\
                 lower val0 = str_of "b" /\
                 snd (breakpointhook w after) = Raise e
           end).
    { intros n. destruct (IH n) as [(used & Eu) IHn]. split.
      - exists (val :: used). cbn [app]. rewrite <- Eu. reflexivity.
      - destruct (fst (ask_loop w results n lines)) as [sel|e]; [exact IHn|].
        destruct IHn as [H | [H | (before & val0 & after & E & Hb & Hh)]];
          [left; exact H | right; left; exact H |].
        right. right. exists (val :: before), val0, after.
        split; [cbn [app]; rewrite <- E; reflexivity | split; assumption]. }
    assert (Hused : forall n, exists used0, val :: lines = used0 ++ skipn n lines).
    { intros n. exists (val :: firstn n lines). cbn [app].
      rewrite firstn_skipn. reflexivity. }
    destruct skip as [|skip]; cbn [ask_loop]; [| apply Hnext].
    destruct (str_eqb (lower val) (str_of "b")) eqn:Eb.
    + apply str_eqb_eq in Eb.
      destruct (breakpointhook w lines) as [read session] eqn:Eh.
      destruct session as [u|e].
      * apply lower_b in Eb.
        assert (E : (if str_eqb val [] then Some 1%Z
                     else int_of_str (int_max_str_digits w) val) = None)
          by (destruct Eb as [-> | ->]; vm_compute; reflexivity).
        rewrite E. apply Hnext.
      * split; [apply Hused|]. cbn [fst]. right. right.
        exists [], val, lines. split; [reflexivity|]. split; [exact Eb|].
        rewrite Eh. reflexivity.
    + destruct (if str_eqb val [] then Some 1%Z
                else int_of_str (int_max_str_digits w) val) as [v|];
        [| apply Hnext].
      destruct (v =? 0)%Z eqn:E0.
      { split; [apply Hused | left; reflexivity]. }
      destruct ((v <? 0)%Z || (Z.of_nat (length results) <? v)%Z) eqn:E1;
        [apply Hnext|].
      apply Z.eqb_neq in E0. apply orb_false_elim in E1. destruct E1 as [E1 E2].
      apply Z.ltb_ge in E1. apply Z.ltb_ge in E2.
      destruct (nth_error results (Z.to_nat (v - 1))) as [selection|] eqn:E.
      * split; [apply Hused|]. cbn [fst]. eapply nth_error_In. exact E.
      * apply nth_error_None in E. lia.
Qed.

(** X16. However [ask_user] ends, it has read some of the lines typed
    and touched nothing else; when it returns, what it returns is one of
    the results it was given (the index it computes is always in range);
    when it raises, it is the abort of the user, the end of the input,
    or the exception with which the debugger ended on the lines that
    follow a line [b] or [B]. It raises nothing of its own besides:
    where no line typed is [b] or [B], only the first two occur. *)
Theorem ask_user_outcome w results original_file confirm st :
  fs_log (snd (ask_user w results original_file confirm st)) = fs_log st /\
  queries (snd (ask_user w results original_file confirm st)) = queries st /\
  (exists used,
      stdin st = used ++ stdin (snd (ask_user w results original_file confirm st))) /\
  match fst (ask_user w results original_file confirm st) with
  | Ok selection => In selection results
  | Raise e =>
      e = RuntimeError (str_of "User aborted") \/ e = EOFError \/
      exists before val after,
        stdin st = before ++ val :: after /\ lower val = str_of "b" /\
        snd (breakpointhook w after) = Raise e
  end.
Proof.
  split; [apply ask_user_fs_log|]. split; [apply ask_user_queries|].
  pose proof (ask_loop_outcome w results (stdin st) 0) as H.
  unfold ask_user.
  destruct results as [|r0 [|r1 rs]]; try destruct (negb confirm);
    try (split; [exists []; reflexivity | left; reflexivity]);
    destruct (ask_loop _ _ _ (stdin st)) as [r lines]; exact H.
Qed.

(** With the debugger that quits, the lines [b], [2] end in its
    exception; with the one that resumes at the next line, the line
    after that is read at the prompt. *)
Example ask_user_debugger :
  ask_user (debugger_world debugger_quits) two_results (str_of "x.avi") false
           (set_stdin [str_of "b"; str_of "2"] idle)
    = (Raise BdbQuit, idle) /\
  ask_user (debugger_world debugger_continues) two_results (str_of "x.avi") false
           (set_stdin [str_of "b"; str_of "c"; str_of "2"; str_of "1"] idle)
    = (Ok {| title := str_of "bar"; id_ := 7; release := Date 1999 1 1 |},
       set_stdin [str_of "1"] idle).
Proof. split; vm_compute; reflexivity. Qed.

(* ================================================================= *)
(** ** [SearchResult] *)

(** X17. What [SearchResult(data)] ends with, for every dictionary
    [data] of the reply:

    - without the key [title] it raises [KeyError], and with it but
      without the key [id] as well;
    - with both keys and a release date that is no text, such as the
      [None] of a JSON null, it raises the [TypeError] of
      [date.fromisoformat], which the constructor does not catch;
    - with both keys and a release date that is a text and parses, the
      object holds the dictionary, the title and the identifier as they
      came, and that date;
    - with both keys and a release date that is missing, or a text that
      is refused, the object holds the first of January 1970 instead;
      when the title is then a text without a newline and the identifier
      an integer that is not negative, the name made for the object
      carries the year 1970 and is recognised as canonical. *)
Theorem SearchResult_init_outcome fromisoformat data :
  (getitem data (str_of "title") = None ->
   SearchResult_init fromisoformat data = KeyError (str_of "title")) /\
  (getitem data (str_of "title") <> None -> getitem data (str_of "id") = None ->
   SearchResult_init fromisoformat data = KeyError (str_of "id")) /\
  (forall t i v,
      getitem data (str_of "title") = Some t ->
      getitem data (str_of "id") = Some i ->
      getitem data (str_of "release_date") = Some v -> (forall s, v <> VStr s) ->
      SearchResult_init fromisoformat data = TypeError) /\
  (forall t i s d,
      getitem data (str_of "title") = Some t ->
      getitem data (str_of "id") = Some i ->
      getitem data (str_of "release_date") = Some (VStr s) ->
      fromisoformat s = Some d ->
      SearchResult_init fromisoformat data
      = Constructed {| self_raw := data; self_title := t; self_id_ := i;
                       self_release := d |}) /\
  (forall t i,
      getitem data (str_of "title") = Some t ->
      getitem data (str_of "id") = Some i ->
      (getitem data (str_of "release_date") = None \/
       exists s, getitem data (str_of "release_date") = Some (VStr s) /\
                 fromisoformat s = None) ->
      SearchResult_init fromisoformat data
      = Constructed {| self_raw := data; self_title := t; self_id_ := i;
                       self_release := Date 1970 1 1 |}) /\
  (forall t i,
      getitem data (str_of "title") = Some (VStr t) ->
      getitem data (str_of "id") = Some (VInt i) ->
      (getitem data (str_of "release_date") = None \/
       exists s, getitem data (str_of "release_date") = Some (VStr s) /\
                 fromisoformat s = None) ->
      exists self r,
        SearchResult_init fromisoformat data = Constructed self /\
        typed self = Some r /\
        title r = t /\ id_ r = i /\ release r = Date 1970 1 1 /\
        (exists cleaned,
            make_filename r
            = cleaned ++ str_of " (1970) {tmdb-" ++ str_int i ++ str_of "}") /\
        (no_newline t = true -> (0 <= i)%Z ->
         looksCanonical (make_filename r) = true)).
Proof.
  assert (Hundated : forall t i,
      getitem data (str_of "title") = Some t ->
      getitem data (str_of "id") = Some i ->
      (getitem data (str_of "release_date") = None \/
       exists s, getitem data (str_of "release_date") = Some (VStr s) /\
                 fromisoformat s = None) ->
      SearchResult_init fromisoformat data
      = Constructed {| self_raw := data; self_title := t; self_id_ := i;
                       self_release := Date 1970 1 1 |}).
  { intros t i Ht Hi Hd. unfold SearchResult_init. rewrite Ht, Hi.
    destruct Hd as [Hd | (s & Hd & Hs)]; rewrite Hd; [| rewrite Hs]; reflexivity. }
  split; [| split; [| split; [| split; [| split; [exact Hundated|]]]]].
  - intros Ht. unfold SearchResult_init. rewrite Ht. reflexivity.
  - intros Ht Hi. unfold SearchResult_init.
    destruct (getitem data (str_of "title")); [| congruence].
    rewrite Hi. reflexivity.
  - intros t i v Ht Hi Hv Hns. unfold SearchResult_init. rewrite Ht, Hi, Hv.
    destruct v; try reflexivity. exfalso. eapply Hns. reflexivity.
  - intros t i s d Ht Hi Hv Hs. unfold SearchResult_init.
    rewrite Ht, Hi, Hv, Hs. reflexivity.
  - intros t i Ht Hi Hd.
    exists {| self_raw := data; self_title := VStr t; self_id_ := VInt i;
              self_release := Date 1970 1 1 |},
           {| title := t; id_ := i; release := Date 1970 1 1 |}.
    split; [apply Hundated; assumption|].
    split; [reflexivity|]. split; [reflexivity|]. split; [reflexivity|].
    split; [reflexivity|]. split.
    + eexists. rewrite make_filename_tagged. unfold tagged_stem.
      cbn [title id_ release year]. reflexivity.
    + intros Hn Hid. apply looksCanonical_shape. rewrite make_filename_tagged.
      destruct (str_int_nonneg Hid) as [Hd1 Hd2].
      cbn [title id_ release year].
      apply canonical_shape_tagged; auto; try reflexivity.
      * destruct (filter _ _); discriminate.
      * pose proof (filter_no_newline
                      (fun c => negb (char_in c INVALID_FILENAME_CHARS)) _ Hn) as H.
        destruct (filter _ _); [reflexivity | exact H].
Qed.

Lemma SearchResult_init_outcome_witness :
  SearchResult_init sample_fromisoformat [(str_of "id", VInt 42)]
    = KeyError (str_of "title") /\
  SearchResult_init sample_fromisoformat [(str_of "title", VStr (str_of "Who?"))]
    = KeyError (str_of "id") /\
  SearchResult_init sample_fromisoformat (sample_reply VNone) = TypeError /\
  SearchResult_init sample_fromisoformat (sample_reply (VStr (str_of "2031-03-03")))
    = Constructed {| self_raw := sample_reply (VStr (str_of "2031-03-03"));
                     self_title := VStr (str_of "Who?"); self_id_ := VInt 42;
                     self_release := Date 2031 3 3 |} /\
  SearchResult_init sample_fromisoformat (sample_reply (VStr []))
    = Constructed {| self_raw := sample_reply (VStr []);
                     self_title := VStr (str_of "Who?"); self_id_ := VInt 42;
                     self_release := Date 1970 1 1 |} /\
  (exists self r,
      SearchResult_init sample_fromisoformat
        [(str_of "title", VStr (str_of "Who?")); (str_of "id", VInt 42)]
      = Constructed self /\
      typed self = Some r /\
      make_filename r = str_of "Who (1970) {tmdb-42}" /\
      looksCanonical (make_filename r) = true).
Proof.
  split; [| split; [| split; [| split; [| split]]]].
  - apply (proj1 (SearchResult_init_outcome sample_fromisoformat _)). reflexivity.
  - apply (proj1 (proj2 (SearchResult_init_outcome sample_fromisoformat _)));
      [discriminate | reflexivity].
  - apply (proj1 (proj2 (proj2 (SearchResult_init_outcome sample_fromisoformat _)))
             (VStr (str_of "Who?")) (VInt 42) VNone);
      [reflexivity | reflexivity | reflexivity | discriminate].
  - apply (proj1 (proj2 (proj2 (proj2
             (SearchResult_init_outcome sample_fromisoformat _))))
             (VStr (str_of "Who?")) (VInt 42) (str_of "2031-03-03") (Date 2031 3 3));
      reflexivity.
  - apply (proj1 (proj2 (proj2 (proj2 (proj2
             (SearchResult_init_outcome sample_fromisoformat _))))));
      [reflexivity | reflexivity |].
    right. exists []. split; reflexivity.
  - destruct (proj2 (proj2 (proj2 (proj2 (proj2
                (SearchResult_init_outcome sample_fromisoformat
                   [(str_of "title", VStr (str_of "Who?"));
                    (str_of "id", VInt 42)])))))
                (str_of "Who?") 42%Z eq_refl eq_refl (or_introl eq_refl))
      as (self & r & E & Ht & Htitle & Hid & Hrel & _ & Hc).
    exists self, r. split; [exact E|]. split; [exact Ht|].
    split; [| apply Hc; [reflexivity | lia]].
    destruct r as [t i rel]. cbn [title id_ release] in Htitle, Hid, Hrel.
    subst t i rel. reflexivity.
Defined.

(* ================================================================= *)
(** ** A dry run against a real run *)

Lemma looksCanonical_not_dot fp :
  looksCanonical (stem fp) = true -> stem fp <> str_of ".".
Proof. intros H E. rewrite E in H. discriminate H. Qed.

(** X18. A video file that has a canonical name and lies outside a
    folder of that name is not renamed; it is counted as moved, in a dry
    run as in a real one, and in a real run whose two operations succeed
    the folder is made and the file moved into it. *)
Theorem loop_body_moves_canonical w confirm root file c st :
  is_video (truediv (PurePosixPath root) file) = true ->
  looksCanonical (stem (truediv (PurePosixPath root) file)) = true ->
  name (parent (truediv (PurePosixPath root) file))
    <> stem (truediv (PurePosixPath root) file) ->
  loop_body w confirm true root file c st = (Ok (one_more_moved c), st) /\
  ((forall log op, fs_error w log op = None) ->
   loop_body w confirm false root file c st
   = (Ok (one_more_moved c),
      log_fs (Rename (truediv (PurePosixPath root) file)
                     (in_own_folder (truediv (PurePosixPath root) file)))
        (log_fs (Mkdir (parent (in_own_folder (truediv (PurePosixPath root) file))))
                st))).
Proof.
  intros Hv Hc Hneq. unfold loop_body.
  change (existsb (str_eqb (lower (suffix (truediv (PurePosixPath root) file))))
                  VIDEO_EXT)
    with (is_video (truediv (PurePosixPath root) file)).
  rewrite Hv, Hc. cbn [negb]. unfold move_to_folder.
  rewrite (str_eqb_neq Hneq).
  rewrite move_plan by (apply walked_wf || assumption
                        || apply looksCanonical_not_dot; assumption).
  cbn [negb]. split; [reflexivity|].
  intros Hfs. unfold bind, fs_do. rewrite !Hfs. reflexivity.
Qed.

Lemma loop_body_moves_canonical_witness :
  loop_body no_world true true (str_of "/m") (str_of "foo (2031) {tmdb-123}.mkv")
            {| num_changed := 0; num_files_moved := 0 |} idle
  = (Ok {| num_changed := 0; num_files_moved := 1 |}, idle) /\
  loop_body no_world true false (str_of "/m") (str_of "foo (2031) {tmdb-123}.mkv")
            {| num_changed := 0; num_files_moved := 0 |} idle
  = (Ok {| num_changed := 0; num_files_moved := 1 |},
     log_fs (Rename (PurePosixPath (str_of "/m/foo (2031) {tmdb-123}.mkv"))
                    (PurePosixPath
                       (str_of "/m/foo (2031) {tmdb-123}/foo (2031) {tmdb-123}.mkv")))
            (log_fs (Mkdir (PurePosixPath (str_of "/m/foo (2031) {tmdb-123}"))) idle)).
Proof.
  destruct (@loop_body_moves_canonical no_world true (str_of "/m")
              (str_of "foo (2031) {tmdb-123}.mkv")
              {| num_changed := 0; num_files_moved := 0 |} idle
              eq_refl eq_refl ltac:(vm_compute; discriminate)) as [A B].
  split; [exact A|]. apply B. reflexivity.
Defined.

Lemma same_dialogue_refl st : same_dialogue st st.
Proof. split; reflexivity. Qed.

Lemma agree_ret {A} (a : A) : agree (ret a) (ret a).
Proof. intros st1 st2 H. split; [reflexivity | exact H]. Qed.

Lemma agree_bind {A B} (m1 m2 : M A) (k1 k2 : A -> M B) :
  agree m1 m2 -> (forall a, agree (k1 a) (k2 a)) -> agree (bind m1 k1) (bind m2 k2).
Proof.
  intros Hm Hk st1 st2 Hs. unfold bind. destruct (Hm st1 st2 Hs) as [E Hs'].
  destruct (m1 st1) as [r1 s1]. destruct (m2 st2) as [r2 s2].
  cbn [fst snd] in E, Hs'. subst r2.
  destruct r1 as [a|e]; [apply Hk; exact Hs' | split; [reflexivity | exact Hs']].
Qed.

Lemma agree_search w query file : agree (search w query file) (search w query file).
Proof.
  intros st1 st2 [H1 H2]. unfold search.
  destruct (tmdb_search w query); (split; [reflexivity | split; cbn; congruence]).
Qed.

Lemma agree_ask_user w results file confirm :
  agree (ask_user w results file confirm) (ask_user w results file confirm).
Proof.
  intros st1 st2 [H1 H2]. unfold ask_user.
  destruct results as [|r0 [|r1 rs]]; try destruct (negb confirm);
    try (split; [reflexivity | split; assumption]);
    rewrite H1; destruct (ask_loop _ _ _ (stdin st2)) as [r lines];
    (split; [reflexivity | split; [reflexivity | exact H2]]).
Qed.

Lemma agree_create_new_filepath fp result :
  agree (create_new_filepath fp result) (create_new_filepath fp result).
Proof.
  intros st1 st2 H. unfold create_new_filepath.
  destruct (with_name _ _); (split; [reflexivity | exact H]).
Qed.

(** Where no operation fails, [move_to_folder] returns in a real run
    what it returns in a dry run. *)
Lemma agree_move_to_folder w fp :
  (forall log op, fs_error w log op = None) ->
  agree (move_to_folder w fp true) (move_to_folder w fp false).
Proof.
  intros Hfs st1 st2 [H1 H2]. unfold move_to_folder.
  destruct (negb (str_eqb (name (parent fp)) (stem fp)));
    [| split; [reflexivity | split; assumption]].
  cbn [negb]. unfold bind, fs_do. rewrite Hfs. cbn [log_fs fs_log]. rewrite Hfs.
  split; [reflexivity | split; assumption].
Qed.

Lemma agree_rename w fp new_fp :
  (forall log op, fs_error w log op = None) ->
  agree (ret tt)
        (except_PermissionError
           (fs_do w (Rename fp new_fp) ;;;
            _ <- move_to_folder w new_fp false ;; ret tt)
           (ret tt)).
Proof.
  intros Hfs st1 st2 [H1 H2].
  assert (Hdo : fs_do w (Rename fp new_fp) st2
                = (Ok tt, log_fs (Rename fp new_fp) st2))
    by (unfold fs_do; rewrite Hfs; reflexivity).
  unfold except_PermissionError, bind. rewrite Hdo.
  destruct (@agree_move_to_folder w new_fp Hfs st1
              (log_fs (Rename fp new_fp) st2) (conj H1 H2)) as [E Hs].
  assert (Hdry : exists r, move_to_folder w new_fp true st1 = (Ok r, st1)).
  { unfold move_to_folder. destruct (negb (str_eqb _ _)); eexists; reflexivity. }
  destruct Hdry as (r & Hdry). rewrite Hdry in E, Hs. cbn [fst snd] in E, Hs.
  destruct (move_to_folder w new_fp false (log_fs (Rename fp new_fp) st2))
    as [r' s']. cbn [fst snd] in E, Hs. subst r'.
  split; [reflexivity | exact Hs].
Qed.

Lemma agree_loop_body w confirm root file c :
  (forall log op, fs_error w log op = None) ->
  agree (loop_body w confirm true root file c)
        (loop_body w confirm false root file c).
Proof.
  intros Hfs. unfold loop_body.
  destruct (negb (existsb _ VIDEO_EXT)); [apply agree_ret|].
  destruct (looksCanonical _).
  - apply agree_bind; [apply agree_move_to_folder; exact Hfs|].
    intros [p|]; apply agree_ret.
  - apply agree_bind; [apply agree_search|]. intros [results|]; [| apply agree_ret].
    apply agree_bind; [apply agree_ask_user|]. intros selection.
    apply agree_bind; [apply agree_create_new_filepath|]. intros new_fp.
    apply agree_bind; [| intros; apply agree_ret].
    cbn [negb]. apply agree_rename. exact Hfs.
Qed.

Lemma agree_for_each {A S : Type} (dry real : A -> S -> M S) :
  (forall x s, agree (dry x s) (real x s)) ->
  forall l s, agree (for_each l dry s) (for_each l real s).
Proof.
  intros H. induction l as [|x l IH]; intros s; cbn [for_each].
  - apply agree_ret.
  - apply agree_bind; [apply H | intros; apply IH].
Qed.

(** X19. Where no filesystem operation fails, a dry run ends as the real
    run does: with the same two counts or the same error, after the same
    queries and the same lines read at the prompt. *)
Theorem loop_path_dry_run_predicts w walk confirm st :
  (forall log op, fs_error w log op = None) ->
  fst (loop_path w walk confirm true st) = fst (loop_path w walk confirm false st) /\
  same_dialogue (snd (loop_path w walk confirm true st))
                (snd (loop_path w walk confirm false st)).
Proof.
  intros Hfs. unfold loop_path.
  apply (agree_for_each
           (fun entry c =>
              for_each (sorted (snd entry)) (loop_body w confirm true (fst entry)) c)
           (fun entry c =>
              for_each (sorted (snd entry)) (loop_body w confirm false (fst entry)) c)).
  - intros entry c.
    apply (agree_for_each (loop_body w confirm true (fst entry))
                          (loop_body w confirm false (fst entry))).
    intros file c'. apply agree_loop_body. exact Hfs.
  - apply same_dialogue_refl.
Qed.

Lemma loop_path_dry_run_predicts_witness :
  fst (loop_path two_results_world
         [(str_of "/foo/bar", [str_of "baz.avi"; str_of "foo (2031) {tmdb-123}.mkv"])]
         true true (set_stdin [str_of "2"] idle))
  = fst (loop_path two_results_world
           [(str_of "/foo/bar", [str_of "baz.avi"; str_of "foo (2031) {tmdb-123}.mkv"])]
           true false (set_stdin [str_of "2"] idle)).
Proof.
  apply loop_path_dry_run_predicts. reflexivity.
Defined.
